(** * database_engine: a shallow embedding of the command interpreter

    The development follows the layout of the Python package:

    - [PyStr]      the [str] methods the package calls (ASCII text);
    - [PyVal]      Python values, the builtins [int], [float], [str] and the
                   comparison operators, with the exceptions they raise;
    - [Regex]      the fragment of [re] the six statement patterns use;
    - [Parser]     parser.py ([CommandParser] and the [DataValidator] copy);
    - [Utils]      utils.py ([FileManager], [DataValidator]) over a model of
                   the files and of the [cache_results] memo;
    - [Core]       core.py ([DatabaseEngine]);
    - [Session]    engine.py ([DatabaseSession.execute_command]).

    Modelling choices that hold throughout:
    - text is ASCII: [str.upper], [str.lower], [str.strip], [\w], [\s] are
      the ASCII restrictions of the Unicode ones;
    - a Python [dict] is an association list with unique keys in insertion
      order ([PyDict]);
    - a Python [float] is a binary64 number, [spec_float] with precision 53;
    - [json.dump] followed by [json.load] is the identity on the values the
      engine stores, so a file holds the value itself; a file that is
      present is well formed and can be read and written;
    - a file is the text of its path: [data_files] is keyed by the path, and
      db_meta.json is kept apart from the data files.  This is the file
      system for the table names the statement patterns read, [\w+]; a name
      with a [/] or a [.] component can be the file of another table or
      db_meta.json, which the model does not follow, and nothing is stated
      of such names;
    - [log_time] only prints a duration and is left out. *)

From Stdlib Require Import ZArith List Bool Ascii String Lia.
From Stdlib Require Import DecimalString DecimalZ DecimalPos.
From Stdlib Require Import Floats.SpecFloat.
Import ListNotations.

Local Open Scope string_scope.
Local Open Scope Z_scope.

(* ------------------------------------------------------------------ *)
(** ** [str] methods *)

Module PyStr.

Definition code (c : ascii) : nat := nat_of_ascii c.

Definition between (lo hi : nat) (c : ascii) : bool :=
  (Nat.leb lo (code c) && Nat.leb (code c) hi)%bool.

(** [str.isspace] on ASCII: TAB..CR, FS..US and the blank. *)
Definition is_space (c : ascii) : bool :=
  (between 9 13 c || between 28 32 c)%bool.

(** The blanks [int] and [float] skip around an ASCII literal: TAB..CR and
    the blank, not FS..US. *)
Definition is_num_space (c : ascii) : bool :=
  (between 9 13 c || between 32 32 c)%bool.

Definition is_digit (c : ascii) : bool := between 48 57 c.
Definition is_upper (c : ascii) : bool := between 65 90 c.
Definition is_lower (c : ascii) : bool := between 97 122 c.

(** [\w] of [re] on ASCII. *)
Definition is_word (c : ascii) : bool :=
  (is_digit c || is_upper c || is_lower c || Ascii.eqb c "_")%bool.

Definition upper_char (c : ascii) : ascii :=
  if is_lower c then ascii_of_nat (code c - 32) else c.

Definition lower_char (c : ascii) : ascii :=
  if is_upper c then ascii_of_nat (code c + 32) else c.

Fixpoint map (f : ascii -> ascii) (s : string) : string :=
  match s with
  | EmptyString => EmptyString
  | String c s' => String (f c) (map f s')
  end.

Definition upper : string -> string := map upper_char.
Definition lower : string -> string := map lower_char.

Fixpoint rev_onto (s acc : string) : string :=
  match s with
  | EmptyString => acc
  | String c s' => rev_onto s' (String c acc)
  end.

Definition rev (s : string) : string := rev_onto s EmptyString.

Fixpoint lstrip_by (p : ascii -> bool) (s : string) : string :=
  match s with
  | String c s' => if p c then lstrip_by p s' else s
  | EmptyString => EmptyString
  end.

Definition rstrip_by (p : ascii -> bool) (s : string) : string :=
  rev (lstrip_by p (rev s)).

Definition strip_by (p : ascii -> bool) (s : string) : string :=
  rstrip_by p (lstrip_by p s).

(** [s.strip()]. *)
Definition strip : string -> string := strip_by is_space.

Definition startswith (s p : string) : bool := String.prefix p s.

Definition endswith (s p : string) : bool := String.prefix (rev p) (rev s).

Fixpoint drop (n : nat) (s : string) : string :=
  match n, s with
  | O, _ => s
  | S n', String _ s' => drop n' s'
  | S _, EmptyString => EmptyString
  end.

Fixpoint take (n : nat) (s : string) : string :=
  match n, s with
  | S n', String c s' => String c (take n' s')
  | _, _ => EmptyString
  end.

Fixpoint zeros (n : nat) : string :=
  match n with
  | O => EmptyString
  | S n' => String "0" (zeros n')
  end.

(** [sub in s]. *)
Fixpoint contains (s sub : string) : bool :=
  if String.prefix sub s then true
  else match s with
       | EmptyString => false
       | String _ s' => contains s' sub
       end.

(** [s.split(sep, 1)] when [sep] occurs in [s]: the text before and after
    the first occurrence; [None] when [sep] does not occur. *)
Fixpoint split_once (s sep : string) : option (string * string) :=
  if String.prefix sep s then Some (EmptyString, drop (String.length sep) s)
  else match s with
       | EmptyString => None
       | String c s' =>
           match split_once s' sep with
           | Some (l, r) => Some (String c l, r)
           | None => None
           end
       end.

(** [s.split(c)] for a one-character separator. *)
Fixpoint split_char (s : string) (sep : ascii) : list string :=
  match s with
  | EmptyString => [EmptyString]
  | String c s' =>
      if Ascii.eqb c sep then EmptyString :: split_char s' sep
      else match split_char s' sep with
           | w :: ws => String c w :: ws
           | [] => [String c EmptyString]
           end
  end.

(** [s.split()]: the maximal runs of non-blank characters. *)
Fixpoint split_ws_from (s : string) (cur : string) : list string :=
  let flush := match cur with EmptyString => [] | _ => [rev cur] end in
  match s with
  | EmptyString => flush
  | String c s' =>
      if is_space c then flush ++ split_ws_from s' EmptyString
      else split_ws_from s' (String c cur)
  end.

Definition split_ws (s : string) : list string := split_ws_from s EmptyString.

Definition dquote : ascii := ascii_of_nat 34.
Definition squote : ascii := ascii_of_nat 39.
Definition backslash : ascii := ascii_of_nat 92.
Definition newline : ascii := ascii_of_nat 10.

Definition quoted (s : string) : string :=
  String dquote (s ++ String dquote EmptyString).

(** [s[1:-1]]. *)
Definition slice_1_m1 (s : string) : string :=
  match s with
  | EmptyString => EmptyString
  | String _ s' => rev (drop 1 (rev s'))
  end.

End PyStr.

(* ------------------------------------------------------------------ *)
(** ** Exceptions *)

Inductive exn : Type :=
| ValueError (msg : string)
| TypeError (msg : string)
| OverflowError (msg : string).

Inductive res (A : Type) : Type :=
| Ok (a : A)
| Raise (e : exn).

Arguments Ok {A} a.
Arguments Raise {A} e.

Definition bind {A B : Type} (m : res A) (f : A -> res B) : res B :=
  match m with
  | Ok a => f a
  | Raise e => Raise e
  end.

Notation "x <- m ;; k" := (bind m (fun x => k))
  (at level 61, m at next level, right associativity).

(** [str(e)] of a caught exception. *)
Definition exn_msg (e : exn) : string :=
  match e with
  | ValueError m | TypeError m | OverflowError m => m
  end.

(* ------------------------------------------------------------------ *)
(** ** Python values and the builtins applied to them *)

Module PyVal.
Import PyStr.

Definition prec : Z := 53.
Definition emax : Z := 1024.

Inductive value : Type :=
| VNone
| VBool (b : bool)
| VInt (z : Z)
| VFloat (f : spec_float)
| VStr (s : string).

Definition type_name (v : value) : string :=
  match v with
  | VNone => "NoneType"
  | VBool _ => "bool"
  | VInt _ => "int"
  | VFloat _ => "float"
  | VStr _ => "str"
  end.

(** *** Literals: [int(s)] and [float(s)] on a string *)

Definition dval (c : ascii) : Z := Z.of_nat (code c - 48).

(** digit (["_"] digit)* up to the end of the text. *)
Fixpoint digits (s : string) (acc : Z) (after_digit : bool) : option Z :=
  match s with
  | EmptyString => if after_digit then Some acc else None
  | String c s' =>
      if is_digit c then digits s' (10 * acc + dval c) true
      else if (Ascii.eqb c "_" && after_digit)%bool then digits s' acc false
      else None
  end.

Definition split_sign (s : string) : bool * string :=
  match s with
  | String c s' =>
      if Ascii.eqb c "-" then (true, s')
      else if Ascii.eqb c "+" then (false, s')
      else (false, s)
  | EmptyString => (false, s)
  end.

Definition signed (neg : bool) (n : Z) : Z := if neg then - n else n.

(** [int(s)]; [None] stands for the [ValueError]. *)
Definition int_of_str (s : string) : option Z :=
  let (neg, body) := split_sign (strip_by is_num_space s) in
  option_map (signed neg) (digits body 0 false).

(** The longest digit (["_"] digit)* prefix: its value on top of [acc], the
    number of digits, and the rest. *)
Fixpoint digitpart (s : string) (acc : Z) (n : nat) : Z * nat * string :=
  match s with
  | String c s' =>
      if is_digit c then digitpart s' (10 * acc + dval c) (S n)
      else if (Ascii.eqb c "_" && negb (Nat.eqb n 0))%bool then
        match s' with
        | String d _ => if is_digit d then digitpart s' acc n else (acc, n, s)
        | EmptyString => (acc, n, s)
        end
      else (acc, n, s)
  | EmptyString => (acc, n, s)
  end.

(** The optional exponent that ends a float literal. *)
Definition exponent (s : string) : option Z :=
  match s with
  | EmptyString => Some 0
  | String c s' =>
      if (Ascii.eqb c "e" || Ascii.eqb c "E")%bool then
        let (neg, body) := split_sign s' in
        option_map (signed neg) (digits body 0 false)
      else None
  end.

(** A decimal literal as mantissa and power of ten. *)
Definition decimal_of_str (body : string) : option (Z * Z) :=
  let '(ip, ni, r1) := digitpart body 0 0 in
  match r1 with
  | String c r2 =>
      if Ascii.eqb c "." then
        let '(fp, nf, r3) := digitpart r2 ip 0 in
        if (Nat.eqb ni 0 && Nat.eqb nf 0)%bool then None
        else option_map (fun e => (fp, e - Z.of_nat nf)) (exponent r3)
      else if Nat.eqb ni 0 then None
      else option_map (fun e => (ip, e)) (exponent r1)
  | EmptyString => if Nat.eqb ni 0 then None else Some (ip, 0)
  end.

(** The binary64 number nearest to [m * 10^e10] (ties to even). *)
Definition float_of_decimal (neg : bool) (m e10 : Z) : spec_float :=
  match m with
  | Zpos p =>
      if 0 <=? e10 then
        binary_normalize prec emax (signed neg (m * 10 ^ e10)) 0 neg
      else
        let d := 10 ^ (- e10) in
        let s := Z.max 0 (64 + Z.log2 d - Z.log2 m) in
        let '(q, r) := Z.div_eucl (Z.shiftl m s) d in
        binary_round_aux prec emax neg q (- s) (new_location d r)
  | _ => S754_zero neg
  end.

(** [float(s)]; [None] stands for the [ValueError]. *)
Definition float_of_str (s : string) : option spec_float :=
  let (neg, body) := split_sign (strip_by is_num_space s) in
  let lb := lower body in
  if (String.eqb lb "inf" || String.eqb lb "infinity")%bool
  then Some (S754_infinity neg)
  else if String.eqb lb "nan" then Some S754_nan
  else option_map (fun '(m, e) => float_of_decimal neg m e)
                  (decimal_of_str body).

(** *** Conversions between numbers *)

(** [float(z)] for an [int]. *)
Definition float_of_Z (z : Z) : res spec_float :=
  match binary_normalize prec emax z 0 false with
  | S754_infinity _ => Raise (OverflowError "int too large to convert to float")
  | f => Ok f
  end.

(** [int(f)] for a [float]: truncation toward zero. *)
Definition int_of_float (f : spec_float) : res Z :=
  match f with
  | S754_zero _ => Ok 0
  | S754_finite s m e =>
      Ok (signed s (if 0 <=? e then Zpos m * 2 ^ e else Zpos m / 2 ^ (- e)))
  | S754_infinity _ =>
      Raise (OverflowError "cannot convert float infinity to integer")
  | S754_nan => Raise (ValueError "cannot convert float NaN to integer")
  end.

(** *** [str(v)] *)

Definition string_of_Z (z : Z) : string := NilZero.string_of_int (Z.to_int z).

Definition sf_eqb (a b : spec_float) : bool :=
  match a, b with
  | S754_nan, S754_nan => true
  | S754_zero s, S754_zero t => Bool.eqb s t
  | S754_infinity s, S754_infinity t => Bool.eqb s t
  | S754_finite s m e, S754_finite t n f =>
      (Bool.eqb s t && Pos.eqb m n && Z.eqb e f)%bool
  | _, _ => false
  end.

(** [x < 10^k] for [x = num / den]. *)
Definition below_pow10 (num den k : Z) : bool :=
  if 0 <=? k then num <? 10 ^ k * den else num * 10 ^ (- k) <? den.

Fixpoint find_decpt (fuel : nat) (k num den : Z) : Z :=
  match fuel with
  | O => k
  | S fuel' =>
      if below_pow10 num den k then k else find_decpt fuel' (k + 1) num den
  end.

(** The two [n]-digit decimals around [x = num / den], scaled by
    [10^(n - decpt)], and whether the lower one is the nearer. *)
Definition candidates (num den decpt n : Z) : Z * Z * bool :=
  let k := n - decpt in
  let '(N, D) := if 0 <=? k then (num * 10 ^ k, den)
                 else (num, den * 10 ^ (- k)) in
  let '(q, r) := Z.div_eucl N D in
  (q, if r =? 0 then q else q + 1,
   if 2 * r =? D then Z.even q else 2 * r <? D).

(** The shortest decimal that reads back as [f], nearest to [f] among the
    shortest ones: its digits as a number, and how many were asked for. *)
Fixpoint shortest (fuel : nat) (f : spec_float) (num den decpt n : Z)
  : Z * Z :=
  let '(lo, hi, lo_near) := candidates num den decpt n in
  match fuel with
  | O => (lo, n)
  | S fuel' =>
      let oklo := sf_eqb (float_of_decimal false lo (decpt - n)) f in
      let okhi := sf_eqb (float_of_decimal false hi (decpt - n)) f in
      if (oklo && (lo_near || negb okhi))%bool then (lo, n)
      else if okhi then (hi, n)
      else shortest fuel' f num den decpt (n + 1)
  end.

Definition rstrip_zeros (s : string) : string :=
  rstrip_by (fun c => Ascii.eqb c "0") s.

(** [repr] of a positive finite float from its digits [ds] and the position
    [dp] of the decimal point: plain notation for [-4 < dp <= 16], exponent
    notation otherwise. *)
Definition format_short (ds : string) (dp : Z) : string :=
  let n := Z.of_nat (String.length ds) in
  if ((-4 <? dp) && (dp <=? 16))%bool then
    if dp <=? 0 then "0." ++ zeros (Z.to_nat (- dp)) ++ ds
    else if n <=? dp then ds ++ zeros (Z.to_nat (dp - n)) ++ ".0"
    else take (Z.to_nat dp) ds ++ "." ++ drop (Z.to_nat dp) ds
  else
    let e := dp - 1 in
    let es := string_of_Z (Z.abs e) in
    take 1 ds ++
    (if n =? 1 then "" else "." ++ drop 1 ds) ++
    "e" ++ (if e <? 0 then "-" else "+") ++
    (if Z.abs e <? 10 then "0" else "") ++ es.

(** [repr(f)], which is also [str(f)]. *)
Definition float_repr (f : spec_float) : string :=
  match f with
  | S754_nan => "nan"
  | S754_infinity s => if s then "-inf" else "inf"
  | S754_zero s => if s then "-0.0" else "0.0"
  | S754_finite s m e =>
      let '(num, den) := if 0 <=? e then (Zpos m * 2 ^ e, 1)
                         else (Zpos m, 2 ^ (- e)) in
      let decpt := find_decpt 640 (-323) num den in
      let '(c, n) := shortest 17 (S754_finite false m e) num den decpt 1 in
      let cs := string_of_Z c in
      let dp := decpt + (Z.of_nat (String.length cs) - n) in
      (if s then "-" else "") ++ format_short (rstrip_zeros cs) dp
  end.

Definition hex_digit (n : nat) : ascii :=
  ascii_of_nat (if Nat.ltb n 10 then 48 + n else 87 + n).

(** [repr(s)] of an ASCII [str]: single quotes unless the text has a single
    quote and no double quote. *)
Definition repr_char (q c : ascii) : string :=
  if (Ascii.eqb c q || Ascii.eqb c backslash)%bool
  then String backslash (String c EmptyString)
  else if Ascii.eqb c newline then String backslash "n"
  else if Nat.eqb (code c) 13 then String backslash "r"
  else if Nat.eqb (code c) 9 then String backslash "t"
  else if (Nat.ltb (code c) 32 || Nat.leb 127 (code c))%bool
  then String backslash
         (String "x" (String (hex_digit (Nat.div (code c) 16))
                        (String (hex_digit (Nat.modulo (code c) 16))
                           EmptyString)))
  else String c EmptyString.

Fixpoint repr_body (q : ascii) (s : string) : string :=
  match s with
  | EmptyString => EmptyString
  | String c s' => repr_char q c ++ repr_body q s'
  end.

Definition has_char (c : ascii) (s : string) : bool :=
  contains s (String c EmptyString).

Definition repr_str (s : string) : string :=
  let q := if (has_char squote s && negb (has_char dquote s))%bool
           then dquote else squote in
  String q (repr_body q s ++ String q EmptyString).

Definition py_str (v : value) : string :=
  match v with
  | VNone => "None"
  | VBool b => if b then "True" else "False"
  | VInt z => string_of_Z z
  | VFloat f => float_repr f
  | VStr s => s
  end.

(** *** [int(v)], [float(v)] *)

Definition py_int (v : value) : res Z :=
  match v with
  | VNone => Raise (TypeError
      "int() argument must be a string, a bytes-like object or a real number, not 'NoneType'")
  | VBool b => Ok (Z.b2z b)
  | VInt z => Ok z
  | VFloat f => int_of_float f
  | VStr s =>
      match int_of_str s with
      | Some z => Ok z
      | None => Raise (ValueError
          ("invalid literal for int() with base 10: " ++ repr_str s))
      end
  end.

Definition py_float (v : value) : res spec_float :=
  match v with
  | VNone => Raise (TypeError
      "float() argument must be a string or a real number, not 'NoneType'")
  | VBool b => float_of_Z (Z.b2z b)
  | VInt z => float_of_Z z
  | VFloat f => Ok f
  | VStr s =>
      match float_of_str s with
      | Some f => Ok f
      | None => Raise (ValueError
          ("could not convert string to float: " ++ repr_str s))
      end
  end.

(** *** Comparison operators *)

Inductive num : Type :=
| NInt (z : Z)
| NFloat (f : spec_float).

(** [bool] is a subclass of [int]: [True] and [False] compare as 1 and 0. *)
Definition as_num (v : value) : option num :=
  match v with
  | VBool b => Some (NInt (Z.b2z b))
  | VInt z => Some (NInt z)
  | VFloat f => Some (NFloat f)
  | _ => None
  end.

(** A float against an integer, compared exactly; [None] for NaN. *)
Definition float_cmp_Z (f : spec_float) (z : Z) : option comparison :=
  match f with
  | S754_nan => None
  | S754_infinity s => Some (if s then Lt else Gt)
  | S754_zero _ => Some (0 ?= z)
  | S754_finite s m e =>
      let v := signed s (Zpos m) in
      Some (if 0 <=? e then v * 2 ^ e ?= z else v ?= z * 2 ^ (- e))
  end.

Definition num_cmp (a b : num) : option comparison :=
  match a, b with
  | NInt x, NInt y => Some (x ?= y)
  | NFloat f, NFloat g => SFcompare f g
  | NFloat f, NInt z => float_cmp_Z f z
  | NInt z, NFloat f => option_map CompOpp (float_cmp_Z f z)
  end.

(** [a == b]: never raises. *)
Definition py_eq (a b : value) : bool :=
  match as_num a, as_num b with
  | Some x, Some y =>
      match num_cmp x y with Some Eq => true | _ => false end
  | None, None =>
      match a, b with
      | VNone, VNone => true
      | VStr s, VStr t => String.eqb s t
      | _, _ => false
      end
  | _, _ => false
  end.

Definition py_ne (a b : value) : bool := negb (py_eq a b).

(** An ordering operator [op], true on the outcomes [test] accepts: defined
    between two numbers and between two strings, [TypeError] otherwise. *)
Definition py_order (op : string) (test : comparison -> bool) (a b : value)
  : res bool :=
  match as_num a, as_num b, a, b with
  | Some x, Some y, _, _ =>
      Ok (match num_cmp x y with Some c => test c | None => false end)
  | _, _, VStr s, VStr t => Ok (test (String.compare s t))
  | _, _, _, _ =>
      Raise (TypeError ("'" ++ op ++ "' not supported between instances of '"
                          ++ type_name a ++ "' and '" ++ type_name b ++ "'"))
  end.

Definition is_lt (c : comparison) : bool :=
  match c with Lt => true | _ => false end.
Definition is_gt (c : comparison) : bool :=
  match c with Gt => true | _ => false end.
Definition is_le (c : comparison) : bool := negb (is_gt c).
Definition is_ge (c : comparison) : bool := negb (is_lt c).

Definition py_lt : value -> value -> res bool := py_order "<" is_lt.
Definition py_gt : value -> value -> res bool := py_order ">" is_gt.
Definition py_le : value -> value -> res bool := py_order "<=" is_le.
Definition py_ge : value -> value -> res bool := py_order ">=" is_ge.

(** [max(vs, default=d)]: the first maximal element, [item > best] deciding
    each replacement. *)
Fixpoint max_from (best : value) (vs : list value) : res value :=
  match vs with
  | [] => Ok best
  | v :: vs' =>
      b <- py_gt v best ;;
      max_from (if b then v else best) vs'
  end.

Definition py_max (vs : list value) (default : value) : res value :=
  match vs with
  | [] => Ok default
  | v :: vs' => max_from v vs'
  end.

(** [v + 1]. *)
Definition py_add1 (v : value) : res value :=
  match v with
  | VBool b => Ok (VInt (Z.b2z b + 1))
  | VInt z => Ok (VInt (z + 1))
  | VFloat f => Ok (VFloat (SFadd prec emax f (S754_finite false 4503599627370496 (-52))))
  | VStr _ => Raise (TypeError ("can only concatenate str (not " ++ quoted "int"
                               ++ ") to str"))
  | VNone => Raise (TypeError "unsupported operand type(s) for +: 'NoneType' and 'int'")
  end.

End PyVal.

(* ------------------------------------------------------------------ *)
(** ** The fragment of [re] used by the statement patterns

    A backtracking matcher in continuation-passing style: alternatives are
    tried in the order [re] tries them (a greedy repetition the longest run
    first, a lazy one the shortest first), so the first success is the match
    [re.match] reports.  Literals are compared ignoring case, as under
    [re.IGNORECASE]. *)

Module Regex.
Import PyStr.

Inductive regex : Type :=
| Lit (s : string)                                 (* literal text *)
| Many (greedy : bool) (min : nat) (cls : ascii -> bool)
                                                   (* cls{min,} or cls{min,}? *)
| Group (n : nat) (r : regex)                      (* ( r ), group n *)
| Opt (r : regex)                                  (* (?: r )? *)
| Seq (r1 r2 : regex)
| Eos.                                             (* $ *)

Definition captures : Type := list (nat * string).

(** [match.group(n)]; [None] for a group that took no part in the match. *)
Fixpoint group (n : nat) (c : captures) : option string :=
  match c with
  | [] => None
  | (m, s) :: c' => if Nat.eqb m n then Some s else group n c'
  end.

Definition eq_ci (a b : ascii) : bool :=
  Ascii.eqb (lower_char a) (lower_char b).

Fixpoint lit_ci (p s : string) : option string :=
  match p, s with
  | EmptyString, _ => Some s
  | String a p', String b s' => if eq_ci a b then lit_ci p' s' else None
  | String _ _, EmptyString => None
  end.

Section Repetition.
Context {A : Type} (cls : ascii -> bool) (k : string -> option A).

Fixpoint many_greedy (min : nat) (s : string) : option A :=
  let stop := match min with O => k s | S _ => None end in
  match s with
  | String c s' =>
      if cls c then
        match many_greedy (Nat.pred min) s' with
        | Some r => Some r
        | None => stop
        end
      else stop
  | EmptyString => stop
  end.

Fixpoint many_lazy (min : nat) (s : string) : option A :=
  let more :=
    match s with
    | String c s' => if cls c then many_lazy (Nat.pred min) s' else None
    | EmptyString => None
    end in
  match min with
  | O => match k s with Some r => Some r | None => more end
  | S _ => more
  end.
End Repetition.

Fixpoint rmatch (r : regex) (s : string) (c : captures)
    (k : string -> captures -> option captures) : option captures :=
  match r with
  | Lit p =>
      match lit_ci p s with
      | Some s' => k s' c
      | None => None
      end
  | Many greedy min cls =>
      (if greedy then many_greedy else many_lazy) cls
        (fun s' => k s' c) min s
  | Group n r' =>
      rmatch r' s c
        (fun s' c' =>
           k s' ((n, take (String.length s - String.length s') s) :: c'))
  | Opt r' =>
      match rmatch r' s c k with
      | Some x => Some x
      | None => k s c
      end
  | Seq r1 r2 => rmatch r1 s c (fun s' c' => rmatch r2 s' c' k)
  | Eos =>
      if (String.eqb s "" || String.eqb s (String newline ""))%bool
      then k s c else None
  end.

(** [re.match(r, s, re.IGNORECASE)]: anchored at the start only. *)
Definition re_match (r : regex) (s : string) : option captures :=
  rmatch r s [] (fun _ c => Some c).

Definition is_any (c : ascii) : bool := negb (Ascii.eqb c newline).

Declare Scope regex_scope.
Delimit Scope regex_scope with re.
Infix "&" := Seq (at level 40, left associativity) : regex_scope.

Definition ws1 : regex := Many true 1 is_space.        (* \s+ *)
Definition ws0 : regex := Many true 0 is_space.        (* \s* *)
Definition word : regex := Many true 1 is_word.        (* \w+ *)
Definition any1 : regex := Many true 1 is_any.         (* .+  *)
Definition any1_lazy : regex := Many false 1 is_any.   (* .+? *)

End Regex.

(* ------------------------------------------------------------------ *)
(** ** Python dictionaries: unique keys, insertion order *)

Module PyDict.
Section Dict.
Context {V : Type}.

Definition dict : Type := list (string * V).

(** [d.get(k)] *)
Fixpoint get (d : dict) (k : string) : option V :=
  match d with
  | [] => None
  | (k', v) :: d' => if String.eqb k' k then Some v else get d' k
  end.

(** [k in d] *)
Definition mem (d : dict) (k : string) : bool :=
  match get d k with Some _ => true | None => false end.

(** [d[k] = v]: an existing key keeps its place, a new one goes last. *)
Fixpoint set (d : dict) (k : string) (v : V) : dict :=
  match d with
  | [] => [(k, v)]
  | (k', v') :: d' =>
      if String.eqb k' k then (k, v) :: d' else (k', v') :: set d' k v
  end.

(** [del d[k]] *)
Fixpoint del (d : dict) (k : string) : dict :=
  match d with
  | [] => []
  | (k', v') :: d' =>
      if String.eqb k' k then d' else (k', v') :: del d' k
  end.

Definition keys (d : dict) : list string := List.map fst d.

(** [d.update(u)], and [{**d, **u}] on a copy of [d]. *)
Definition update (d u : dict) : dict :=
  fold_left (fun acc kv => set acc (fst kv) (snd kv)) u d.
End Dict.
Arguments dict V : clear implicits.
End PyDict.

Import PyStr PyVal.
Definition dict : Type -> Type := PyDict.dict.

(** A stored row, a table schema (column name to type name), the metadata
    (table name to schema). *)
Definition row : Type := dict value.
Definition schema : Type := dict string.
Definition metadata : Type := dict schema.

(* ------------------------------------------------------------------ *)
(** ** constants.py *)

Definition DB_META_FILE : string := "db_meta.json".
Definition DATA_DIR : string := "data".
Definition ID_COLUMN : string := "id".
Definition ID_TYPE : string := "int".
Definition DEFAULT_COLUMNS : schema := [(ID_COLUMN, ID_TYPE)].
Definition SUPPORTED_TYPES : list string := ["int"; "str"; "float"; "bool"].

Definition msg_table_created : string := "Table created successfully".
Definition msg_table_dropped : string := "Table dropped successfully".
Definition msg_row_inserted : string := "Row inserted successfully".
Definition msg_rows_updated : string := " rows updated".
Definition msg_rows_deleted : string := " rows deleted".
Definition err_table_exists : string := "Table already exists".
Definition err_table_not_exists : string := "Table does not exist".
Definition err_invalid_type : string := "Invalid data type".
Definition err_invalid_syntax : string := "Invalid syntax".

Definition in_list (s : string) (l : list string) : bool :=
  existsb (String.eqb s) l.

(** [len(l)] *)
Definition len {A : Type} (l : list A) : Z := Z.of_nat (List.length l).

(** The loop both [validate_row_data] run over [zip(col_names, row_data)]:
    each value is cast to the type of its column and stored in the row under
    construction.  ([columns[col_name]] cannot fail, the names come from
    [columns].) *)
Fixpoint cast_columns (cast : value -> string -> res value) (columns : schema)
    (pairs : list (string * value)) (validated_row : row) : res row :=
  match pairs with
  | [] => Ok validated_row
  | (col_name, v) :: rest =>
      let expected_type :=
        match PyDict.get columns col_name with Some t => t | None => "" end in
      x <- cast v expected_type ;;
      cast_columns cast columns rest (PyDict.set validated_row col_name x)
  end.

(* ------------------------------------------------------------------ *)
(** ** parser.py *)

Module Parser.
Import Regex.
Local Open Scope regex_scope.

(** *** The [DataValidator] copy of parser.py (core.py imports the one of
    utils.py, see [Utils]) *)

Definition _cast_value (v : value) (expected_type : string) : res value :=
  if String.eqb expected_type "int" then
    match py_int v with
    | Ok z => Ok (VInt z)
    | Raise (ValueError _) | Raise (TypeError _) =>
        Raise (ValueError ("Value " ++ py_str v ++ " cannot be cast to int"))
    | Raise e => Raise e
    end
  else if String.eqb expected_type "float" then
    match py_float v with
    | Ok f => Ok (VFloat f)
    | Raise (ValueError _) | Raise (TypeError _) =>
        Raise (ValueError ("Value " ++ py_str v ++ " cannot be cast to float"))
    | Raise e => Raise e
    end
  else if String.eqb expected_type "bool" then
    let fail :=
      Raise (ValueError ("Value " ++ py_str v ++ " cannot be cast to bool")) in
    match v with
    | VBool b => Ok (VBool b)
    | VStr s =>
        if in_list (lower s) ["true"; "1"; "yes"; "t"] then Ok (VBool true)
        else if in_list (lower s) ["false"; "0"; "no"; "f"] then Ok (VBool false)
        else fail
    | VInt z => Ok (VBool (negb (z =? 0)))
    | _ => fail
    end
  else Ok (VStr (py_str v)).

Definition validate_row_data (columns : schema) (row_data : list value)
  : res row :=
  let data_columns :=
    filter (fun kv => negb (String.eqb (fst kv) "id")) columns in
  if negb (len row_data =? len data_columns) then
    Raise (ValueError ("Expected " ++ string_of_Z (len data_columns)
                         ++ " values, got " ++ string_of_Z (len row_data)))
  else
    let col_names := PyDict.keys data_columns in
    cast_columns _cast_value columns (combine col_names row_data) [].

(** *** The statement patterns *)

(** [CREATE\s+TABLE\s+(\w+)\s*\((.+)\)] *)
Definition create_pattern : regex :=
  Lit "CREATE" & ws1 & Lit "TABLE" & ws1 & Group 1 word & ws0 & Lit "("
  & Group 2 any1 & Lit ")".

(** [INSERT INTO (\w+) VALUES \((.+)\)] *)
Definition insert_pattern : regex :=
  Lit "INSERT INTO " & Group 1 word & Lit " VALUES (" & Group 2 any1 & Lit ")".

(** [SELECT (.+) FROM (\w+) WHERE (.+)] *)
Definition select_where_pattern : regex :=
  Lit "SELECT " & Group 1 any1 & Lit " FROM " & Group 2 word & Lit " WHERE "
  & Group 3 any1.

(** [SELECT (.+) FROM (\w+)] *)
Definition select_simple_pattern : regex :=
  Lit "SELECT " & Group 1 any1 & Lit " FROM " & Group 2 word.

(** [UPDATE\s+(\w+)\s+SET\s+(.+?)(?:\s+WHERE\s+(.+))?$] *)
Definition update_pattern : regex :=
  Lit "UPDATE" & ws1 & Group 1 word & ws1 & Lit "SET" & ws1
  & Group 2 any1_lazy & Opt (ws1 & Lit "WHERE" & ws1 & Group 3 any1) & Eos.

(** [DELETE FROM (\w+)(?: WHERE (.+))?] *)
Definition delete_pattern : regex :=
  Lit "DELETE FROM " & Group 1 word & Opt (Lit " WHERE " & Group 2 any1).

(** [DROP TABLE (\w+)] *)
Definition drop_pattern : regex := Lit "DROP TABLE " & Group 1 word.

(** [match.group(n)] of a group the pattern always fills. *)
Definition grp (n : nat) (c : captures) : string :=
  match group n c with Some s => s | None => "" end.

(** *** Literals *)

Record split_state : Type := {
  values : list string;
  current : string;
  in_quotes : bool;
  quote_char : option ascii;
  escape_char : bool
}.

Definition push (s : string) (c : ascii) : string := s ++ String c "".

Definition is_quote_char (q : option ascii) (c : ascii) : bool :=
  match q with Some q' => Ascii.eqb c q' | None => false end.

Definition split_step (st : split_state) (c : ascii) : split_state :=
  if escape_char st then
    {| values := values st; current := push (current st) c;
       in_quotes := in_quotes st; quote_char := quote_char st;
       escape_char := false |}
  else if Ascii.eqb c backslash then
    {| values := values st; current := current st;
       in_quotes := in_quotes st; quote_char := quote_char st;
       escape_char := true |}
  else if ((Ascii.eqb c dquote || Ascii.eqb c squote)
           && negb (in_quotes st))%bool then
    {| values := values st; current := push (current st) c;
       in_quotes := true; quote_char := Some c;
       escape_char := false |}
  else if (is_quote_char (quote_char st) c && in_quotes st)%bool then
    {| values := values st; current := push (current st) c;
       in_quotes := false; quote_char := None;
       escape_char := false |}
  else if (Ascii.eqb c "," && negb (in_quotes st))%bool then
    {| values := values st ++ [strip (current st)]; current := "";
       in_quotes := in_quotes st; quote_char := quote_char st;
       escape_char := false |}
  else
    {| values := values st; current := push (current st) c;
       in_quotes := in_quotes st; quote_char := quote_char st;
       escape_char := false |}.

Definition _split_values (values_str : string) : list string :=
  let st := fold_left split_step (list_ascii_of_string values_str)
              {| values := []; current := ""; in_quotes := false;
                 quote_char := None; escape_char := false |} in
  if String.eqb (strip (current st)) "" then values st
  else values st ++ [strip (current st)].

Definition q2 : string := String dquote "".
Definition q1 : string := String squote "".

Definition _parse_value (v : string) : value :=
  if ((startswith v q2 && endswith v q2)
      || (startswith v q1 && endswith v q1))%bool
  then VStr (slice_1_m1 v)
  else if String.eqb (lower v) "true" then VBool true
  else if String.eqb (lower v) "false" then VBool false
  else if (String.eqb (lower v) "null" || String.eqb (lower v) "none")%bool
  then VNone
  else match int_of_str v with
       | Some z => VInt z
       | None =>
           match float_of_str v with
           | Some f => VFloat f
           | None => VStr v
           end
       end.

(** *** WHERE conditions *)

Definition operators : list string := [">="; "<="; "!="; "="; ">"; "<"].

Definition apply_op (op : string) (left_val right_val : value) : res bool :=
  if String.eqb op "=" then Ok (py_eq left_val right_val)
  else if String.eqb op "!=" then Ok (py_ne left_val right_val)
  else if String.eqb op ">" then py_gt left_val right_val
  else if String.eqb op "<" then py_lt left_val right_val
  else if String.eqb op ">=" then py_ge left_val right_val
  else if String.eqb op "<=" then py_le left_val right_val
  else Ok true (* not reached: [operators] holds these six only *).

Fixpoint evaluate_with (ops : list string) (r : row) (condition : string)
  : res bool :=
  match ops with
  | [] => Ok true
  | op :: ops' =>
      if contains condition op then
        match split_once condition op with
        | Some (l, rt) =>
            let left_val :=
              match PyDict.get r (strip l) with
              | Some v => v
              | None => VNone
              end in
            let right_val := _parse_value (strip rt) in
            apply_op op left_val right_val
        | None => evaluate_with ops' r condition
        end
      else evaluate_with ops' r condition
  end.

Definition evaluate_condition (r : row) (condition : string) : res bool :=
  evaluate_with operators r condition.

(** *** Statements *)

Definition syntax_error {A : Type} : res A :=
  Raise (ValueError err_invalid_syntax).

(** The loop over [columns_str.split(",")]. *)
Fixpoint parse_columns (col_defs : list string) (columns : schema)
  : res schema :=
  match col_defs with
  | [] => Ok columns
  | col_def :: rest =>
      let col_def := strip col_def in
      if String.eqb col_def "" then parse_columns rest columns
      else
        let parts :=
          List.map strip
            (filter (fun part => negb (String.eqb (strip part) ""))
                    (split_ws col_def)) in
        match parts with
        | col_name :: type_tok :: _ =>
            let col_type := lower type_tok in
            if negb (in_list col_type SUPPORTED_TYPES) then
              Raise (ValueError (err_invalid_type ++ ": " ++ col_type))
            else parse_columns rest (PyDict.set columns col_name col_type)
        | _ => syntax_error
        end
  end.

Definition parse_create_table (command : string) : res (string * schema) :=
  match re_match create_pattern command with
  | None => syntax_error
  | Some m =>
      let table_name := grp 1 m in
      let columns_str := grp 2 m in
      columns <- parse_columns (split_char columns_str ",") [] ;;
      Ok (table_name, columns)
  end.

Definition parse_insert (command : string) : res (string * list value) :=
  match re_match insert_pattern command with
  | None => syntax_error
  | Some m =>
      let table_name := grp 1 m in
      let values_str := grp 2 m in
      Ok (table_name,
          List.map (fun v => _parse_value (strip v))
                   (_split_values values_str))
  end.

Definition parse_select_columns (columns_str : string) : list string :=
  if String.eqb (strip columns_str) "*" then ["*"]
  else List.map strip (split_char columns_str ",").

Definition parse_select (command : string)
  : res (string * list string * option string) :=
  match re_match select_where_pattern command with
  | Some m =>
      Ok (grp 2 m, parse_select_columns (grp 1 m), Some (grp 3 m))
  | None =>
      match re_match select_simple_pattern command with
      | None => syntax_error
      | Some m => Ok (grp 2 m, parse_select_columns (grp 1 m), None)
      end
  end.

(** The loop over the assignments of a SET clause. *)
Fixpoint parse_assignments (assignments : list string) (updates : dict value)
  : res (dict value) :=
  match assignments with
  | [] => Ok updates
  | assignment :: rest =>
      match split_once assignment "=" with
      | None => Raise (ValueError ("Invalid assignment: " ++ assignment))
      | Some (l, r) =>
          let col_name := strip l in
          let value_str := strip r in
          parse_assignments rest
            (PyDict.set updates col_name (_parse_value value_str))
      end
  end.

(** [x if x else None] for an optional group. *)
Definition truthy_str (o : option string) : option string :=
  match o with
  | Some s => if String.eqb s "" then None else Some s
  | None => None
  end.

Definition parse_update (command : string)
  : res (string * dict value * option string) :=
  match re_match update_pattern command with
  | None => syntax_error
  | Some m =>
      let table_name := grp 1 m in
      let set_clause := strip (grp 2 m) in
      let where_condition := option_map strip (truthy_str (group 3 m)) in
      updates <- parse_assignments
                   (List.map strip (split_char set_clause ",")) [] ;;
      Ok (table_name, updates, where_condition)
  end.

Definition parse_delete (command : string) : res (string * option string) :=
  match re_match delete_pattern command with
  | None => syntax_error
  | Some m => Ok (grp 1 m, truthy_str (group 2 m))
  end.

Definition parse_drop_table (command : string) : res string :=
  match re_match drop_pattern command with
  | None => syntax_error
  | Some m => Ok (grp 1 m)
  end.

End Parser.

(* ------------------------------------------------------------------ *)
(** ** What a command returns, and decorators.py *)

Inductive output : Type :=
| OStr (s : string)            (* a message *)
| ORows (rs : list row)        (* the rows of a SELECT *)
| ONames (l : list string).    (* the names of LIST TABLES *)

(** [handle_db_errors]: a [ValueError] becomes ["Error: ..."], any other
    exception ["Unexpected error: ..."].  (Its [FileNotFoundError] and
    [KeyError] clauses catch nothing the modelled calls raise, except inside
    [write_json], see [Utils.write_table_metadata].) *)
Definition handle_db_errors (r : res output) : output :=
  match r with
  | Ok o => o
  | Raise (ValueError m) => OStr ("Error: " ++ m)
  | Raise e => OStr ("Unexpected error: " ++ exn_msg e)
  end.

(** [confirm_action]: [answer] is the line the user types at the prompt. *)
Definition confirmed (answer : string) : bool := String.eqb (lower answer) "y".

Definition msg_cancelled : string := "Action cancelled".

(* ------------------------------------------------------------------ *)
(** ** utils.py *)

(** The files and the process: [meta_file] is the content of db_meta.json
    ([None] when the file is absent), [data_files] maps the path of a data
    file to the rows it holds, [meta_cache] is the memo of [cache_results]
    around [read_table_metadata] ([None] before the first call).  The memo
    holds one dict object, which [read_table_metadata] hands out at every
    later call: the engine's in-place changes of it are changes of the
    memo. *)
Record store : Type := {
  meta_file : option metadata;
  data_files : dict (list row);
  meta_cache : option metadata
}.

Definition empty_store : store :=
  {| meta_file := None; data_files := []; meta_cache := None |}.

Module Utils.

(** [os.path.join(a, b)] for a relative, slash-free [a]. *)
Definition path_join (a b : string) : string :=
  if startswith b "/" then b else a ++ "/" ++ b.

Definition is_slash (c : ascii) : bool := Ascii.eqb c "/".

(** [os.path.dirname] *)
Definition dirname (p : string) : string :=
  let head := rev (lstrip_by (fun c => negb (is_slash c)) (rev p)) in
  let trimmed := rstrip_by is_slash head in
  if String.eqb trimmed "" then head else trimmed.

(** [os.makedirs(d, exist_ok=True)] succeeds on every path but the empty
    one, where it raises [FileNotFoundError]. *)
Definition makedirs_ok (d : string) : bool := negb (String.eqb d "").

(** The path of a data file, as text; on the names for which the text
    identifies the file, see the modelling choices at the head. *)
Definition data_path (table_name : string) : string :=
  path_join DATA_DIR (table_name ++ ".json").

(** [read_table_metadata], memoised by [cache_results]. *)
Definition read_table_metadata (st : store) : metadata * store :=
  match meta_cache st with
  | Some m => (m, st)
  | None =>
      let m := match meta_file st with Some m => m | None => [] end in
      (m, {| meta_file := meta_file st; data_files := data_files st;
             meta_cache := Some m |})
  end.

(** An in-place change of the dict [read_table_metadata] returned. *)
Definition set_cached (m : metadata) (st : store) : store :=
  {| meta_file := meta_file st; data_files := data_files st;
     meta_cache := Some m |}.

(** [write_table_metadata]: [write_json] first creates the directory of the
    path with [os.makedirs(os.path.dirname(filepath), exist_ok=True)].  The
    directory of [DB_META_FILE] is the empty path, on which [os.makedirs]
    raises [FileNotFoundError]; [handle_db_errors] around [write_json]
    turns that into a returned message nobody reads, and the file is left
    as it was.  The metadata lives on in the memo alone. *)
Definition write_table_metadata (m : metadata) (st : store) : store :=
  if makedirs_ok (dirname DB_META_FILE) then
    {| meta_file := Some m; data_files := data_files st;
       meta_cache := meta_cache st |}
  else st.

Definition read_table_data (table_name : string) (st : store) : list row :=
  match PyDict.get (data_files st) (data_path table_name) with
  | Some rows => rows
  | None => []
  end.

Definition write_table_data (table_name : string) (data : list row)
    (st : store) : store :=
  if makedirs_ok (dirname (data_path table_name)) then
    {| meta_file := meta_file st;
       data_files := PyDict.set (data_files st) (data_path table_name) data;
       meta_cache := meta_cache st |}
  else st.

Definition table_exists (table_name : string) (st : store) : bool * store :=
  let (m, st') := read_table_metadata st in
  (PyDict.mem m table_name, st').

Definition delete_table_file (table_name : string) (st : store) : store :=
  {| meta_file := meta_file st;
     data_files := PyDict.del (data_files st) (data_path table_name);
     meta_cache := meta_cache st |}.

(** *** [DataValidator], the copy core.py imports *)

Definition _cast_value (v : value) (expected_type : string) : res value :=
  if String.eqb expected_type "int" then
    match py_int v with
    | Ok z => Ok (VInt z)
    | Raise (ValueError _) | Raise (TypeError _) =>
        Raise (ValueError ("Value " ++ py_str v ++ " cannot be cast to int"))
    | Raise e => Raise e
    end
  else if String.eqb expected_type "float" then
    match py_float v with
    | Ok f => Ok (VFloat f)
    | Raise (ValueError _) | Raise (TypeError _) =>
        Raise (ValueError ("Value " ++ py_str v ++ " cannot be cast to float"))
    | Raise e => Raise e
    end
  else if String.eqb expected_type "bool" then
    let fail :=
      Raise (ValueError ("Value " ++ py_str v ++ " cannot be cast to bool")) in
    match v with
    | VBool b => Ok (VBool b)
    | VStr s =>
        if in_list (lower s) ["true"; "1"; "yes"] then Ok (VBool true)
        else if in_list (lower s) ["false"; "0"; "no"] then Ok (VBool false)
        else fail
    | _ => fail
    end
  else Ok (VStr (py_str v)).

Definition validate_row_data (columns : schema) (row_data : list value)
  : res row :=
  if negb (len row_data =? len columns - 1) then
    Raise (ValueError ("Expected " ++ string_of_Z (len columns - 1)
                         ++ " values, got "
                         ++ string_of_Z (len row_data)))
  else
    let col_names :=
      filter (fun name => negb (String.eqb name "id")) (PyDict.keys columns) in
    cast_columns _cast_value columns (combine col_names row_data) [].

End Utils.

(* ------------------------------------------------------------------ *)
(** ** core.py *)

Module Core.
Import Utils.

Definition not_exists_msg : output := OStr ("Error: " ++ err_table_not_exists).

(** [if where_condition:] *)
Definition truthy (where_condition : option string) : bool :=
  match where_condition with
  | Some s => negb (String.eqb s "")
  | None => false
  end.

Definition the_condition (where_condition : option string) : string :=
  match where_condition with Some s => s | None => "" end.

(** [metadata[table_name]] once [table_exists] has answered yes. *)
Definition columns_of (m : metadata) (table_name : string) : schema :=
  match PyDict.get m table_name with Some c => c | None => [] end.

Definition create_table (table_name : string) (columns : schema) (st : store)
  : output * store :=
  let (ex, st) := table_exists table_name st in
  if ex then (OStr ("Error: " ++ err_table_exists), st)
  else
    let all_columns := PyDict.update DEFAULT_COLUMNS columns in
    let (metadata, st) := read_table_metadata st in
    let metadata := PyDict.set metadata table_name all_columns in
    let st := set_cached metadata st in
    let st := write_table_metadata metadata st in
    let st := write_table_data table_name [] st in
    (OStr msg_table_created, st).

Definition drop_table (table_name : string) (answer : string) (st : store)
  : output * store :=
  if negb (confirmed answer) then (OStr msg_cancelled, st)
  else
    let (ex, st) := table_exists table_name st in
    if negb ex then (not_exists_msg, st)
    else
      let (metadata, st) := read_table_metadata st in
      let metadata := PyDict.del metadata table_name in
      let st := set_cached metadata st in
      let st := write_table_metadata metadata st in
      let st := delete_table_file table_name st in
      (OStr msg_table_dropped, st).

Definition list_tables (st : store) : output * store :=
  let (metadata, st) := read_table_metadata st in
  (ONames (PyDict.keys metadata), st).

(** [row.get(ID_COLUMN, 0)] *)
Definition row_id (r : row) : value :=
  match PyDict.get r ID_COLUMN with Some v => v | None => VInt 0 end.

(** [max([row.get(ID_COLUMN, 0) for row in data], default=0) + 1] *)
Definition next_id (data : list row) : res value :=
  m <- py_max (List.map row_id data) (VInt 0) ;;
  py_add1 m.

Definition insert_row (table_name : string) (values : list value) (st : store)
  : output * store :=
  let (ex, st) := table_exists table_name st in
  if negb ex then (not_exists_msg, st)
  else
    let (metadata, st) := read_table_metadata st in
    let columns := columns_of metadata table_name in
    let data := read_table_data table_name st in
    match validate_row_data columns values with
    | Raise e => (handle_db_errors (Raise e), st)
    | Ok validated_data =>
        match next_id data with
        | Raise e => (handle_db_errors (Raise e), st)
        | Ok new_id =>
            let validated_data := PyDict.set validated_data ID_COLUMN new_id in
            let data := (data ++ [validated_data])%list in
            (OStr msg_row_inserted, write_table_data table_name data st)
        end
    end.

(** A list comprehension [[row for row in data if keep(row)]] whose test
    may raise. *)
Fixpoint filter_rows (keep : row -> res bool) (data : list row)
  : res (list row) :=
  match data with
  | [] => Ok []
  | r :: rest =>
      b <- keep r ;;
      kept <- filter_rows keep rest ;;
      Ok (if b then r :: kept else kept)
  end.

(** The projection of one row on the requested columns. *)
Definition project (columns : list string) (r : row) : row :=
  fold_left
    (fun result_row col =>
       match PyDict.get r col with
       | Some v => PyDict.set result_row col v
       | None => result_row
       end)
    columns [].

Definition is_star (columns : list string) : bool :=
  match columns with
  | [c] => String.eqb c "*"
  | _ => false
  end.

Definition select_rows (table_name : string) (columns : list string)
    (where_condition : option string) (st : store) : output * store :=
  let (ex, st) := table_exists table_name st in
  if negb ex then
    (handle_db_errors (Raise (ValueError err_table_not_exists)), st)
  else
    let data := read_table_data table_name st in
    let filtered :=
      if truthy where_condition then
        filter_rows
          (fun r => Parser.evaluate_condition r (the_condition where_condition))
          data
      else Ok data in
    match filtered with
    | Raise e => (handle_db_errors (Raise e), st)
    | Ok data =>
        if negb (is_star columns)
        then (ORows (List.map (project columns) data), st)
        else (ORows data, st)
    end.

(** The first loop of [update_rows]: [inl] is a message returned from inside
    the loop, [inr] the SET dict with every value cast. *)
Fixpoint coerce_updates (columns : schema) (items : list (string * value))
    (updates : dict value) : res (string + dict value) :=
  match items with
  | [] => Ok (inr updates)
  | (col_name, new_value) :: rest =>
      if negb (PyDict.mem columns col_name) then
        Ok (inl ("Error: Column " ++ col_name ++ " not found"))
      else
        let expected_type :=
          match PyDict.get columns col_name with Some t => t | None => "" end in
        match _cast_value new_value expected_type with
        | Ok v => coerce_updates columns rest (PyDict.set updates col_name v)
        | Raise (ValueError m) => Ok (inl ("Error: " ++ m))
        | Raise e => Raise e
        end
  end.

(** The second loop of [update_rows]: the rows after the pass and the
    number of rows updated. *)
Fixpoint apply_updates (where_condition : option string) (updates : dict value)
    (data : list row) : res (list row * Z) :=
  match data with
  | [] => Ok ([], 0)
  | r :: rest =>
      hit <- (if negb (truthy where_condition) then Ok true
              else Parser.evaluate_condition r (the_condition where_condition)) ;;
      tl <- apply_updates where_condition updates rest ;;
      Ok (if hit then (PyDict.update r updates :: fst tl, snd tl + 1)
          else (r :: fst tl, snd tl))
  end.

Definition update_rows (table_name : string) (updates : dict value)
    (where_condition : option string) (st : store) : output * store :=
  let (ex, st) := table_exists table_name st in
  if negb ex then (not_exists_msg, st)
  else
    let (metadata, st) := read_table_metadata st in
    let columns := columns_of metadata table_name in
    let data := read_table_data table_name st in
    match coerce_updates columns updates updates with
    | Raise e => (handle_db_errors (Raise e), st)
    | Ok (inl msg) => (OStr msg, st)
    | Ok (inr updates) =>
        match apply_updates where_condition updates data with
        | Raise e => (handle_db_errors (Raise e), st)
        | Ok (data, updated_count) =>
            (OStr (string_of_Z updated_count ++ msg_rows_updated),
             write_table_data table_name data st)
        end
    end.

Definition delete_rows (table_name : string) (where_condition : option string)
    (answer : string) (st : store) : output * store :=
  if negb (confirmed answer) then (OStr msg_cancelled, st)
  else
    let (ex, st) := table_exists table_name st in
    if negb ex then (not_exists_msg, st)
    else
      let data := read_table_data table_name st in
      let kept :=
        if truthy where_condition then
          filter_rows
            (fun r =>
               b <- Parser.evaluate_condition r (the_condition where_condition) ;;
               Ok (negb b))
            data
        else Ok [] in
      match kept with
      | Raise e => (handle_db_errors (Raise e), st)
      | Ok new_data =>
          let deleted_count := len data - len new_data in
          (OStr (string_of_Z deleted_count ++ msg_rows_deleted),
           write_table_data table_name new_data st)
      end.

End Core.

(* ------------------------------------------------------------------ *)
(** ** engine.py *)

Module Session.

(** The [try] of [execute_command]: an exception of a parser is reported
    as ["Error: ..."]. *)
Definition parsed {A : Type} (p : res A) (st : store)
    (k : A -> output * store) : output * store :=
  match p with
  | Ok a => k a
  | Raise e => (OStr ("Error: " ++ exn_msg e), st)
  end.

(** [execute_command]; [answer] is what the user replies if the command
    asks for confirmation. *)
Definition execute_command (command : string) (answer : string) (st : store)
  : output * store :=
  let command := upper (strip command) in
  if startswith command "CREATE TABLE" then
    parsed (Parser.parse_create_table command) st
      (fun '(table_name, columns) => Core.create_table table_name columns st)
  else if startswith command "DROP TABLE" then
    parsed (Parser.parse_drop_table command) st
      (fun table_name => Core.drop_table table_name answer st)
  else if String.eqb command "LIST TABLES" then
    match Core.list_tables st with
    | (ONames [], st') => (OStr "No tables exist", st')
    | r => r
    end
  else if startswith command "INSERT INTO" then
    parsed (Parser.parse_insert command) st
      (fun '(table_name, values) => Core.insert_row table_name values st)
  else if startswith command "SELECT" then
    parsed (Parser.parse_select command) st
      (fun '(table_name, columns, where_condition) =>
         Core.select_rows table_name columns where_condition st)
  else if startswith command "UPDATE" then
    parsed (Parser.parse_update command) st
      (fun '(table_name, updates, where_condition) =>
         Core.update_rows table_name updates where_condition st)
  else if startswith command "DELETE FROM" then
    parsed (Parser.parse_delete command) st
      (fun '(table_name, where_condition) =>
         Core.delete_rows table_name where_condition answer st)
  else (OStr "Error: Unknown command", st).

End Session.

(* ------------------------------------------------------------------ *)
(** ** Vocabulary of the statements *)

(** The metadata the process sees: what [read_table_metadata] returns. *)
Definition current_metadata (st : store) : metadata :=
  fst (Utils.read_table_metadata st).

(** Table [t] exists with schema [cols]. *)
Definition has_table (st : store) (t : string) (cols : schema) : Prop :=
  PyDict.get (current_metadata st) t = Some cols.

(** The rows stored for table [t]. *)
Definition rows_of (st : store) (t : string) : list row :=
  Utils.read_table_data t st.

(** Two stores with the same files and the same visible metadata. *)
Definition same_storage (st st' : store) : Prop :=
  meta_file st' = meta_file st /\
  data_files st' = data_files st /\
  current_metadata st' = current_metadata st.

(** An error report of the command boundary. *)
Definition is_error (o : output) : Prop :=
  exists m, o = OStr ("Error: " ++ m) \/ o = OStr ("Unexpected error: " ++ m).

(** The type a schema declares for a column ([str] for an unknown name, as
    in [cast_columns]). *)
Definition declared_type (cols : schema) (c : string) : string :=
  match PyDict.get cols c with Some t => t | None => "" end.

(** The names of the columns other than [id], in schema order. *)
Definition data_column_names (cols : schema) : list string :=
  filter (fun name => negb (String.eqb name "id")) (PyDict.keys cols).

(** [max(ids, default=0)] on integers. *)
Definition max_id (ids : list Z) : Z :=
  match ids with
  | [] => 0
  | i :: rest => fold_left Z.max rest i
  end.

(** The stores reached from the empty one by calls of the engine with any
    arguments: more than the sessions of [run_session] reach, and used for
    what holds after every session. *)
Inductive reachable : store -> Prop :=
| reach_empty : reachable empty_store
| reach_create t cols st :
    reachable st -> reachable (snd (Core.create_table t cols st))
| reach_drop t a st :
    reachable st -> reachable (snd (Core.drop_table t a st))
| reach_insert t vs st :
    reachable st -> reachable (snd (Core.insert_row t vs st))
| reach_select t cs w st :
    reachable st -> reachable (snd (Core.select_rows t cs w st))
| reach_update t us w st :
    reachable st -> reachable (snd (Core.update_rows t us w st))
| reach_delete t w a st :
    reachable st -> reachable (snd (Core.delete_rows t w a st)).

(** The three kinds of value the comparison operators tell apart. *)
Inductive kind : Type := KNone | KNum | KStr.

Definition kind_of (v : value) : kind :=
  match v with
  | VNone => KNone
  | VStr _ => KStr
  | _ => KNum
  end.

Definition kind_eqb (a b : kind) : bool :=
  match a, b with
  | KNone, KNone | KNum, KNum | KStr, KStr => true
  | _, _ => false
  end.

(** Operands of different kinds, such as a string and a number. *)
Definition mismatched (a b : value) : bool :=
  negb (kind_eqb (kind_of a) (kind_of b)).

(** The operator [evaluate_condition] settles on: the first of [operators]
    that occurs in the text. *)
Definition first_operator (condition : string) : option string :=
  find (contains condition) Parser.operators.

(** [row.get(name)] *)
Definition lookup (r : row) (name : string) : value :=
  match PyDict.get r name with Some v => v | None => VNone end.

(** Some SET value cannot be coerced: its column is not in the schema, or
    the cast to the declared type raises. *)
Definition coercion_fails (cols : schema) (updates : dict value) : Prop :=
  exists c v, In (c, v) updates /\
    (PyDict.mem cols c = false \/
     exists e, Utils._cast_value v (declared_type cols c) = Raise e).

(** A table with two columns and two rows, built by the engine. *)
Definition demo_store : store :=
  let st := snd (Core.create_table "t" [("name", "str"); ("ok", "bool")]
                   empty_store) in
  let st := snd (Core.insert_row "t" [VStr "a"; VStr "yes"] st) in
  snd (Core.insert_row "t" [VInt 5; VBool false] st).

(** The statement of the help text, with its double quotes. *)
Definition insert_john : string :=
  "INSERT INTO users VALUES (" ++ quoted "John" ++ ")".

(** The store after [CREATE TABLE users (name str)] on the empty store. *)
Definition users_store : store :=
  snd (Session.execute_command "CREATE TABLE users (name str)" "" empty_store).

(** One table, one row, both made through [execute_command]. *)
Definition one_row_store : store :=
  let st := snd (Session.execute_command "CREATE TABLE t (name str)" ""
                   empty_store) in
  snd (Session.execute_command "INSERT INTO t VALUES ('a')" "" st).

(** [z] is [f] truncated toward zero: [|z| <= |f| < |z| + 1], with the sign
    of [f]. *)
Definition truncation_of (f : spec_float) (z : Z) : Prop :=
  match f with
  | S754_zero _ => z = 0
  | S754_finite s m e =>
      z = signed s (Z.abs z) /\
      Z.abs z * 2 ^ Z.max 0 (- e) <= Zpos m * 2 ^ Z.max 0 e
        < (Z.abs z + 1) * 2 ^ Z.max 0 (- e)
  | _ => False
  end.

(** The store after [CREATE TABLE t (n int)] on the empty store. *)
Definition int_store : store :=
  snd (Session.execute_command "CREATE TABLE t (n int)" "" empty_store).

(** [vs] has one value per column of [names], and [xs] holds the value of
    each cast to the declared type of its column. *)
Inductive coerces (cols : schema)
  : list string -> list value -> list value -> Prop :=
| coerces_nil : coerces cols [] [] []
| coerces_cons c names v vs x xs :
    Utils._cast_value v (declared_type cols c) = Ok x ->
    coerces cols names vs xs ->
    coerces cols (c :: names) (v :: vs) (x :: xs).

(** The row INSERT stores for the coerced values [xs] under identity [n]. *)
Definition stored_row (cols : schema) (xs : list value) (n : Z) : row :=
  (combine (data_column_names cols) xs ++ [(ID_COLUMN, VInt n)])%list.

(** The rows stored by successive INSERTs, the identities counting on from
    [m]. *)
Fixpoint stored_rows (cols : schema) (m : Z) (xss : list (list value))
  : list row :=
  match xss with
  | [] => []
  | xs :: rest => stored_row cols xs (m + 1) :: stored_rows cols (m + 1) rest
  end.

(** A run of [insert_row] calls on one table. *)
Fixpoint insert_all (t : string) (vss : list (list value)) (st : store)
  : list output * store :=
  match vss with
  | [] => ([], st)
  | vs :: rest =>
      let (o, st1) := Core.insert_row t vs st in
      let (os, st2) := insert_all t rest st1 in
      (o :: os, st2)
  end.

(** A fresh table with a [str] and a [bool] column. *)
Definition fresh_store : store :=
  snd (Core.create_table "t" [("name", "str"); ("ok", "bool")] empty_store).

(** The value of a decimal numeral read after the digits worth [acc]. *)
Fixpoint uint_value (d : Decimal.uint) (acc : Z) : Z :=
  match d with
  | Decimal.Nil => acc
  | Decimal.D0 d => uint_value d (10 * acc + 0)
  | Decimal.D1 d => uint_value d (10 * acc + 1)
  | Decimal.D2 d => uint_value d (10 * acc + 2)
  | Decimal.D3 d => uint_value d (10 * acc + 3)
  | Decimal.D4 d => uint_value d (10 * acc + 4)
  | Decimal.D5 d => uint_value d (10 * acc + 5)
  | Decimal.D6 d => uint_value d (10 * acc + 6)
  | Decimal.D7 d => uint_value d (10 * acc + 7)
  | Decimal.D8 d => uint_value d (10 * acc + 8)
  | Decimal.D9 d => uint_value d (10 * acc + 9)
  end.

Definition all_chars (p : ascii -> bool) (s : string) : bool :=
  forallb p (list_ascii_of_string s).

(** The characters of a printed integer. *)
Definition is_num_char (c : ascii) : bool :=
  (is_digit c || Ascii.eqb c "-")%bool.

(** Row [r] has the integer identity [i]. *)
Definition id_is (r : row) (i : Z) : Prop :=
  PyDict.get r "id" = Some (VInt i).

(** A schema as [create_table] builds them: distinct column names, among
    them [id]. *)
Definition wf_schema (cols : schema) : Prop :=
  NoDup (PyDict.keys cols) /\ PyDict.mem cols "id" = true.

Definition schemas_wf (st : store) : Prop :=
  Forall (fun kv => wf_schema (snd kv)) (current_metadata st).

(** Table names are distinct, and so are the paths of the data files. *)
Definition store_wf (st : store) : Prop :=
  NoDup (PyDict.keys (current_metadata st)) /\
  NoDup (PyDict.keys (data_files st)).

(** The process starts again: the files stay, the memo of
    [read_table_metadata] is gone. *)
Definition restart (st : store) : store :=
  {| meta_file := meta_file st; data_files := data_files st;
     meta_cache := None |}.

(** Every table other than [t] has the rows and the schema it had. *)
Definition unchanged_elsewhere (t : string) (st st' : store) : Prop :=
  forall t', t' <> t ->
    rows_of st' t' = rows_of st t' /\
    PyDict.get (current_metadata st') t' = PyDict.get (current_metadata st) t'.

(** The test of the scans: no condition matches every row. *)
Definition row_matches (w : option string) (r : row) : res bool :=
  if negb (Core.truthy w) then Ok true
  else Parser.evaluate_condition r (Core.the_condition w).

(** [u] holds, column by column, the SET values of [us] cast to the
    declared types. *)
Definition set_casts (cols : schema) (us u : dict value) : Prop :=
  Forall2 (fun (cv cx : string * value) =>
             fst cx = fst cv /\
             PyDict.mem cols (fst cv) = true /\
             Utils._cast_value (snd cv) (declared_type cols (fst cv))
             = Ok (snd cx)) us u.

(** The rows after an UPDATE that hits the rows marked in [bs]. *)
Definition updated_rows (u : dict value) (data : list row) (bs : list bool)
  : list row :=
  List.map (fun rb : row * bool => if snd rb then PyDict.update (fst rb) u else fst rb)
           (combine data bs).

(** The number of rows marked. *)
Definition count_true (bs : list bool) : Z := len (filter (fun b => b) bs).

(** The rows whose mark satisfies [keep], in order. *)
Definition rows_where (keep : bool -> bool) (data : list row) (bs : list bool)
  : list row :=
  List.map fst (filter (fun rb : row * bool => keep (snd rb)) (combine data bs)).

(** No condition, an empty one, or one without an operator. *)
Definition matches_every_row (w : option string) : Prop :=
  Core.truthy w = false \/ first_operator (Core.the_condition w) = None.

(** The two quote characters of [_split_values]. *)
Definition is_quote (q : ascii) : bool :=
  (Ascii.eqb q dquote || Ascii.eqb q squote)%bool.

(** [s] between two quote characters [q]. *)
Definition enquote (q : ascii) (s : string) : string :=
  String q (s ++ String q "").

(** A literal of a VALUES list as it is written: bare, or in quotes. *)
Inductive literal : Type :=
| Plain (x : string)
| Quoted (q : ascii) (s : string).

(** The text of a literal. *)
Definition render (l : literal) : string :=
  match l with
  | Plain x => x
  | Quoted q s => enquote q s
  end.

(** A character a bare literal may hold. *)
Definition is_plain_char (c : ascii) : bool :=
  negb (Ascii.eqb c "," || Ascii.eqb c dquote || Ascii.eqb c squote
        || Ascii.eqb c backslash).

(** A bare literal holds no comma, quote or backslash; a quoted one
    neither its own quote character nor a backslash. *)
Definition literal_ok (l : literal) : bool :=
  match l with
  | Plain x => all_chars is_plain_char x
  | Quoted q s =>
      (is_quote q
       && all_chars (fun c => negb (Ascii.eqb c q || Ascii.eqb c backslash)) s)%bool
  end.

(** [",".join(ls)] *)
Fixpoint join_commas (ls : list string) : string :=
  match ls with
  | [] => ""
  | [x] => x
  | x :: rest => x ++ "," ++ join_commas rest
  end.

(** The values [_split_values] gives for the texts [ls]: each stripped,
    the last one dropped when blank. *)
Definition split_expected (ls : list string) : list string :=
  match ls with
  | [] => []
  | _ =>
      (List.map strip (removelast ls)
       ++ (if String.eqb (strip (last ls "")) "" then []
           else [strip (last ls "")]))%list
  end.

(** The loop of [_split_values] over the text [x], from the state [st]. *)
Definition run_split (st : Parser.split_state) (x : string)
  : Parser.split_state :=
  fold_left Parser.split_step (list_ascii_of_string x) st.

(** The state of the loop outside quotes. *)
Definition idle (vals : list string) (cur : string) : Parser.split_state :=
  {| Parser.values := vals; Parser.current := cur; Parser.in_quotes := false;
     Parser.quote_char := None; Parser.escape_char := false |}.

(** The state of the loop inside quotes opened by [q]. *)
Definition inside (vals : list string) (cur : string) (q : ascii)
  : Parser.split_state :=
  {| Parser.values := vals; Parser.current := cur; Parser.in_quotes := true;
     Parser.quote_char := Some q; Parser.escape_char := false |}.

(** [rest] cannot extend a run of the class [cls]. *)
Definition stops (cls : ascii -> bool) (rest : string) : bool :=
  match rest with
  | EmptyString => true
  | String c _ => negb (cls c)
  end.

(** A name the patterns read with [\w+]. *)
Definition word_name (t : string) : bool :=
  (all_chars is_word t && negb (String.eqb t ""))%bool.

(** Text the patterns read with [.+]: not empty, no line break. *)
Definition one_line (s : string) : bool :=
  (all_chars Regex.is_any s && negb (String.eqb s ""))%bool.

(** [s] begins with the keyword [p], in any case. *)
Definition begins_ci (p s : string) : bool :=
  match Regex.lit_ci p s with Some _ => true | None => false end.

(** Text after the closing parenthesis of a statement. *)
Definition no_paren (s : string) : bool :=
  all_chars (fun c => negb (Ascii.eqb c ")")) s.

(** Replaces the run of the matcher in the goal by its result [R]. *)
Ltac settle R :=
  unfold Regex.word, Regex.any1, Regex.any1_lazy, Regex.ws1, Regex.ws0;
  cbn [Regex.rmatch];
  match type of R with
  | _ = ?v =>
      match goal with
      | |- context [@Regex.many_greedy ?T ?a ?b ?c ?d] =>
          replace (@Regex.many_greedy T a b c d) with v
            by (symmetry; exact R)
      end
  end.

(** A character of one of the comparison operators. *)
Definition is_op_char (c : ascii) : bool :=
  (Ascii.eqb c ">" || Ascii.eqb c "<" || Ascii.eqb c "!"
   || Ascii.eqb c "=")%bool.

(** A text without operator characters. *)
Definition operator_free (s : string) : bool :=
  all_chars (fun c => negb (is_op_char c)) s.

(** A run of blanks, possibly empty. *)
Definition blank (s : string) : bool := all_chars is_space s.

(** A text without [=]. *)
Definition no_equals (s : string) : bool :=
  all_chars (fun c => negb (Ascii.eqb c "=")) s.

(** The text [name=value] of an assignment of a SET clause. *)
Definition assignment_text (a : string * string) : string :=
  fst a ++ "=" ++ snd a.

(** What one assignment adds to the updates. *)
Definition assign (u : dict value) (a : string * string) : dict value :=
  PyDict.set u (strip (fst a)) (Parser._parse_value (strip (snd a))).

(** A session: the commands typed, each with the answer given at its
    prompt, run from the store [st]. *)
Definition run_session (cmds : list (string * string)) (st : store) : store :=
  fold_left
    (fun st ca => snd (Session.execute_command (fst ca) (snd ca) st))
    cmds st.

(** The keyword [p] stands somewhere in [s], in any case. *)
Fixpoint occurs_ci (p s : string) : bool :=
  if begins_ci p s then true
  else match s with
       | EmptyString => false
       | String _ s' => occurs_ci p s'
       end.

(** A run of non-blank characters. *)
Definition token (s : string) : bool :=
  (all_chars (fun c => negb (is_space c)) s && negb (String.eqb s ""))%bool.

(** A column definition as it is written: blanks, the name, blanks, the
    type, blanks. *)
Record column_def : Type := {
  cd_lead : string;
  cd_name : string;
  cd_gap : string;
  cd_type : string;
  cd_trail : string
}.

(** The text of a column definition. *)
Definition column_text (d : column_def) : string :=
  cd_lead d ++ cd_name d ++ cd_gap d ++ cd_type d ++ cd_trail d.

(** The parts of a definition are what their names say. *)
Definition column_shape (d : column_def) : bool :=
  (blank (cd_lead d) && token (cd_name d)
   && blank (cd_gap d) && negb (String.eqb (cd_gap d) "")
   && token (cd_type d) && blank (cd_trail d))%bool.

(** A definition with a supported type, in any case. *)
Definition column_ok (d : column_def) : bool :=
  (column_shape d && in_list (lower (cd_type d)) SUPPORTED_TYPES)%bool.

(** What one definition adds to the schema. *)
Definition declare (columns : schema) (d : column_def) : schema :=
  PyDict.set columns (cd_name d) (lower (cd_type d)).

(** A text without a comma. *)
Definition no_comma (s : string) : bool :=
  all_chars (fun c => negb (Ascii.eqb c ",")) s.

(** The SET clause as [parse_update] reads it: on one line, with no blank
    at either end, and without the word WHERE. *)
Definition set_clause_ok (sets : string) : bool :=
  (one_line sets && stops is_space sets && stops is_space (rev sets)
   && negb (occurs_ci "WHERE" sets))%bool.

(** What [parse_update] returns once the pattern has matched. *)
Definition update_parts (t sets : string) (w : option string)
  : res (string * dict value * option string) :=
  updates <- Parser.parse_assignments
               (List.map strip (split_char (strip sets) ",")) [] ;;
  Ok (t, updates, w).
(** The rest of the UPDATE pattern after the SET clause. *)
Definition update_rest (s : string) (c : Regex.captures)
  : option Regex.captures :=
  Regex.rmatch
    (Regex.Opt (Regex.Seq (Regex.Seq (Regex.Seq Regex.ws1 (Regex.Lit "WHERE"))
                                     Regex.ws1)
                          (Regex.Group 3 Regex.any1)))
    s c
    (fun s' c' => Regex.rmatch Regex.Eos s' c' (fun _ c'' => Some c'')).

(** The schema of the table of [demo_store]. *)
Definition demo_schema : schema :=
  [("id", "int"); ("name", "str"); ("ok", "bool")].

(** [demo_store] with a second table. *)
Definition two_tables_store : store :=
  snd (Core.create_table "u" [("n", "int")] demo_store).

(** A float that is a number: neither [nan] nor an infinity. *)
Definition is_number (f : spec_float) : bool :=
  match f with
  | S754_zero _ | S754_finite _ _ _ => true
  | _ => false
  end.






(** A CREATE TABLE statement as it is typed. *)
Definition create_users : string := "CREATE TABLE users (name str, age int)".

(** The path names a directory. *)
Definition has_slash (s : string) : bool :=
  existsb Utils.is_slash (list_ascii_of_string s).

(** The float the literal [3.9] denotes. *)
Definition f3_9 : spec_float := S754_finite false 8782019273372467 (-51).

(* ------------------------------------------------------------------ *)
(** ** Properties *)

(** *** The store *)

Lemma read_table_metadata_same st :
  same_storage st (snd (Utils.read_table_metadata st)).
Proof.
  unfold same_storage, current_metadata, Utils.read_table_metadata.
  destruct (meta_cache st) eqn:E; cbn; rewrite ?E; auto.
Qed.

Lemma same_storage_refl st : same_storage st st.
Proof. repeat split. Qed.

Lemma same_storage_trans a b c :
  same_storage a b -> same_storage b c -> same_storage a c.
Proof.
  intros (H1 & H2 & H3) (H4 & H5 & H6).
  repeat split; congruence.
Qed.

Lemma table_exists_same t st :
  same_storage st (snd (Utils.table_exists t st)).
Proof.
  unfold Utils.table_exists.
  pose proof (read_table_metadata_same st) as H.
  destruct (Utils.read_table_metadata st); exact H.
Qed.

Lemma table_exists_mem t st :
  fst (Utils.table_exists t st) = PyDict.mem (current_metadata st) t.
Proof.
  unfold Utils.table_exists, current_metadata.
  destruct (Utils.read_table_metadata st); reflexivity.
Qed.

Lemma same_storage_rows st st' t :
  same_storage st st' -> rows_of st' t = rows_of st t.
Proof.
  intros (_ & H & _). unfold rows_of, Utils.read_table_data. now rewrite H.
Qed.

Lemma select_rows_same t columns where_condition st :
  same_storage st (snd (Core.select_rows t columns where_condition st)).
Proof.
  unfold Core.select_rows.
  pose proof (table_exists_same t st) as H.
  destruct (Utils.table_exists t st) as [ex st1]; cbn [snd] in H.
  destruct ex; cbn [negb]; [|exact H].
  destruct (if Core.truthy where_condition then _ else _); cbn.
  - destruct (negb (Core.is_star columns)); exact H.
  - exact H.
Qed.

(** C10. [select_rows] writes nothing: whatever the table name, the column
    list and the condition, the metadata file, every data file and the
    metadata the process sees are the same after the call as before, be the
    outcome a list of rows or a report; on a table that does not exist the
    report is "Error: Table does not exist". *)
Theorem select_rows_no_write t columns where_condition st :
  same_storage st (snd (Core.select_rows t columns where_condition st)) /\
  (forall t', rows_of (snd (Core.select_rows t columns where_condition st)) t'
              = rows_of st t') /\
  (fst (Utils.table_exists t st) = false ->
   fst (Core.select_rows t columns where_condition st)
   = OStr "Error: Table does not exist").
Proof.
  split; [apply select_rows_same|split].
  - intros t'. apply same_storage_rows, select_rows_same.
  - unfold Core.select_rows.
    destruct (Utils.table_exists t st) as [ex st1]; cbn [fst].
    intros ->. reflexivity.
Qed.

(** *** UPDATE *)

Lemma coerce_updates_inr cols items acc u :
  Core.coerce_updates cols items acc = Ok (inr u) ->
  forall c v, In (c, v) items ->
    PyDict.mem cols c = true /\
    exists x, Utils._cast_value v (declared_type cols c) = Ok x.
Proof.
  revert acc. induction items as [|[c0 v0] items IH]; intros acc H c v HIn.
  - destruct HIn.
  - cbn [Core.coerce_updates] in H.
    destruct (PyDict.mem cols c0) eqn:M; cbn [negb] in H; [|discriminate].
    fold (declared_type cols c0) in H.
    destruct (Utils._cast_value v0 (declared_type cols c0)) as [x|e] eqn:C.
    + destruct HIn as [E|HIn].
      * inversion E; subst. split; [exact M|now exists x].
      * eapply IH; eauto.
    + destruct e; discriminate.
Qed.

Lemma coerce_updates_inl cols items acc msg :
  Core.coerce_updates cols items acc = Ok (inl msg) ->
  exists m, msg = "Error: " ++ m.
Proof.
  revert acc. induction items as [|[c0 v0] items IH]; intros acc H.
  - discriminate.
  - cbn [Core.coerce_updates] in H.
    destruct (PyDict.mem cols c0); cbn [negb] in H.
    + destruct (Utils._cast_value v0 _) as [x|[m|m|m]].
      * eapply IH; eauto.
      * inversion H. now exists m.
      * discriminate.
      * discriminate.
    + inversion H. now exists ("Column " ++ c0 ++ " not found").
Qed.

Lemma coerce_updates_raise cols items acc e :
  Core.coerce_updates cols items acc = Raise e ->
  is_error (handle_db_errors (Raise e)).
Proof.
  revert acc. induction items as [|[c0 v0] items IH]; intros acc H.
  - discriminate.
  - cbn [Core.coerce_updates] in H.
    destruct (PyDict.mem cols c0); cbn [negb] in H; [|discriminate].
    destruct (Utils._cast_value v0 _) as [x|[m|m|m]].
    + eapply IH; eauto.
    + discriminate.
    + inversion H. exists m. now right.
    + inversion H. exists m. now right.
Qed.

(** C2. When the coercion of some SET value fails, because its column is
    not in the schema or because the cast to the declared type raises,
    [update_rows] returns an error report and applies nothing: the files and
    the metadata are those of before the call, so every table holds the rows
    it held, with all the changes earlier statements made to them (there is
    no rollback, and the failed update changed no row that would need
    one). *)
Theorem update_rows_coercion_failure t updates where_condition st :
  coercion_fails (Core.columns_of (current_metadata st) t) updates ->
  is_error (fst (Core.update_rows t updates where_condition st)) /\
  same_storage st (snd (Core.update_rows t updates where_condition st)) /\
  (forall t', rows_of (snd (Core.update_rows t updates where_condition st)) t'
              = rows_of st t').
Proof.
  intros (c & v & HIn & Hbad).
  assert (G : is_error (fst (Core.update_rows t updates where_condition st)) /\
              same_storage st
                (snd (Core.update_rows t updates where_condition st))).
  { unfold Core.update_rows.
    pose proof (table_exists_same t st) as H1.
    destruct (Utils.table_exists t st) as [ex st1]; cbn [snd] in H1.
    destruct ex; cbn [negb].
    2:{ split; [|exact H1]. exists err_table_not_exists. now left. }
    pose proof (read_table_metadata_same st1) as H2.
    assert (HM : fst (Utils.read_table_metadata st1) = current_metadata st).
    { destruct H1 as (_ & _ & H1). exact H1. }
    destruct (Utils.read_table_metadata st1) as [m st2]; cbn [fst snd] in *.
    subst m.
    pose proof (same_storage_trans _ _ _ H1 H2) as H3.
    destruct (Core.coerce_updates _ updates updates) as [[msg|u]|e] eqn:C.
    - split; [|exact H3].
      destruct (coerce_updates_inl _ _ _ _ C) as [m ->]. exists m. now left.
    - exfalso.
      destruct (coerce_updates_inr _ _ _ _ C c v HIn) as (M & x & Hx).
      destruct Hbad as [Hbad|[e Hbad]]; congruence.
    - split; [|exact H3]. eapply coerce_updates_raise; eauto. }
  destruct G as [G1 G2].
  split; [exact G1|split; [exact G2|]].
  intros t'. now apply same_storage_rows.
Qed.

Lemma update_rows_coercion_failure_witness :
  is_error (fst (Core.update_rows "t" [("name", VInt 1); ("ok", VStr "maybe")]
                   None demo_store)) /\
  rows_of (snd (Core.update_rows "t" [("name", VInt 1); ("ok", VStr "maybe")]
                  None demo_store)) "t"
  = rows_of demo_store "t".
Proof.
  destruct (update_rows_coercion_failure "t"
              [("name", VInt 1); ("ok", VStr "maybe")] None demo_store)
    as (H1 & _ & H3).
  - exists "ok", (VStr "maybe"). split.
    + cbn. right. left. reflexivity.
    + right. eexists. vm_compute. reflexivity.
  - split; [exact H1|apply H3].
Defined.

(** *** Dictionaries and data files *)

Lemma get_set_same {V : Type} (d : dict V) k v :
  PyDict.get (PyDict.set d k v) k = Some v.
Proof.
  induction d as [|[k' v'] d IH]; cbn.
  - now rewrite String.eqb_refl.
  - destruct (String.eqb k' k) eqn:E; cbn.
    + now rewrite String.eqb_refl.
    + now rewrite E.
Qed.

Lemma get_set_other {V : Type} (d : dict V) k k' v :
  k <> k' -> PyDict.get (PyDict.set d k v) k' = PyDict.get d k'.
Proof.
  intros N. induction d as [|[k0 v0] d IH]; cbn.
  - apply String.eqb_neq in N. now rewrite N.
  - destruct (String.eqb k0 k) eqn:E; cbn.
    + apply String.eqb_eq in E. subst k0.
      apply String.eqb_neq in N. now rewrite N.
    + destruct (String.eqb k0 k'); [reflexivity|exact IH].
Qed.

Lemma has_slash_rev_onto s acc :
  has_slash (rev_onto s acc) = (has_slash s || has_slash acc)%bool.
Proof.
  revert acc. induction s as [|c s IH]; intros acc.
  - reflexivity.
  - change (rev_onto (String c s) acc) with (rev_onto s (String c acc)).
    rewrite IH. unfold has_slash. cbn.
    destruct (Utils.is_slash c); cbn; [apply orb_true_r|reflexivity].
Qed.

Lemma lstrip_no_slash_empty s :
  lstrip_by (fun c => negb (Utils.is_slash c)) s = "" -> has_slash s = false.
Proof.
  induction s as [|c s IH]; cbn; [reflexivity|].
  unfold has_slash. cbn.
  destruct (Utils.is_slash c); cbn; [discriminate|exact IH].
Qed.

Lemma rev_onto_empty s acc : rev_onto s acc = "" -> s = "" /\ acc = "".
Proof.
  revert acc. induction s as [|c s IH]; intros acc H; cbn in H.
  - now split.
  - apply IH in H. destruct H as [_ H]. discriminate.
Qed.

Lemma dirname_nonempty p : has_slash p = true -> Utils.dirname p <> "".
Proof.
  intros H D. unfold Utils.dirname in D.
  set (head := rev (lstrip_by (fun c => negb (Utils.is_slash c)) (rev p))) in *.
  assert (E : head = "").
  { destruct (String.eqb (rstrip_by Utils.is_slash head) "") eqn:T.
    - exact D.
    - apply String.eqb_neq in T. contradiction. }
  unfold head, rev in E.
  apply rev_onto_empty in E. destruct E as [E _].
  apply lstrip_no_slash_empty in E.
  rewrite has_slash_rev_onto in E.
  apply orb_false_iff in E. destruct E as [E _]. congruence.
Qed.

Lemma has_slash_app_l a b : has_slash a = true -> has_slash (a ++ b) = true.
Proof.
  unfold has_slash. induction a as [|c a IH]; cbn; [discriminate|].
  destruct (Utils.is_slash c); cbn; auto.
Qed.

Lemma has_slash_data_path t : has_slash (Utils.data_path t) = true.
Proof.
  unfold Utils.data_path, Utils.path_join, startswith.
  destruct (String.prefix "/" (t ++ ".json")) eqn:P.
  - destruct t as [|c t]; cbn in P; [discriminate|].
    cbn. destruct c as [b0 b1 b2 b3 b4 b5 b6 b7].
    destruct b0, b1, b2, b3, b4, b5, b6, b7; try discriminate.
    reflexivity.
  - reflexivity.
Qed.

Lemma makedirs_data_path t :
  Utils.makedirs_ok (Utils.dirname (Utils.data_path t)) = true.
Proof.
  unfold Utils.makedirs_ok.
  destruct (String.eqb _ "") eqn:E; [|reflexivity].
  apply String.eqb_eq in E.
  now apply dirname_nonempty in E; [|apply has_slash_data_path].
Qed.

(** A data file reads back as written. *)
Lemma rows_of_write t data st :
  rows_of (Utils.write_table_data t data st) t = data.
Proof.
  unfold rows_of, Utils.write_table_data, Utils.read_table_data.
  rewrite makedirs_data_path. cbn. now rewrite get_set_same.
Qed.

Lemma write_table_data_metadata t data st :
  current_metadata (Utils.write_table_data t data st) = current_metadata st.
Proof.
  unfold Utils.write_table_data. rewrite makedirs_data_path.
  unfold current_metadata, Utils.read_table_metadata. cbn.
  destruct (meta_cache st); reflexivity.
Qed.

(** What a call sees of a table that exists. *)
Lemma table_lookup st t cols :
  has_table st t cols ->
  exists st1,
    Utils.table_exists t st = (true, st1) /\
    Utils.read_table_metadata st1 = (current_metadata st, st1) /\
    same_storage st st1.
Proof.
  intros H. unfold has_table in H.
  unfold Utils.table_exists, current_metadata in *.
  unfold Utils.read_table_metadata in *.
  destruct (meta_cache st) as [m|] eqn:E; cbn in *.
  - exists st. unfold PyDict.mem. rewrite H, E.
    repeat split.
  - eexists. unfold PyDict.mem. rewrite H. split; [reflexivity|].
    cbn. split; [reflexivity|].
    unfold same_storage, current_metadata, Utils.read_table_metadata.
    cbn. rewrite E. repeat split.
Qed.

Lemma apply_updates_everywhere updates data :
  Core.apply_updates None updates data
  = Ok (List.map (fun r => PyDict.update r updates) data, len data).
Proof.
  induction data as [|r data IH].
  - reflexivity.
  - cbn [Core.apply_updates Core.truthy negb bind]. rewrite IH.
    cbn [bind fst snd List.map]. unfold len. cbn [List.length].
    rewrite Nat2Z.inj_succ. unfold Z.succ. reflexivity.
Qed.

(** A SET clause on [id] is let through and applied like any other: with no
    condition every row of the table gets the new identity. *)
Lemma update_rows_sets_id st t cols v z :
  has_table st t cols ->
  PyDict.get cols "id" = Some "int" ->
  py_int v = Ok z ->
  fst (Core.update_rows t [("id", v)] None st)
  = OStr (string_of_Z (len (rows_of st t)) ++ " rows updated") /\
  rows_of (snd (Core.update_rows t [("id", v)] None st)) t
  = List.map (fun r => PyDict.set r "id" (VInt z)) (rows_of st t).
Proof.
  intros HT Hid Hv.
  destruct (table_lookup _ _ _ HT) as (st1 & E1 & E2 & S).
  unfold Core.update_rows. rewrite E1. cbn [negb]. rewrite E2.
  unfold Core.columns_of. rewrite HT.
  cbn [Core.coerce_updates]. unfold PyDict.mem. rewrite Hid. cbn [negb].
  unfold Utils._cast_value. cbn [String.eqb Ascii.eqb Bool.eqb].
  rewrite Hv. cbn [Core.coerce_updates PyDict.set String.eqb Ascii.eqb Bool.eqb].
  rewrite apply_updates_everywhere. cbn [fst snd].
  rewrite rows_of_write.
  fold (rows_of st1 t). rewrite (same_storage_rows _ _ t S).
  split; reflexivity.
Qed.

(** *** Case of identifiers and literals *)

Lemma upper_char_idem c : upper_char (upper_char c) = upper_char c.
Proof.
  destruct c as [b0 b1 b2 b3 b4 b5 b6 b7].
  destruct b0, b1, b2, b3, b4, b5, b6, b7; reflexivity.
Qed.

Lemma is_space_upper_char c : is_space (upper_char c) = is_space c.
Proof.
  destruct c as [b0 b1 b2 b3 b4 b5 b6 b7].
  destruct b0, b1, b2, b3, b4, b5, b6, b7; reflexivity.
Qed.

Lemma upper_idem s : upper (upper s) = upper s.
Proof.
  induction s as [|c s IH]; cbn; [reflexivity|].
  rewrite upper_char_idem. f_equal. exact IH.
Qed.

Lemma map_rev_onto f s acc :
  rev_onto (PyStr.map f s) (PyStr.map f acc) = PyStr.map f (rev_onto s acc).
Proof.
  revert acc. induction s as [|c s IH]; intros acc; cbn; [reflexivity|].
  apply (IH (String c acc)).
Qed.

Lemma upper_rev s : rev (upper s) = upper (rev s).
Proof. exact (map_rev_onto upper_char s ""). Qed.

Lemma upper_lstrip s : lstrip_by is_space (upper s) = upper (lstrip_by is_space s).
Proof.
  induction s as [|c s IH]; cbn; [reflexivity|].
  rewrite is_space_upper_char. destruct (is_space c); [exact IH|reflexivity].
Qed.

Lemma upper_strip s : strip (upper s) = upper (strip s).
Proof.
  unfold strip, strip_by, rstrip_by.
  now rewrite upper_lstrip, upper_rev, upper_lstrip, upper_rev.
Qed.

(** The command boundary cannot tell a statement from its upper-cased
    text: whatever the parsers would keep of the case is lost before they
    run. *)
Lemma execute_command_case_blind command answer st :
  Session.execute_command command answer st
  = Session.execute_command (upper command) answer st.
Proof.
  unfold Session.execute_command.
  now rewrite upper_strip, upper_idem.
Qed.

(** C1, at the statement of the help text.  The parser keeps the case of
    the table name and of the literal, but [execute_command] upper-cases the
    whole statement before parsing it: the row goes to table [USERS], not
    [users], and holds [JOHN], not [John].  The same holds of every
    statement kind: a statement and its upper-cased text execute alike. *)
Theorem execute_insert_loses_case :
  Parser.parse_insert insert_john = Ok ("users", [VStr "John"]) /\
  current_metadata users_store = [("USERS", [("id", "int"); ("NAME", "str")])] /\
  fst (Session.execute_command insert_john "" users_store)
  = OStr "Row inserted successfully" /\
  rows_of (snd (Session.execute_command insert_john "" users_store)) "USERS"
  = [[("NAME", VStr "JOHN"); ("id", VInt 1)]] /\
  rows_of (snd (Session.execute_command insert_john "" users_store)) "users"
  = [] /\
  (forall command answer st,
     Session.execute_command command answer st
     = Session.execute_command (upper command) answer st).
Proof.
  do 5 (split; [vm_compute; reflexivity|]).
  apply execute_command_case_blind.
Qed.

(** *** Coercion to [bool] *)

(** C3, at the values the two copies of [_cast_value] disagree on.  The copy
    core.py imports (utils.py) refuses the strings [t] and [f] and every
    integer, which the copy of parser.py accepts; INSERT and UPDATE report
    the refusal. *)
Theorem bool_cast_refuses_t_f_and_integers :
  Utils._cast_value (VStr "t") "bool"
  = Raise (ValueError "Value t cannot be cast to bool") /\
  Utils._cast_value (VStr "F") "bool"
  = Raise (ValueError "Value F cannot be cast to bool") /\
  Utils._cast_value (VInt 1) "bool"
  = Raise (ValueError "Value 1 cannot be cast to bool") /\
  Parser._cast_value (VStr "t") "bool" = Ok (VBool true) /\
  Parser._cast_value (VStr "F") "bool" = Ok (VBool false) /\
  Parser._cast_value (VInt 1) "bool" = Ok (VBool true) /\
  Core.insert_row "t" [VStr "b"; VStr "t"] demo_store
  = (OStr "Error: Value t cannot be cast to bool", demo_store) /\
  Core.update_rows "t" [("ok", VInt 0)] None demo_store
  = (OStr "Error: Value 0 cannot be cast to bool", demo_store).
Proof. repeat split; vm_compute; reflexivity. Qed.

(** *** DELETE by identity *)

(** C5, after one INSERT.  [execute_command] turns [id] into [ID], a column
    no row has, so the condition compares [None] with 1: nothing is deleted,
    the count is 0 and the row with identity 1 is still selected. *)
Theorem execute_delete_by_id_deletes_nothing :
  List.map Core.row_id (rows_of one_row_store "T") = [VInt 1] /\
  fst (Session.execute_command "DELETE FROM t WHERE id = 1" "y" one_row_store)
  = OStr "0 rows deleted" /\
  fst (Session.execute_command "SELECT * FROM t" ""
         (snd (Session.execute_command "DELETE FROM t WHERE id = 1" "y"
                 one_row_store)))
  = ORows [[("NAME", VStr "A"); ("id", VInt 1)]].
Proof. repeat split; vm_compute; reflexivity. Qed.

(** *** WHERE conditions *)

Lemma contains_split_once s sep :
  contains s sep = true -> exists l r, split_once s sep = Some (l, r).
Proof.
  induction s as [|c s IH]; cbn [contains split_once]; intros H.
  - destruct (String.prefix sep ""); [eauto|discriminate].
  - destruct (String.prefix sep (String c s)); [eauto|].
    destruct (IH H) as (l & r & E). rewrite E. eauto.
Qed.

(** [evaluate_condition] applies the first operator of the priority list
    that occurs in the text, to the column named on its left and the literal
    on its right. *)
Lemma evaluate_with_first ops r cond :
  Parser.evaluate_with ops r cond =
  match find (contains cond) ops with
  | None => Ok true
  | Some op =>
      match split_once cond op with
      | Some (l, rt) =>
          Parser.apply_op op (lookup r (strip l))
                          (Parser._parse_value (strip rt))
      | None => Ok true
      end
  end.
Proof.
  induction ops as [|op ops IH]; cbn [Parser.evaluate_with find].
  - reflexivity.
  - destruct (contains cond op) eqn:C.
    + destruct (contains_split_once _ _ C) as (l & rt & ->). reflexivity.
    + exact IH.
Qed.

Lemma first_operator_cases cond op :
  first_operator cond = Some op ->
  op = ">=" \/ op = "<=" \/ op = "!=" \/ op = "=" \/ op = ">" \/ op = "<".
Proof.
  intros H. apply find_some in H. destruct H as [H _].
  cbn in H. intuition auto.
Qed.

Lemma py_eq_mismatched a b : mismatched a b = true -> py_eq a b = false.
Proof. destruct a, b; cbn; intros H; try discriminate; reflexivity. Qed.

Lemma py_order_mismatched op test a b :
  mismatched a b = true -> exists m, py_order op test a b = Raise (TypeError m).
Proof.
  destruct a, b; cbn; intros H; try discriminate; eexists; reflexivity.
Qed.

(** C7, as the code has it.  When the operands of a condition are of
    different kinds (a string against a number, [None] against either), the
    four ordering operators raise a [TypeError], which the caller reports;
    [=] answers false and [!=] answers true, without any failure. *)
Theorem evaluate_condition_mismatch r cond op l rt :
  first_operator cond = Some op ->
  split_once cond op = Some (l, rt) ->
  mismatched (lookup r (strip l)) (Parser._parse_value (strip rt)) = true ->
  (op = "=" -> Parser.evaluate_condition r cond = Ok false) /\
  (op = "!=" -> Parser.evaluate_condition r cond = Ok true) /\
  (op <> "=" -> op <> "!=" ->
   exists m, Parser.evaluate_condition r cond = Raise (TypeError m)).
Proof.
  intros F S M.
  unfold Parser.evaluate_condition. rewrite evaluate_with_first.
  unfold first_operator in F. rewrite F, S.
  split; [|split].
  - intros ->. cbn. now rewrite py_eq_mismatched.
  - intros ->. cbn. unfold py_ne. now rewrite py_eq_mismatched.
  - intros N1 N2.
    destruct (first_operator_cases cond op F)
      as [ -> | [ -> | [ -> | [ -> | [ -> | -> ] ] ] ] ]; try congruence;
      cbn; now apply py_order_mismatched.
Qed.

Lemma evaluate_condition_mismatch_witness :
  exists m, Parser.evaluate_condition [("age", VInt 5)] "age > 'x'"
            = Raise (TypeError m).
Proof.
  destruct (evaluate_condition_mismatch [("age", VInt 5)] "age > 'x'" ">"
              "age " " 'x'") as (_ & _ & H).
  - reflexivity.
  - reflexivity.
  - reflexivity.
  - apply H; discriminate.
Defined.

(** C7 as stated fails: with [=] a string against a number is false, not a
    failure. *)
Lemma equality_mismatch_is_silent :
  ~ (forall r cond op l rt,
       first_operator cond = Some op ->
       split_once cond op = Some (l, rt) ->
       mismatched (lookup r (strip l)) (Parser._parse_value (strip rt)) = true ->
       exists e, Parser.evaluate_condition r cond = Raise e).
Proof.
  intros H.
  destruct (H [("age", VInt 5)] "age = 'x'" "=" "age " " 'x'") as [e E];
    try reflexivity.
  vm_compute in E. discriminate.
Qed.

(** *** CREATE TABLE *)

Lemma get_absent_key {V : Type} (d : dict V) k :
  ~ In k (PyDict.keys d) -> PyDict.get d k = None.
Proof.
  induction d as [|[k' v'] d IH]; cbn; intros N; [reflexivity|].
  destruct (String.eqb k' k) eqn:E.
  - apply String.eqb_eq in E. exfalso. auto.
  - apply IH. auto.
Qed.

(** [{**d, **u}]: the entries of [u] win, the others are those of [d]. *)
Lemma get_update {V : Type} (u d : dict V) c :
  NoDup (PyDict.keys u) ->
  PyDict.get (PyDict.update d u) c
  = match PyDict.get u c with Some v => Some v | None => PyDict.get d c end.
Proof.
  revert d. induction u as [|[k v] u IH]; intros d ND; cbn.
  - reflexivity.
  - inversion ND as [|? ? Hk ND']; subst.
    change (fold_left _ u (PyDict.set d k v)) with
      (PyDict.update (PyDict.set d k v) u).
    rewrite (IH _ ND').
    destruct (String.eqb k c) eqn:E.
    + apply String.eqb_eq in E. subst c.
      rewrite (get_absent_key u k Hk). apply get_set_same.
    + apply String.eqb_neq in E.
      destruct (PyDict.get u c); [reflexivity|].
      now apply get_set_other.
Qed.

Lemma write_table_metadata_noop m st : Utils.write_table_metadata m st = st.
Proof. reflexivity. Qed.

(** X30. create_table, called with a table name that does not exist yet and
    a dict of columns that does not give id a type other than int, reports
    success; the schema then stored for the table has id of type int and
    every given column with its type, table_exists answers yes and the
    table has no row. *)
Theorem create_table_schema st t columns :
  NoDup (PyDict.keys columns) ->
  fst (Utils.table_exists t st) = false ->
  PyDict.get columns "id" = None \/ PyDict.get columns "id" = Some "int" ->
  fst (Core.create_table t columns st) = OStr "Table created successfully" /\
  exists sch,
    has_table (snd (Core.create_table t columns st)) t sch /\
    PyDict.get sch "id" = Some "int" /\
    (forall c ty, PyDict.get columns c = Some ty -> PyDict.get sch c = Some ty) /\
    fst (Utils.table_exists t (snd (Core.create_table t columns st))) = true /\
    rows_of (snd (Core.create_table t columns st)) t = [].
Proof.
  intros ND NE Hid.
  unfold Core.create_table.
  destruct (Utils.table_exists t st) as [ex st1]; cbn [fst] in NE. subst ex.
  destruct (Utils.read_table_metadata st1) as [m st2].
  rewrite write_table_metadata_noop. cbn [fst snd].
  split; [reflexivity|].
  exists (PyDict.update DEFAULT_COLUMNS columns).
  assert (M : current_metadata
                (Utils.write_table_data t []
                   (Utils.set_cached
                      (PyDict.set m t (PyDict.update DEFAULT_COLUMNS columns))
                      st2))
              = PyDict.set m t (PyDict.update DEFAULT_COLUMNS columns)).
  { rewrite write_table_data_metadata. reflexivity. }
  split; [|split; [|split; [|split]]].
  - unfold has_table. rewrite M. apply get_set_same.
  - rewrite (get_update _ _ _ ND).
    destruct Hid as [-> | ->]; reflexivity.
  - intros c ty H. rewrite (get_update _ _ _ ND). now rewrite H.
  - rewrite table_exists_mem, M. unfold PyDict.mem.
    now rewrite get_set_same.
  - apply rows_of_write.
Qed.

Lemma create_table_schema_witness :
  exists sch,
    has_table
      (snd (Core.create_table "users" [("name", "str"); ("age", "int")]
              empty_store)) "users" sch /\
    PyDict.get sch "id" = Some "int" /\
    PyDict.get sch "name" = Some "str" /\
    PyDict.get sch "age" = Some "int".
Proof.
  destruct (create_table_schema empty_store "users"
              [("name", "str"); ("age", "int")])
    as (_ & sch & H1 & H2 & H3 & _).
  - repeat constructor; cbn; intuition discriminate.
  - reflexivity.
  - left. reflexivity.
  - exists sch. repeat split; [exact H1|exact H2| |]; apply H3; reflexivity.
Defined.

(** The proviso is needed: a dict that gives [id] another type replaces the
    implicit [id] of type [int]. *)
Lemma create_table_declared_id_wins :
  Parser.parse_create_table "CREATE TABLE t (id str)"
  = Ok ("t", [("id", "str")]) /\
  ~ (forall st t columns,
       NoDup (PyDict.keys columns) ->
       (forall c ty, In (c, ty) columns -> in_list ty SUPPORTED_TYPES = true) ->
       fst (Utils.table_exists t st) = false ->
       exists sch,
         has_table (snd (Core.create_table t columns st)) t sch /\
         PyDict.get sch "id" = Some "int").
Proof.
  split; [vm_compute; reflexivity|].
  intros H.
  destruct (H empty_store "t" [("id", "str")]) as (sch & H1 & H2).
  - repeat constructor. intros [].
  - intros c ty [E|[]]. inversion E. reflexivity.
  - reflexivity.
  - vm_compute in H1. inversion H1. subst sch. discriminate.
Qed.

(** *** INSERT *)

(** [insert_row] on a table that exists: validation, then the next
    identity, then the write. *)
Lemma insert_row_unfold st t cols vs :
  has_table st t cols ->
  exists st1, same_storage st st1 /\
    Core.insert_row t vs st =
    match Utils.validate_row_data cols vs with
    | Raise e => (handle_db_errors (Raise e), st1)
    | Ok validated =>
        match Core.next_id (rows_of st t) with
        | Raise e => (handle_db_errors (Raise e), st1)
        | Ok new_id =>
            (OStr msg_row_inserted,
             Utils.write_table_data t
               (rows_of st t ++ [PyDict.set validated ID_COLUMN new_id])%list
               st1)
        end
    end.
Proof.
  intros HT.
  destruct (table_lookup _ _ _ HT) as (st1 & E1 & E2 & S).
  exists st1. split; [exact S|].
  unfold Core.insert_row. rewrite E1. cbn [negb]. rewrite E2.
  unfold Core.columns_of. rewrite HT.
  fold (rows_of st1 t). rewrite (same_storage_rows _ _ t S).
  reflexivity.
Qed.

Lemma int_of_float_truncation f z :
  int_of_float f = Ok z -> truncation_of f z.
Proof.
  destruct f as [s|s| |s m e]; unfold int_of_float, truncation_of; intros H;
    try discriminate.
  - now inversion H.
  - assert (P : 0 < Zpos m) by reflexivity.
    assert (Hz : z = signed s (if 0 <=? e then Zpos m * 2 ^ e
                               else Zpos m / 2 ^ (- e))) by congruence.
    clear H. subst z.
    destruct (0 <=? e) eqn:E.
    + apply Z.leb_le in E.
      rewrite (Z.max_l 0 (- e)) by lia. rewrite (Z.max_r 0 e) by lia.
      assert (0 < 2 ^ e) by (apply Z.pow_pos_nonneg; lia).
      assert (A : Z.abs (signed s (Zpos m * 2 ^ e)) = Zpos m * 2 ^ e).
      { destruct s; cbn [signed]; nia. }
      rewrite A. split; [reflexivity|]. rewrite Z.pow_0_r. nia.
    + apply Z.leb_gt in E.
      rewrite (Z.max_r 0 (- e)) by lia. rewrite (Z.max_l 0 e) by lia.
      assert (D : 0 < 2 ^ (- e)) by (apply Z.pow_pos_nonneg; lia).
      pose proof (Z.div_pos (Zpos m) (2 ^ (- e)) ltac:(lia) D) as Q.
      assert (A : Z.abs (signed s (Zpos m / 2 ^ (- e))) = Zpos m / 2 ^ (- e)).
      { destruct s; cbn [signed]; lia. }
      rewrite A. split; [reflexivity|].
      pose proof (Z.mul_div_le (Zpos m) (2 ^ (- e)) D).
      pose proof (Z.mul_succ_div_gt (Zpos m) (2 ^ (- e)) D).
      rewrite Z.pow_0_r. nia.
Qed.

(** C4 as stated fails: [INSERT INTO t VALUES (3.9)] into an [int] column
    succeeds and stores 3. *)
Lemma insert_3_9_is_truncated :
  fst (Session.execute_command "INSERT INTO t VALUES (3.9)" "" int_store)
  = OStr "Row inserted successfully" /\
  rows_of (snd (Session.execute_command "INSERT INTO t VALUES (3.9)" ""
                  int_store)) "T"
  = [[("N", VInt 3); ("id", VInt 1)]].
Proof. split; vm_compute; reflexivity. Qed.

Lemma set_fresh {V : Type} (d : dict V) k v :
  ~ In k (PyDict.keys d) -> PyDict.set d k v = (d ++ [(k, v)])%list.
Proof.
  induction d as [|[k' v'] d IH]; cbn; intros N; [reflexivity|].
  destruct (String.eqb k' k) eqn:E.
  - apply String.eqb_eq in E. exfalso. auto.
  - f_equal. apply IH. auto.
Qed.

Lemma keys_app {V : Type} (a b : dict V) :
  PyDict.keys (a ++ b)%list = (PyDict.keys a ++ PyDict.keys b)%list.
Proof. apply List.map_app. Qed.

Lemma keys_combine {V : Type} names (xs : list V) c :
  In c (PyDict.keys (combine names xs)) -> In c names.
Proof.
  revert xs. induction names as [|n names IH]; intros [|x xs]; cbn; try tauto.
  intros [H|H]; [now left|right; eauto].
Qed.

(** Setting fresh, distinct keys one after the other appends them. *)
Lemma fold_set_fresh {V : Type} names (xs : list V) (acc : dict V) :
  NoDup names ->
  (forall c, In c names -> ~ In c (PyDict.keys acc)) ->
  fold_left (fun a kv => PyDict.set a (fst kv) (snd kv)) (combine names xs) acc
  = (acc ++ combine names xs)%list.
Proof.
  revert xs acc. induction names as [|n names IH]; intros xs acc ND F.
  - cbn. now rewrite List.app_nil_r.
  - destruct xs as [|x xs]; cbn; [now rewrite List.app_nil_r|].
    inversion ND as [|? ? Hn ND']; subst.
    rewrite set_fresh by (apply F; now left).
    rewrite IH; [now rewrite <- List.app_assoc| exact ND' |].
    intros c Hc Hin. rewrite keys_app in Hin.
    apply in_app_or in Hin. destruct Hin as [Hin|[<-|[]]].
    + apply (F c); [now right|exact Hin].
    + contradiction.
Qed.

Lemma cast_columns_coerces cols names vs xs acc :
  coerces cols names vs xs ->
  cast_columns Utils._cast_value cols (combine names vs) acc
  = Ok (fold_left (fun a kv => PyDict.set a (fst kv) (snd kv))
          (combine names xs) acc).
Proof.
  intros H. revert acc.
  induction H as [|c names v vs x xs Hc H IH]; intros acc.
  - reflexivity.
  - cbn [combine cast_columns fold_left fst snd].
    fold (declared_type cols c). rewrite Hc. cbn [bind]. apply IH.
Qed.

Lemma coerces_length cols names vs xs :
  coerces cols names vs xs ->
  List.length vs = List.length names /\ List.length xs = List.length names.
Proof. induction 1; cbn; intuition congruence. Qed.

Lemma filter_out_one (a : string) (l : list string) :
  NoDup l -> In a l ->
  S (List.length (filter (fun x => negb (String.eqb x a)) l)) = List.length l.
Proof.
  induction l as [|b l IH]; intros ND HIn; [destruct HIn|].
  inversion ND as [|? ? Hb ND']; subst. cbn.
  destruct (String.eqb b a) eqn:E; cbn.
  - apply String.eqb_eq in E. subst b. f_equal.
    clear IH ND ND' HIn. induction l as [|c l IH]; [reflexivity|].
    cbn. destruct (String.eqb c a) eqn:E.
    + apply String.eqb_eq in E. subst c. exfalso. apply Hb. now left.
    + cbn. f_equal. apply IH. intros H. apply Hb. now right.
  - f_equal. apply IH; [exact ND'|].
    destruct HIn as [->|H]; [|exact H].
    now rewrite String.eqb_refl in E.
Qed.

Lemma mem_in_keys {V : Type} (d : dict V) k :
  PyDict.mem d k = true -> In k (PyDict.keys d).
Proof.
  unfold PyDict.mem. induction d as [|[k' v'] d IH]; cbn; [discriminate|].
  destruct (String.eqb k' k) eqn:E.
  - apply String.eqb_eq in E. now left.
  - intros H. right. now apply IH.
Qed.

Lemma NoDup_filter {A : Type} (f : A -> bool) (l : list A) :
  NoDup l -> NoDup (filter f l).
Proof.
  induction 1 as [|a l Ha ND IH]; cbn; [constructor|].
  destruct (f a); [|exact IH].
  constructor; [|exact IH]. intros H. apply filter_In in H. tauto.
Qed.

Lemma id_not_data_column cols : ~ In "id" (data_column_names cols).
Proof.
  unfold data_column_names. intros H. apply filter_In in H.
  destruct H as [_ H]. now rewrite String.eqb_refl in H.
Qed.

(** The Row Validator on values that coerce: the columns other than [id],
    in schema order, each with its coerced value. *)
Lemma validate_row_data_coerces cols vs xs :
  NoDup (PyDict.keys cols) ->
  PyDict.mem cols "id" = true ->
  coerces cols (data_column_names cols) vs xs ->
  Utils.validate_row_data cols vs = Ok (combine (data_column_names cols) xs).
Proof.
  intros ND M C.
  destruct (coerces_length _ _ _ _ C) as [L _].
  pose proof (filter_out_one "id" _ ND (mem_in_keys _ _ M)) as F.
  fold (data_column_names cols) in F.
  unfold Utils.validate_row_data.
  replace (len vs =? len cols - 1) with true.
  2:{ symmetry. apply Z.eqb_eq. unfold len, PyDict.keys in *.
      rewrite length_map in F. lia. }
  cbn [negb]. fold (data_column_names cols).
  rewrite (cast_columns_coerces _ _ _ _ _ C).
  f_equal. rewrite fold_set_fresh.
  - reflexivity.
  - now apply NoDup_filter.
  - intros c _ [].
Qed.

Lemma max_from_ints best l :
  max_from (VInt best) (List.map VInt l) = Ok (VInt (fold_left Z.max l best)).
Proof.
  revert best. induction l as [|v l IH]; intros best; [reflexivity|].
  cbn [List.map max_from fold_left].
  unfold py_gt, py_order. cbn [as_num num_cmp bind is_gt].
  replace (if is_gt (v ?= best) then VInt v else VInt best)
    with (VInt (Z.max best v)).
  - apply IH.
  - unfold Z.max. rewrite (Z.compare_antisym v best).
    destruct (v ?= best); reflexivity.
Qed.

(** The next identity over integer identities: their maximum, or 0 when
    there is no row, plus 1. *)
Lemma next_id_ints data ids :
  List.map Core.row_id data = List.map VInt ids ->
  Core.next_id data = Ok (VInt (max_id ids + 1)).
Proof.
  intros H. unfold Core.next_id. rewrite H.
  destruct ids as [|i ids]; [reflexivity|].
  cbn [List.map py_max max_id]. rewrite max_from_ints. reflexivity.
Qed.

Lemma max_id_snoc ids : max_id (ids ++ [max_id ids + 1]) = max_id ids + 1.
Proof.
  destruct ids as [|i ids]; [reflexivity|].
  cbn [app max_id]. rewrite fold_left_app. cbn [fold_left]. lia.
Qed.

Lemma row_id_stored_row cols xs n :
  Core.row_id (stored_row cols xs n) = VInt n.
Proof.
  unfold Core.row_id, stored_row.
  assert (G : forall d : dict value,
             ~ In ID_COLUMN (PyDict.keys d) ->
             PyDict.get (d ++ [(ID_COLUMN, VInt n)])%list ID_COLUMN
             = Some (VInt n)).
  { intros d N. rewrite <- (set_fresh d _ _ N). apply get_set_same. }
  rewrite G; [reflexivity|].
  intros H. apply keys_combine in H. now apply id_not_data_column in H.
Qed.

(** One INSERT of values that coerce, into a table whose identities are
    integers. *)
Lemma insert_row_step st t cols vs xs ids :
  has_table st t cols ->
  NoDup (PyDict.keys cols) ->
  PyDict.mem cols "id" = true ->
  List.map Core.row_id (rows_of st t) = List.map VInt ids ->
  coerces cols (data_column_names cols) vs xs ->
  fst (Core.insert_row t vs st) = OStr msg_row_inserted /\
  has_table (snd (Core.insert_row t vs st)) t cols /\
  rows_of (snd (Core.insert_row t vs st)) t
  = (rows_of st t ++ [stored_row cols xs (max_id ids + 1)])%list.
Proof.
  intros HT ND M Hids C.
  destruct (insert_row_unfold st t cols vs HT) as (st1 & S & ->).
  rewrite (validate_row_data_coerces _ _ _ ND M C).
  rewrite (next_id_ints _ _ Hids). cbn [fst snd].
  split; [reflexivity|split].
  - unfold has_table. rewrite write_table_data_metadata.
    destruct S as (_ & _ & ->). exact HT.
  - rewrite rows_of_write. unfold stored_row.
    rewrite set_fresh; [reflexivity|].
    intros H. apply keys_combine in H. now apply id_not_data_column in H.
Qed.

Lemma get_combine_nth {V : Type} names (xs : list V) tl i c x :
  NoDup names ->
  nth_error names i = Some c ->
  nth_error xs i = Some x ->
  PyDict.get (combine names xs ++ tl)%list c = Some x.
Proof.
  revert xs i. induction names as [|n names IH]; intros xs i ND Hn Hx.
  - destruct i; discriminate.
  - inversion ND as [|? ? Hfresh ND']; subst.
    destruct xs as [|y xs]; [destruct i; discriminate|].
    destruct i as [|i]; cbn in Hn, Hx.
    + inversion Hn; inversion Hx; subst. cbn. now rewrite String.eqb_refl.
    + cbn. destruct (String.eqb n c) eqn:E.
      * apply String.eqb_eq in E. subst c. exfalso. apply Hfresh.
        eapply nth_error_In; eauto.
      * eapply IH; eauto.
Qed.

Lemma coerces_nth cols names vs xs i c :
  coerces cols names vs xs ->
  nth_error names i = Some c ->
  exists v x,
    nth_error vs i = Some v /\ nth_error xs i = Some x /\
    Utils._cast_value v (declared_type cols c) = Ok x.
Proof.
  intros H. revert i.
  induction H as [|c0 names v vs x xs Hc H IH]; intros i Hn.
  - destruct i; discriminate.
  - destruct i as [|i]; cbn in Hn.
    + inversion Hn; subst. exists v, x. repeat split. exact Hc.
    + destruct (IH i Hn) as (v' & x' & ? & ? & ?). exists v', x'. now cbn.
Qed.

Lemma stored_rows_nth cols m xss j xs :
  nth_error xss j = Some xs ->
  nth_error (stored_rows cols m xss) j
  = Some (stored_row cols xs (m + 1 + Z.of_nat j)).
Proof.
  revert m j. induction xss as [|ys xss IH]; intros m j H.
  - destruct j; discriminate.
  - destruct j as [|j]; cbn in H.
    + inversion H; subst. cbn. do 2 f_equal. lia.
    + cbn [stored_rows nth_error]. rewrite (IH (m + 1) j H).
      do 2 f_equal. lia.
Qed.

Lemma insert_all_rows st t cols vss xss ids :
  has_table st t cols ->
  NoDup (PyDict.keys cols) ->
  PyDict.mem cols "id" = true ->
  List.map Core.row_id (rows_of st t) = List.map VInt ids ->
  Forall2 (coerces cols (data_column_names cols)) vss xss ->
  fst (insert_all t vss st) = List.map (fun _ => OStr msg_row_inserted) vss /\
  rows_of (snd (insert_all t vss st)) t
  = (rows_of st t ++ stored_rows cols (max_id ids) xss)%list.
Proof.
  intros HT ND M Hids F. revert st ids HT Hids.
  induction F as [|vs xs vss xss C F IH]; intros st ids HT Hids.
  - cbn. now rewrite List.app_nil_r.
  - destruct (insert_row_step st t cols vs xs ids HT ND M Hids C)
      as (H1 & H2 & H3).
    cbn [insert_all].
    destruct (Core.insert_row t vs st) as [o st1]; cbn [fst snd] in *.
    specialize (IH st1 (ids ++ [max_id ids + 1])%list H2).
    destruct (insert_all t vss st1) as [os st2]; cbn [fst snd] in *.
    destruct IH as [I1 I2].
    { rewrite H3, !List.map_app. cbn [List.map].
      now rewrite Hids, row_id_stored_row. }
    split.
    + cbn [List.map]. now rewrite H1, I1.
    + rewrite I2, H3, <- List.app_assoc, max_id_snoc. reflexivity.
Qed.

(** C8.  A run of INSERTs of values that coerce, into a table whose rows
    have integer identities [ids], reports success each time and appends one
    row per INSERT, in order.  The row of the [j]-th INSERT (from 0) has the
    identity [max ids + 1 + j], the maximum being 0 for a table without
    rows: 1 for the first row of an empty table, one more at each further
    INSERT.  Under each column other than [id] the row holds the value
    supplied at that position, cast to the declared type of the column. *)
Theorem insert_round_trip st t cols vss xss ids :
  has_table st t cols ->
  NoDup (PyDict.keys cols) ->
  PyDict.mem cols "id" = true ->
  List.map Core.row_id (rows_of st t) = List.map VInt ids ->
  Forall2 (coerces cols (data_column_names cols)) vss xss ->
  fst (insert_all t vss st) = List.map (fun _ => OStr msg_row_inserted) vss /\
  rows_of (snd (insert_all t vss st)) t
  = (rows_of st t ++ stored_rows cols (max_id ids) xss)%list /\
  (forall j vs xs,
     nth_error vss j = Some vs -> nth_error xss j = Some xs ->
     nth_error (stored_rows cols (max_id ids) xss) j
     = Some (stored_row cols xs (max_id ids + 1 + Z.of_nat j)) /\
     PyDict.get (stored_row cols xs (max_id ids + 1 + Z.of_nat j)) "id"
     = Some (VInt (max_id ids + 1 + Z.of_nat j)) /\
     forall i c,
       nth_error (data_column_names cols) i = Some c ->
       exists v x,
         nth_error vs i = Some v /\
         Utils._cast_value v (declared_type cols c) = Ok x /\
         PyDict.get (stored_row cols xs (max_id ids + 1 + Z.of_nat j)) c
         = Some x) /\
  (ids = [] -> max_id ids + 1 + Z.of_nat 0 = 1).
Proof.
  intros HT ND M Hids F.
  destruct (insert_all_rows st t cols vss xss ids HT ND M Hids F) as [R1 R2].
  split; [exact R1|split; [exact R2|split]].
  - intros j vs xs Hv Hx.
    split; [now apply stored_rows_nth|split].
    + pose proof (row_id_stored_row cols xs (max_id ids + 1 + Z.of_nat j)) as R.
      unfold Core.row_id in R.
      destruct (PyDict.get _ ID_COLUMN) as [v|] eqn:G.
      * unfold ID_COLUMN in G. rewrite G. now f_equal.
      * exfalso. unfold stored_row in G.
        rewrite <- set_fresh in G.
        -- now rewrite get_set_same in G.
        -- intros H. apply keys_combine in H.
           now apply id_not_data_column in H.
    + intros i c Hc.
      assert (C : coerces cols (data_column_names cols) vs xs).
      { clear - F Hv Hx. revert j Hv Hx.
        induction F as [|a b vss xss C F IH]; intros j Hv Hx.
        - destruct j; discriminate.
        - destruct j as [|j]; cbn in Hv, Hx.
          + inversion Hv; inversion Hx; subst. exact C.
          + eapply IH; eauto. }
      destruct (coerces_nth _ _ _ _ _ _ C Hc) as (v & x & E1 & E2 & E3).
      exists v, x. split; [exact E1|split; [exact E3|]].
      unfold stored_row. eapply get_combine_nth; eauto.
      unfold data_column_names. now apply NoDup_filter.
  - intros ->. reflexivity.
Qed.

Lemma insert_round_trip_witness :
  rows_of (snd (insert_all "t" [[VStr "a"; VStr "yes"]; [VInt 5; VBool false]]
                  fresh_store)) "t"
  = [[("name", VStr "a"); ("ok", VBool true); ("id", VInt 1)];
     [("name", VStr "5"); ("ok", VBool false); ("id", VInt 2)]].
Proof.
  destruct (insert_round_trip fresh_store "t"
              [("id", "int"); ("name", "str"); ("ok", "bool")]
              [[VStr "a"; VStr "yes"]; [VInt 5; VBool false]]
              [[VStr "a"; VBool true]; [VStr "5"; VBool false]] [])
    as (_ & H & _).
  - reflexivity.
  - repeat constructor; cbn; intuition discriminate.
  - reflexivity.
  - reflexivity.
  - repeat constructor.
  - exact H.
Defined.

(** *** DELETE by identity, below the command boundary *)

Lemma digits_string_of_uint d acc b :
  d <> Decimal.Nil \/ b = true ->
  digits (NilEmpty.string_of_uint d) acc b = Some (uint_value d acc).
Proof.
  revert acc b.
  induction d; intros acc b H;
    try (cbn [NilEmpty.string_of_uint digits]; 
         change (is_digit _) with true; cbv iota;
         rewrite IHd by (now right); reflexivity).
  destruct H as [H| ->]; [congruence|reflexivity].
Qed.

Lemma uint_value_spec d acc :
  uint_value d acc
  = Z.of_N (Unsigned.of_lu (Decimal.rev d))
    + acc * 10 ^ Z.of_N (Unsigned.usize d).
Proof.
  revert acc.
  induction d; intros acc; [cbn; lia | ..];
    cbn [uint_value Unsigned.usize]; rewrite IHd;
    match goal with
    | |- context [Decimal.rev (?f d)] =>
        change (Decimal.rev (f d)) with (Decimal.revapp d (f Decimal.Nil))
    end;
    rewrite Unsigned.of_lu_revapp; cbn [Unsigned.of_lu];
    rewrite N2Z.inj_add, N2Z.inj_mul, N2Z.inj_pow, N2Z.inj_succ,
      Z.pow_succ_r by lia;
    cbn [Z.of_N N.mul N.add]; lia.
Qed.

Lemma uint_value_to_uint p : uint_value (Pos.to_uint p) 0 = Zpos p.
Proof.
  rewrite uint_value_spec, <- Unsigned.of_uint_alt, Unsigned.of_to.
  cbn [Z.of_N]. lia.
Qed.

Lemma string_of_pos p :
  NilZero.string_of_uint (Pos.to_uint p) = NilEmpty.string_of_uint (Pos.to_uint p).
Proof.
  pose proof (Unsigned.to_uint_nonnil p) as H.
  destruct (Pos.to_uint p); [congruence|reflexivity..].
Qed.

Lemma all_digits_string_of_uint d :
  all_chars is_digit (NilEmpty.string_of_uint d) = true.
Proof. induction d; cbn; auto. Qed.

Lemma num_char_facts c :
  is_num_char c = true ->
  is_space c = false /\ is_num_space c = false /\ lower_char c = c /\
  c <> dquote /\ c <> squote /\
  Ascii.eqb c "t" = false /\ Ascii.eqb c "f" = false /\
  Ascii.eqb c "n" = false /\ Ascii.eqb c ">" = false /\
  Ascii.eqb c "<" = false /\ Ascii.eqb c "!" = false /\
  Ascii.eqb c "=" = false /\ Ascii.eqb c "+" = false /\
  (is_digit c = true /\ Ascii.eqb c "-" = false \/ c = "-"%char).
Proof.
  destruct c as [b0 b1 b2 b3 b4 b5 b6 b7].
  destruct b0, b1, b2, b3, b4, b5, b6, b7; intros H; try discriminate H;
    repeat split; try discriminate; auto.
Qed.

Lemma all_chars_weaken (p q : ascii -> bool) s :
  (forall c, p c = true -> q c = true) ->
  all_chars p s = true -> all_chars q s = true.
Proof.
  intros W. unfold all_chars. induction s as [|c s IH]; cbn; [auto|].
  intros H. apply andb_true_iff in H. destruct H as [H1 H2].
  now rewrite (W c H1), IH.
Qed.

Lemma all_chars_rev_onto p s acc :
  all_chars p (rev_onto s acc) = (all_chars p s && all_chars p acc)%bool.
Proof.
  revert acc. induction s as [|c s IH]; intros acc; [reflexivity|].
  change (rev_onto (String c s) acc) with (rev_onto s (String c acc)).
  rewrite IH. unfold all_chars. cbn.
  destruct (p c), (forallb p (list_ascii_of_string s)); cbn; auto.
Qed.

Lemma rev_onto_rev_onto s a b :
  rev_onto (rev_onto s a) b = rev_onto a (s ++ b).
Proof.
  revert a. induction s as [|c s IH]; intros a; [reflexivity|].
  change (rev_onto (String c s) a) with (rev_onto s (String c a)).
  now rewrite IH.
Qed.

Lemma append_empty s : s ++ "" = s.
Proof. induction s as [|c s IH]; cbn; [reflexivity|now rewrite IH]. Qed.

Lemma rev_rev s : rev (rev s) = s.
Proof. unfold rev. rewrite rev_onto_rev_onto. cbn. apply append_empty. Qed.

Lemma lstrip_by_none p s :
  all_chars (fun c => negb (p c)) s = true -> lstrip_by p s = s.
Proof.
  destruct s as [|c s]; [reflexivity|].
  unfold all_chars. cbn. intros H. apply andb_true_iff in H.
  destruct H as [H _]. now destruct (p c).
Qed.

Lemma strip_by_none p s :
  all_chars (fun c => negb (p c)) s = true -> strip_by p s = s.
Proof.
  intros H. unfold strip_by, rstrip_by.
  rewrite (lstrip_by_none p s H).
  rewrite lstrip_by_none; [apply rev_rev|].
  unfold rev. rewrite all_chars_rev_onto, H. reflexivity.
Qed.

Lemma all_num_string_of_Z k : all_chars is_num_char (string_of_Z k) = true.
Proof.
  assert (D : forall d, all_chars is_num_char (NilEmpty.string_of_uint d) = true).
  { intros d. apply (all_chars_weaken is_digit); [|apply all_digits_string_of_uint].
    intros c H. unfold is_num_char. now rewrite H. }
  unfold string_of_Z. destruct k as [|p|p]; cbn [Z.to_int NilZero.string_of_int].
  - reflexivity.
  - rewrite string_of_pos. apply D.
  - rewrite string_of_pos. unfold all_chars. cbn. apply D.
Qed.

Lemma digits_head_sign d :
  d <> Decimal.Nil ->
  split_sign (NilEmpty.string_of_uint d) = (false, NilEmpty.string_of_uint d).
Proof. destruct d; [congruence|reflexivity..]. Qed.

(** [int] reads a printed integer back. *)
Lemma int_of_str_string_of_Z k : int_of_str (string_of_Z k) = Some k.
Proof.
  unfold int_of_str. rewrite strip_by_none.
  2:{ apply (all_chars_weaken is_num_char); [|apply all_num_string_of_Z].
      intros c H. destruct (num_char_facts c H) as (_ & -> & _). reflexivity. }
  unfold string_of_Z. destruct k as [|p|p]; cbn [Z.to_int NilZero.string_of_int].
  - reflexivity.
  - rewrite string_of_pos.
    rewrite digits_head_sign by apply Unsigned.to_uint_nonnil.
    rewrite digits_string_of_uint by (left; apply Unsigned.to_uint_nonnil).
    cbn. now rewrite uint_value_to_uint.
  - rewrite string_of_pos. cbn [split_sign Ascii.eqb Bool.eqb].
    rewrite digits_string_of_uint by (left; apply Unsigned.to_uint_nonnil).
    cbn. now rewrite uint_value_to_uint.
Qed.

Lemma string_of_Z_head k :
  exists c s, string_of_Z k = String c s /\ is_num_char c = true.
Proof.
  pose proof (all_num_string_of_Z k) as A.
  destruct (string_of_Z k) as [|c s] eqn:E.
  - exfalso. unfold string_of_Z in E.
    destruct k as [|p|p]; cbn in E; try discriminate.
    rewrite string_of_pos in E.
    pose proof (Unsigned.to_uint_nonnil p) as N.
    destruct (Pos.to_uint p); try discriminate. congruence.
  - exists c, s. split; [reflexivity|].
    unfold all_chars in A. cbn in A. now apply andb_true_iff in A.
Qed.

Lemma parse_value_string_of_Z k :
  Parser._parse_value (string_of_Z k) = VInt k.
Proof.
  unfold Parser._parse_value. rewrite int_of_str_string_of_Z.
  destruct (string_of_Z_head k) as (c & s & -> & H).
  destruct (num_char_facts c H)
    as (_ & _ & L & Q2 & Q1 & Ft & Ff & Fn & _).
  assert (P : forall q, c <> q -> startswith (String c s) (String q "") = false).
  { intros q N. unfold startswith.
    change (String.prefix (String q "") (String c s))
      with (if ascii_dec q c then String.prefix "" s else false).
    destruct (ascii_dec q c); [congruence|reflexivity]. }
  assert (S2 : startswith (String c s) Parser.q2 = false) by now apply P.
  assert (S1 : startswith (String c s) Parser.q1 = false) by now apply P.
  rewrite S1, S2. cbn [andb orb].
  unfold lower. cbn [PyStr.map]. rewrite L.
  cbn [String.eqb]. rewrite Ft, Ff, Fn. reflexivity.
Qed.

Lemma contains_foreign s c0 rest :
  all_chars (fun c => negb (Ascii.eqb c c0)) s = true ->
  contains s (String c0 rest) = false.
Proof.
  unfold all_chars. induction s as [|c s IH];
    cbn [list_ascii_of_string forallb contains]; [reflexivity|].
  intros H. apply andb_true_iff in H. destruct H as [H1 H2].
  change (String.prefix (String c0 rest) (String c s))
    with (if ascii_dec c0 c then String.prefix rest s else false).
  destruct (ascii_dec c0 c) as [->|N].
  - now rewrite Ascii.eqb_refl in H1.
  - now apply IH.
Qed.

Lemma all_chars_app p a b :
  all_chars p (a ++ b) = (all_chars p a && all_chars p b)%bool.
Proof.
  unfold all_chars. induction a as [|c a IH]; cbn; [reflexivity|].
  rewrite IH. now rewrite andb_assoc.
Qed.

(** The condition [id = k] compares the identity of the row with [k]. *)
Lemma evaluate_id_equals r k :
  Parser.evaluate_condition r ("id = " ++ string_of_Z k)
  = Ok (py_eq (lookup r "id") (VInt k)).
Proof.
  pose proof (all_num_string_of_Z k) as A.
  assert (F : forall c0 rest,
             is_num_char c0 = false ->
             all_chars (fun c => negb (Ascii.eqb c c0)) "id = " = true ->
             contains ("id = " ++ string_of_Z k) (String c0 rest) = false).
  { intros c0 rest N P. apply contains_foreign.
    rewrite all_chars_app, P.
    apply (all_chars_weaken is_num_char); [|exact A].
    intros c H. destruct (Ascii.eqb c c0) eqn:E; [|reflexivity].
    apply Ascii.eqb_eq in E. congruence. }
  unfold Parser.evaluate_condition, Parser.operators.
  cbn [Parser.evaluate_with].
  rewrite !F by reflexivity.
  change (contains ("id = " ++ string_of_Z k) "=") with true.
  change (split_once ("id = " ++ string_of_Z k) "=")
    with (Some ("id ", String " " (string_of_Z k))).
  cbv iota.
  change (strip "id ") with "id".
  change (strip (String " " (string_of_Z k))) with (strip (string_of_Z k)).
  unfold strip. rewrite strip_by_none.
  - rewrite parse_value_string_of_Z. reflexivity.
  - apply (all_chars_weaken is_num_char); [|exact A].
    intros c H. destruct (num_char_facts c H) as (-> & _). reflexivity.
Qed.

Lemma py_eq_ints i k : py_eq (VInt i) (VInt k) = (i =? k).
Proof.
  unfold py_eq. cbn [as_num num_cmp].
  destruct (Z.compare_spec i k); symmetry;
    [apply Z.eqb_eq|apply Z.eqb_neq..]; lia.
Qed.

Lemma filter_rows_by_id k data :
  Core.filter_rows
    (fun r =>
       b <- Parser.evaluate_condition r ("id = " ++ string_of_Z k) ;;
       Ok (negb b)) data
  = Ok (filter (fun r => negb (py_eq (lookup r "id") (VInt k))) data).
Proof.
  induction data as [|r data IH]; [reflexivity|].
  cbn [Core.filter_rows filter]. rewrite evaluate_id_equals, IH.
  cbn [bind]. reflexivity.
Qed.

Lemma filter_ids_length k rows ids :
  Forall2 id_is rows ids ->
  List.length (filter (fun r => negb (py_eq (lookup r "id") (VInt k))) rows)
  = List.length (filter (fun i => negb (i =? k)) ids).
Proof.
  induction 1 as [|r i rows ids H F IH]; [reflexivity|].
  cbn [filter]. unfold lookup at 1. rewrite H, py_eq_ints.
  destruct (i =? k); cbn; auto.
Qed.

Lemma count_removed k ids :
  NoDup ids ->
  len ids - len (filter (fun i => negb (i =? k)) ids)
  = if existsb (Z.eqb k) ids then 1 else 0.
Proof.
  unfold len.
  induction 1 as [|a l Ha ND IH]; [reflexivity|].
  cbn [filter existsb]. rewrite (Z.eqb_sym k a).
  destruct (a =? k) eqn:E; cbn [negb orb List.length].
  - apply Z.eqb_eq in E. subst a.
    assert (N : existsb (Z.eqb k) l = false).
    { destruct (existsb (Z.eqb k) l) eqn:X; [|reflexivity].
      apply existsb_exists in X. destruct X as (x & Hx & Hk).
      apply Z.eqb_eq in Hk. subst x. contradiction. }
    rewrite N in IH. lia.
  - destruct (existsb (Z.eqb k) l); lia.
Qed.

(** Below the command boundary the engine does delete by identity: on a
    table whose rows have distinct integer identities, [delete_rows] with
    the condition [id = k] reports 1 when a row has identity [k] and 0
    otherwise, keeps only rows that were there and whose identity is not
    [k], and a SELECT of everything returns exactly the rows kept. *)
Theorem delete_rows_by_id st t cols k ids :
  has_table st t cols ->
  Forall2 id_is (rows_of st t) ids ->
  NoDup ids ->
  fst (Core.delete_rows t (Some ("id = " ++ string_of_Z k)) "y" st)
  = OStr ((if existsb (Z.eqb k) ids then "1" else "0") ++ " rows deleted") /\
  (forall r,
     In r (rows_of (snd (Core.delete_rows t (Some ("id = " ++ string_of_Z k))
                           "y" st)) t) ->
     In r (rows_of st t) /\ ~ id_is r k) /\
  fst (Core.select_rows t ["*"] None
         (snd (Core.delete_rows t (Some ("id = " ++ string_of_Z k)) "y" st)))
  = ORows (rows_of (snd (Core.delete_rows t (Some ("id = " ++ string_of_Z k))
                           "y" st)) t).
Proof.
  intros HT F ND.
  destruct (table_lookup _ _ _ HT) as (st1 & E1 & E2 & S).
  assert (D : Core.delete_rows t (Some ("id = " ++ string_of_Z k)) "y" st
              = (OStr ((if existsb (Z.eqb k) ids then "1" else "0")
                       ++ " rows deleted"),
                 Utils.write_table_data t
                   (filter (fun r => negb (py_eq (lookup r "id") (VInt k)))
                      (rows_of st t)) st1)).
  { unfold Core.delete_rows.
    change (confirmed "y") with true. cbn [negb]. rewrite E1. cbn [negb].
    change (Core.truthy (Some ("id = " ++ string_of_Z k))) with true.
    cbv iota. unfold Core.the_condition.
    fold (rows_of st1 t). rewrite (same_storage_rows _ _ t S).
    rewrite filter_rows_by_id.
    unfold len at 1 2. rewrite (filter_ids_length k _ _ F).
    replace (List.length (rows_of st t)) with (List.length ids)
      by (symmetry; eapply Forall2_length; eauto).
    fold (len ids). fold (len (filter (fun i => negb (i =? k)) ids)).
    rewrite (count_removed k ids ND).
    destruct (existsb (Z.eqb k) ids); reflexivity. }
  rewrite D. cbn [fst snd]. rewrite rows_of_write.
  split; [reflexivity|split].
  - intros r H. apply filter_In in H. destruct H as [H1 H2].
    split; [exact H1|]. intros I. unfold lookup in H2.
    rewrite I, py_eq_ints, Z.eqb_refl in H2. discriminate.
  - assert (HT' : has_table
                    (Utils.write_table_data t
                       (filter (fun r => negb (py_eq (lookup r "id") (VInt k)))
                          (rows_of st t)) st1) t cols).
    { unfold has_table. rewrite write_table_data_metadata.
      destruct S as (_ & _ & ->). exact HT. }
    destruct (table_lookup _ _ _ HT') as (st2 & E3 & _ & S2).
    unfold Core.select_rows. rewrite E3. cbn [negb Core.truthy].
    cbn [Core.is_star String.eqb Ascii.eqb Bool.eqb negb fst].
    fold (rows_of st2 t). rewrite (same_storage_rows _ _ t S2).
    now rewrite rows_of_write.
Qed.

(** *** The schemas of the stores the engine reaches *)

Lemma keys_set {V : Type} (d : dict V) k v :
  PyDict.keys (PyDict.set d k v)
  = if PyDict.mem d k then PyDict.keys d else (PyDict.keys d ++ [k])%list.
Proof.
  unfold PyDict.mem, PyDict.keys.
  induction d as [|[k' v'] d IH]; cbn; [reflexivity|].
  destruct (String.eqb k' k) eqn:E; cbn.
  - apply String.eqb_eq in E. now subst.
  - rewrite IH. now destruct (PyDict.get d k).
Qed.

Lemma mem_keys_iff {V : Type} (d : dict V) k :
  PyDict.mem d k = true <-> In k (PyDict.keys d).
Proof.
  split; [apply mem_in_keys|].
  intros H. unfold PyDict.mem.
  destruct (PyDict.get d k) eqn:G; [reflexivity|].
  exfalso. induction d as [|[k' v'] d IH]; cbn in *; [auto|].
  destruct (String.eqb k' k) eqn:E; [discriminate|].
  apply String.eqb_neq in E. destruct H as [H|H]; auto.
Qed.

Lemma NoDup_keys_set {V : Type} (d : dict V) k v :
  NoDup (PyDict.keys d) -> NoDup (PyDict.keys (PyDict.set d k v)).
Proof.
  intros ND. rewrite keys_set.
  destruct (PyDict.mem d k) eqn:M; [exact ND|].
  apply NoDup_app; [exact ND|repeat constructor; intros []|].
  intros x Hx [<-|[]]. apply mem_keys_iff in Hx. congruence.
Qed.

Lemma mem_set_keep {V : Type} (d : dict V) k k' v :
  PyDict.mem d k = true -> PyDict.mem (PyDict.set d k' v) k = true.
Proof.
  rewrite !mem_keys_iff, keys_set.
  destruct (PyDict.mem d k'); [auto|]. intros H. apply in_or_app. now left.
Qed.

Lemma update_wf {V : Type} (u d : dict V) k :
  NoDup (PyDict.keys d) -> PyDict.mem d k = true ->
  NoDup (PyDict.keys (PyDict.update d u)) /\ PyDict.mem (PyDict.update d u) k = true.
Proof.
  revert d. induction u as [|[k' v'] u IH]; intros d ND M; cbn; [auto|].
  apply IH; [now apply NoDup_keys_set|now apply mem_set_keep].
Qed.

Lemma created_schema_wf columns :
  wf_schema (PyDict.update DEFAULT_COLUMNS columns).
Proof.
  apply update_wf; [|reflexivity].
  repeat constructor. intros [].
Qed.

Lemma Forall_set {V : Type} (P : string * V -> Prop) (d : dict V) k v :
  Forall P d -> P (k, v) -> Forall P (PyDict.set d k v).
Proof.
  intros F H. induction F as [|[k' v'] d Hd F IH]; cbn.
  - now constructor.
  - destruct (String.eqb k' k); constructor; auto.
Qed.

Lemma Forall_del {V : Type} (P : string * V -> Prop) (d : dict V) k :
  Forall P d -> Forall P (PyDict.del d k).
Proof.
  intros F. induction F as [|[k' v'] d Hd F IH]; cbn; [constructor|].
  destruct (String.eqb k' k); [exact F|now constructor].
Qed.

Lemma get_in {V : Type} (d : dict V) k v :
  PyDict.get d k = Some v -> In (k, v) d.
Proof.
  induction d as [|[k' v'] d IH]; cbn; [discriminate|].
  destruct (String.eqb k' k) eqn:E.
  - apply String.eqb_eq in E. intros [= ->]. left. now subst.
  - intros H. right. now apply IH.
Qed.

Lemma read_then_metadata st :
  current_metadata (snd (Utils.read_table_metadata st)) = current_metadata st.
Proof. now destruct (read_table_metadata_same st) as (_ & _ & H). Qed.

Lemma table_exists_metadata t st :
  current_metadata (snd (Utils.table_exists t st)) = current_metadata st.
Proof. now destruct (table_exists_same t st) as (_ & _ & H). Qed.

Lemma create_table_metadata t cols st :
  current_metadata (snd (Core.create_table t cols st))
  = if PyDict.mem (current_metadata st) t then current_metadata st
    else PyDict.set (current_metadata st) t
           (PyDict.update DEFAULT_COLUMNS cols).
Proof.
  unfold Core.create_table.
  pose proof (table_exists_mem t st) as M.
  pose proof (table_exists_metadata t st) as H1.
  destruct (Utils.table_exists t st) as [ex st1]; cbn [fst snd] in *.
  subst ex. destruct (PyDict.mem (current_metadata st) t); [exact H1|].
  pose proof (read_then_metadata st1) as H2.
  unfold current_metadata at 2 in H2. 
  destruct (Utils.read_table_metadata st1) as [m st2] eqn:R.
  cbn [snd]. rewrite write_table_data_metadata, write_table_metadata_noop.
  unfold current_metadata at 1. cbn.
  f_equal. rewrite <- H1. unfold current_metadata. now rewrite R.
Qed.

Lemma drop_table_metadata t a st :
  current_metadata (snd (Core.drop_table t a st)) = current_metadata st \/
  current_metadata (snd (Core.drop_table t a st))
  = PyDict.del (current_metadata st) t.
Proof.
  unfold Core.drop_table.
  destruct (confirmed a); cbn [negb]; [|now left].
  pose proof (table_exists_metadata t st) as H1.
  destruct (Utils.table_exists t st) as [ex st1]; cbn [fst snd] in *.
  destruct ex; cbn [negb]; [|now left].
  destruct (Utils.read_table_metadata st1) as [m st2] eqn:R.
  right. cbn [snd]. unfold current_metadata at 1. cbn.
  f_equal. rewrite <- H1. unfold current_metadata. now rewrite R.
Qed.

Lemma insert_row_metadata t vs st :
  current_metadata (snd (Core.insert_row t vs st)) = current_metadata st.
Proof.
  unfold Core.insert_row.
  pose proof (table_exists_metadata t st) as H1.
  destruct (Utils.table_exists t st) as [ex st1]; cbn [fst snd] in *.
  destruct ex; cbn [negb]; [|exact H1].
  pose proof (read_then_metadata st1) as H2.
  destruct (Utils.read_table_metadata st1) as [m st2]; cbn [snd] in *.
  destruct (Utils.validate_row_data _ vs); [|cbn; congruence].
  destruct (Core.next_id _); cbn [snd]; [|congruence].
  rewrite write_table_data_metadata. congruence.
Qed.

Lemma update_rows_metadata t us w st :
  current_metadata (snd (Core.update_rows t us w st)) = current_metadata st.
Proof.
  unfold Core.update_rows.
  pose proof (table_exists_metadata t st) as H1.
  destruct (Utils.table_exists t st) as [ex st1]; cbn [fst snd] in *.
  destruct ex; cbn [negb]; [|exact H1].
  pose proof (read_then_metadata st1) as H2.
  destruct (Utils.read_table_metadata st1) as [m st2]; cbn [snd] in *.
  destruct (Core.coerce_updates _ us us) as [[msg|u]|e]; cbn [snd];
    try congruence.
  destruct (Core.apply_updates w u _) as [[d n]|e]; cbn [snd];
    [rewrite write_table_data_metadata|]; congruence.
Qed.

Lemma delete_rows_metadata t w a st :
  current_metadata (snd (Core.delete_rows t w a st)) = current_metadata st.
Proof.
  unfold Core.delete_rows.
  destruct (confirmed a); cbn [negb]; [|reflexivity].
  pose proof (table_exists_metadata t st) as H1.
  destruct (Utils.table_exists t st) as [ex st1]; cbn [fst snd] in *.
  destruct ex; cbn [negb]; [|exact H1].
  destruct (if Core.truthy w then _ else _); cbn [snd];
    [rewrite write_table_data_metadata|]; congruence.
Qed.

(** Every schema of a store the engine reaches has distinct column names
    and the column [id]. *)
Theorem reachable_schemas_wf st : reachable st -> schemas_wf st.
Proof.
  unfold schemas_wf.
  induction 1 as [|t cols st R IH|t a st R IH|t vs st R IH|t cs w st R IH
                  |t us w st R IH|t w a st R IH].
  - constructor.
  - rewrite create_table_metadata.
    destruct (PyDict.mem (current_metadata st) t); [exact IH|].
    apply Forall_set; [exact IH|apply created_schema_wf].
  - destruct (drop_table_metadata t a st) as [-> | ->];
      [exact IH|now apply Forall_del].
  - now rewrite insert_row_metadata.
  - destruct (select_rows_same t cs w st) as (_ & _ & ->). exact IH.
  - now rewrite update_rows_metadata.
  - now rewrite delete_rows_metadata.
Qed.

Lemma reachable_table_wf st t cols :
  reachable st -> has_table st t cols -> wf_schema cols.
Proof.
  intros R H. apply reachable_schemas_wf in R.
  unfold schemas_wf in R. rewrite Forall_forall in R.
  apply (R (t, cols)). now apply get_in.
Qed.

(** *** Writes stay within their table *)

Lemma list_of_append a b :
  list_ascii_of_string (a ++ b)
  = (list_ascii_of_string a ++ list_ascii_of_string b)%list.
Proof. induction a as [|c a IH]; cbn; [reflexivity|now rewrite IH]. Qed.

Lemma list_of_string_inj a b :
  list_ascii_of_string a = list_ascii_of_string b -> a = b.
Proof.
  intros H. rewrite <- (string_of_list_ascii_of_string a),
    <- (string_of_list_ascii_of_string b). now rewrite H.
Qed.

Lemma append_inj_l a b c : a ++ c = b ++ c -> a = b.
Proof.
  intros H. apply list_of_string_inj.
  apply (f_equal list_ascii_of_string) in H.
  rewrite !list_of_append in H. now apply app_inv_tail in H.
Qed.

Lemma data_path_inj t t' : Utils.data_path t = Utils.data_path t' -> t = t'.
Proof.
  unfold Utils.data_path, Utils.path_join, startswith.
  destruct (String.prefix "/" (t ++ ".json")) eqn:P;
    destruct (String.prefix "/" (t' ++ ".json")) eqn:P'; intros H.
  - now apply append_inj_l in H.
  - rewrite H in P. discriminate.
  - rewrite <- H in P'. discriminate.
  - cbn in H. injection H as H. now apply append_inj_l in H.
Qed.

Lemma get_del_other {V : Type} (d : dict V) k k' :
  k <> k' -> PyDict.get (PyDict.del d k) k' = PyDict.get d k'.
Proof.
  intros N. induction d as [|[k0 v0] d IH]; cbn; [reflexivity|].
  destruct (String.eqb k0 k) eqn:E; cbn.
  - apply String.eqb_eq in E. subst k0.
    apply String.eqb_neq in N. now rewrite N.
  - destruct (String.eqb k0 k'); [reflexivity|exact IH].
Qed.

Lemma get_del_same {V : Type} (d : dict V) k :
  NoDup (PyDict.keys d) -> PyDict.get (PyDict.del d k) k = None.
Proof.
  induction d as [|[k0 v0] d IH]; cbn; intros ND; [reflexivity|].
  inversion ND as [|? ? Hk ND']; subst.
  destruct (String.eqb k0 k) eqn:E; cbn.
  - apply String.eqb_eq in E. subst k0. now apply get_absent_key.
  - rewrite E. now apply IH.
Qed.

Lemma keys_del_incl {V : Type} (d : dict V) k x :
  In x (PyDict.keys (PyDict.del d k)) -> In x (PyDict.keys d).
Proof.
  induction d as [|[k0 v0] d IH]; cbn; [auto|].
  destruct (String.eqb k0 k); cbn; [auto|]. intros [H|H]; auto.
Qed.

Lemma NoDup_keys_del {V : Type} (d : dict V) k :
  NoDup (PyDict.keys d) -> NoDup (PyDict.keys (PyDict.del d k)).
Proof.
  induction d as [|[k0 v0] d IH]; cbn; intros ND; [constructor|].
  inversion ND as [|? ? Hk ND']; subst.
  destruct (String.eqb k0 k); [exact ND'|].
  cbn. constructor; [|now apply IH].
  intros H. apply Hk. eapply keys_del_incl; eauto.
Qed.

Lemma rows_of_write_other t t' data st :
  t' <> t -> rows_of (Utils.write_table_data t data st) t' = rows_of st t'.
Proof.
  intros N. unfold rows_of, Utils.write_table_data, Utils.read_table_data.
  rewrite makedirs_data_path. cbn.
  rewrite get_set_other; [reflexivity|].
  intros H. apply data_path_inj in H. congruence.
Qed.

Lemma rows_of_delete_file_other t t' st :
  t' <> t -> rows_of (Utils.delete_table_file t st) t' = rows_of st t'.
Proof.
  intros N. unfold rows_of, Utils.delete_table_file, Utils.read_table_data.
  cbn. rewrite get_del_other; [reflexivity|].
  intros H. apply data_path_inj in H. congruence.
Qed.

Lemma delete_table_file_metadata t st :
  current_metadata (Utils.delete_table_file t st) = current_metadata st.
Proof.
  unfold current_metadata, Utils.read_table_metadata, Utils.delete_table_file.
  cbn. destruct (meta_cache st); reflexivity.
Qed.

Lemma set_cached_metadata m st : current_metadata (Utils.set_cached m st) = m.
Proof. reflexivity. Qed.

Lemma rows_of_set_cached m st t : rows_of (Utils.set_cached m st) t = rows_of st t.
Proof. reflexivity. Qed.

Lemma unchanged_same t st st' :
  same_storage st st' -> unchanged_elsewhere t st st'.
Proof.
  intros S t' _. split; [now apply same_storage_rows|].
  now destruct S as (_ & _ & ->).
Qed.

Lemma unchanged_write t data st st1 :
  same_storage st st1 ->
  unchanged_elsewhere t st (Utils.write_table_data t data st1).
Proof.
  intros S t' N. split.
  - rewrite rows_of_write_other by exact N. now apply same_storage_rows.
  - rewrite write_table_data_metadata. now destruct S as (_ & _ & ->).
Qed.

Lemma insert_row_elsewhere t vs st :
  unchanged_elsewhere t st (snd (Core.insert_row t vs st)).
Proof.
  unfold Core.insert_row.
  pose proof (table_exists_same t st) as H1.
  destruct (Utils.table_exists t st) as [ex st1]; cbn [fst snd] in *.
  destruct ex; cbn [negb]; [|now apply unchanged_same].
  pose proof (read_table_metadata_same st1) as H2.
  destruct (Utils.read_table_metadata st1) as [m st2]; cbn [snd] in *.
  pose proof (same_storage_trans _ _ _ H1 H2) as H3.
  destruct (Utils.validate_row_data _ vs); [|now apply unchanged_same].
  destruct (Core.next_id _); cbn [snd]; [|now apply unchanged_same].
  now apply unchanged_write.
Qed.

Lemma update_rows_elsewhere t us w st :
  unchanged_elsewhere t st (snd (Core.update_rows t us w st)).
Proof.
  unfold Core.update_rows.
  pose proof (table_exists_same t st) as H1.
  destruct (Utils.table_exists t st) as [ex st1]; cbn [fst snd] in *.
  destruct ex; cbn [negb]; [|now apply unchanged_same].
  pose proof (read_table_metadata_same st1) as H2.
  destruct (Utils.read_table_metadata st1) as [m st2]; cbn [snd] in *.
  pose proof (same_storage_trans _ _ _ H1 H2) as H3.
  destruct (Core.coerce_updates _ us us) as [[msg|u]|e]; cbn [snd];
    try now apply unchanged_same.
  destruct (Core.apply_updates w u _) as [[d n]|e]; cbn [snd];
    [now apply unchanged_write|now apply unchanged_same].
Qed.

Lemma delete_rows_elsewhere t w a st :
  unchanged_elsewhere t st (snd (Core.delete_rows t w a st)).
Proof.
  unfold Core.delete_rows.
  destruct (confirmed a); cbn [negb];
    [|apply unchanged_same, same_storage_refl].
  pose proof (table_exists_same t st) as H1.
  destruct (Utils.table_exists t st) as [ex st1]; cbn [fst snd] in *.
  destruct ex; cbn [negb]; [|now apply unchanged_same].
  destruct (if Core.truthy w then _ else _); cbn [snd];
    [now apply unchanged_write|now apply unchanged_same].
Qed.

Lemma create_table_elsewhere t cols st :
  unchanged_elsewhere t st (snd (Core.create_table t cols st)).
Proof.
  intros t' N. split.
  - unfold Core.create_table.
    pose proof (table_exists_same t st) as H1.
    destruct (Utils.table_exists t st) as [ex st1]; cbn [fst snd] in *.
    destruct ex; [now apply same_storage_rows|].
    pose proof (read_table_metadata_same st1) as H2.
    destruct (Utils.read_table_metadata st1) as [m st2]; cbn [snd] in *.
    rewrite rows_of_write_other, write_table_metadata_noop by exact N.
    rewrite rows_of_set_cached.
    apply same_storage_rows. eapply same_storage_trans; eauto.
  - rewrite create_table_metadata.
    destruct (PyDict.mem (current_metadata st) t); [reflexivity|].
    apply get_set_other. congruence.
Qed.

Lemma drop_table_elsewhere t a st :
  unchanged_elsewhere t st (snd (Core.drop_table t a st)).
Proof.
  unfold Core.drop_table.
  destruct (confirmed a); cbn [negb];
    [|apply unchanged_same, same_storage_refl].
  pose proof (table_exists_same t st) as H1.
  destruct (Utils.table_exists t st) as [ex st1]; cbn [fst snd] in *.
  destruct ex; cbn [negb]; [|now apply unchanged_same].
  pose proof (read_table_metadata_same st1) as H2.
  destruct (Utils.read_table_metadata st1) as [m st2] eqn:R; cbn [snd] in *.
  intros t' N. split.
  - rewrite rows_of_delete_file_other, write_table_metadata_noop by exact N.
    rewrite rows_of_set_cached.
    apply same_storage_rows. eapply same_storage_trans; eauto.
  - rewrite delete_table_file_metadata, write_table_metadata_noop.
    rewrite set_cached_metadata.
    rewrite get_del_other by congruence.
    destruct H1 as (_ & _ & <-). unfold current_metadata. now rewrite R.
Qed.

(** *** Tables that are missing, present, dropped *)

Lemma table_exists_false_lookup t st :
  fst (Utils.table_exists t st) = false ->
  exists st1, Utils.table_exists t st = (false, st1) /\ same_storage st st1.
Proof.
  intros H. pose proof (table_exists_same t st) as S.
  destruct (Utils.table_exists t st) as [ex st1]; cbn in *. subst ex.
  now exists st1.
Qed.

(** X2. On a table that does not exist, insert_row, update_rows and (once
    confirmed) drop_table and delete_rows answer 'Error: Table does not
    exist' and leave the files and the metadata unchanged. *)
Theorem missing_table_is_reported t st a :
  fst (Utils.table_exists t st) = false ->
  confirmed a = true ->
  (fst (Core.drop_table t a st) = OStr "Error: Table does not exist" /\
   same_storage st (snd (Core.drop_table t a st))) /\
  (forall vs,
     fst (Core.insert_row t vs st) = OStr "Error: Table does not exist" /\
     same_storage st (snd (Core.insert_row t vs st))) /\
  (forall us w,
     fst (Core.update_rows t us w st) = OStr "Error: Table does not exist" /\
     same_storage st (snd (Core.update_rows t us w st))) /\
  (forall w,
     fst (Core.delete_rows t w a st) = OStr "Error: Table does not exist" /\
     same_storage st (snd (Core.delete_rows t w a st))).
Proof.
  intros H C.
  destruct (table_exists_false_lookup t st H) as (st1 & E & S).
  unfold Core.drop_table, Core.insert_row, Core.update_rows, Core.delete_rows.
  rewrite C, E. cbn [negb fst snd]. repeat split; apply S.
Qed.

Lemma missing_table_is_reported_witness :
  fst (Core.insert_row "u" [VInt 7] demo_store)
  = OStr "Error: Table does not exist" /\
  fst (Core.delete_rows "u" None "y" demo_store)
  = OStr "Error: Table does not exist".
Proof.
  destruct (missing_table_is_reported "u" demo_store "y")
    as (_ & I & _ & D).
  - reflexivity.
  - reflexivity.
  - split; [apply (I [VInt 7])|apply (D None)].
Defined.

(** X3. create_table on a name that already exists answers 'Error: Table
    already exists' and changes neither the files nor the metadata. *)
Theorem create_table_existing_refused t cols st :
  fst (Utils.table_exists t st) = true ->
  fst (Core.create_table t cols st) = OStr "Error: Table already exists" /\
  same_storage st (snd (Core.create_table t cols st)).
Proof.
  intros H. unfold Core.create_table.
  pose proof (table_exists_same t st) as S.
  destruct (Utils.table_exists t st) as [ex st1]; cbn in *. subst ex.
  split; [reflexivity|exact S].
Qed.

Lemma create_table_existing_refused_witness :
  fst (Core.create_table "t" [("n", "int")] demo_store)
  = OStr "Error: Table already exists" /\
  same_storage demo_store
    (snd (Core.create_table "t" [("n", "int")] demo_store)).
Proof.
  apply (create_table_existing_refused "t" [("n", "int")] demo_store).
  reflexivity.
Defined.

Lemma write_table_data_files t data st :
  data_files (Utils.write_table_data t data st)
  = PyDict.set (data_files st) (Utils.data_path t) data.
Proof. unfold Utils.write_table_data. now rewrite makedirs_data_path. Qed.

Lemma store_wf_same st st' : same_storage st st' -> store_wf st -> store_wf st'.
Proof. intros (_ & E1 & E2) [W1 W2]. split; congruence. Qed.

Lemma store_wf_write t data st :
  store_wf st -> store_wf (Utils.write_table_data t data st).
Proof.
  intros [W1 W2]. split.
  - now rewrite write_table_data_metadata.
  - rewrite write_table_data_files. now apply NoDup_keys_set.
Qed.

Lemma create_table_store_wf t cols st :
  store_wf st -> store_wf (snd (Core.create_table t cols st)).
Proof.
  intros W. split.
  - rewrite create_table_metadata.
    destruct (PyDict.mem (current_metadata st) t); [apply W|].
    apply NoDup_keys_set, W.
  - unfold Core.create_table.
    pose proof (table_exists_same t st) as H1.
    destruct (Utils.table_exists t st) as [ex st1]; cbn [fst snd] in *.
    destruct ex; [apply (store_wf_same _ _ H1 W)|].
    pose proof (read_table_metadata_same st1) as H2.
    destruct (Utils.read_table_metadata st1) as [m st2]; cbn [snd] in *.
    rewrite write_table_data_files, write_table_metadata_noop. cbn.
    apply NoDup_keys_set.
    apply (store_wf_same _ _ (same_storage_trans _ _ _ H1 H2) W).
Qed.

Lemma drop_table_store_wf t a st :
  store_wf st -> store_wf (snd (Core.drop_table t a st)).
Proof.
  intros W. unfold Core.drop_table.
  destruct (confirmed a); cbn [negb]; [|exact W].
  pose proof (table_exists_same t st) as H1.
  destruct (Utils.table_exists t st) as [ex st1]; cbn [fst snd] in *.
  destruct ex; cbn [negb]; [|apply (store_wf_same _ _ H1 W)].
  pose proof (read_table_metadata_same st1) as H2.
  destruct (Utils.read_table_metadata st1) as [m st2] eqn:R; cbn [snd] in *.
  pose proof (store_wf_same _ _ H1 W) as [W1 W2].
  split.
  - rewrite delete_table_file_metadata, write_table_metadata_noop.
    rewrite set_cached_metadata. apply NoDup_keys_del.
    unfold current_metadata in W1. now rewrite R in W1.
  - cbn. apply NoDup_keys_del. destruct H2 as (_ & -> & _). exact W2.
Qed.

Lemma insert_row_store_wf t vs st :
  store_wf st -> store_wf (snd (Core.insert_row t vs st)).
Proof.
  intros W. unfold Core.insert_row.
  pose proof (table_exists_same t st) as H1.
  destruct (Utils.table_exists t st) as [ex st1]; cbn [fst snd] in *.
  destruct ex; cbn [negb]; [|apply (store_wf_same _ _ H1 W)].
  pose proof (read_table_metadata_same st1) as H2.
  destruct (Utils.read_table_metadata st1) as [m st2]; cbn [snd] in *.
  pose proof (store_wf_same _ _ (same_storage_trans _ _ _ H1 H2) W) as W'.
  destruct (Utils.validate_row_data _ vs); [|exact W'].
  destruct (Core.next_id _); cbn [snd]; [|exact W'].
  now apply store_wf_write.
Qed.

Lemma update_rows_store_wf t us w st :
  store_wf st -> store_wf (snd (Core.update_rows t us w st)).
Proof.
  intros W. unfold Core.update_rows.
  pose proof (table_exists_same t st) as H1.
  destruct (Utils.table_exists t st) as [ex st1]; cbn [fst snd] in *.
  destruct ex; cbn [negb]; [|apply (store_wf_same _ _ H1 W)].
  pose proof (read_table_metadata_same st1) as H2.
  destruct (Utils.read_table_metadata st1) as [m st2]; cbn [snd] in *.
  pose proof (store_wf_same _ _ (same_storage_trans _ _ _ H1 H2) W) as W'.
  destruct (Core.coerce_updates _ us us) as [[msg|u]|e]; cbn [snd];
    try exact W'.
  destruct (Core.apply_updates w u _) as [[d n]|e]; cbn [snd];
    [now apply store_wf_write|exact W'].
Qed.

Lemma delete_rows_store_wf t w a st :
  store_wf st -> store_wf (snd (Core.delete_rows t w a st)).
Proof.
  intros W. unfold Core.delete_rows.
  destruct (confirmed a); cbn [negb]; [|exact W].
  pose proof (table_exists_same t st) as H1.
  destruct (Utils.table_exists t st) as [ex st1]; cbn [fst snd] in *.
  pose proof (store_wf_same _ _ H1 W) as W'.
  destruct ex; cbn [negb]; [|exact W'].
  destruct (if Core.truthy w then _ else _); cbn [snd];
    [now apply store_wf_write|exact W'].
Qed.

Lemma reachable_store_wf st : reachable st -> store_wf st.
Proof.
  induction 1.
  - split; constructor.
  - now apply create_table_store_wf.
  - now apply drop_table_store_wf.
  - now apply insert_row_store_wf.
  - eapply store_wf_same; [apply select_rows_same|assumption].
  - now apply update_rows_store_wf.
  - now apply delete_rows_store_wf.
Qed.

Lemma select_rows_missing t cs w st :
  fst (Utils.table_exists t st) = false ->
  fst (Core.select_rows t cs w st) = OStr "Error: Table does not exist".
Proof.
  unfold Core.select_rows.
  destruct (Utils.table_exists t st) as [ex st1]; cbn [fst].
  intros ->. reflexivity.
Qed.

(** X4. A confirmed drop_table of an existing table answers 'Table dropped
    successfully'; afterwards the table does not exist, no rows are stored
    for it, and select_rows on it reports that the table does not exist. *)
Theorem drop_table_removes st t cols a cs w :
  store_wf st ->
  has_table st t cols ->
  confirmed a = true ->
  fst (Core.drop_table t a st) = OStr "Table dropped successfully" /\
  fst (Utils.table_exists t (snd (Core.drop_table t a st))) = false /\
  rows_of (snd (Core.drop_table t a st)) t = [] /\
  fst (Core.select_rows t cs w (snd (Core.drop_table t a st)))
  = OStr "Error: Table does not exist".
Proof.
  intros [W1 W2] HT C.
  destruct (table_lookup _ _ _ HT) as (st1 & E1 & E2 & S).
  assert (D : Core.drop_table t a st
              = (OStr msg_table_dropped,
                 Utils.delete_table_file t
                   (Utils.set_cached (PyDict.del (current_metadata st) t) st1))).
  { unfold Core.drop_table. rewrite C, E1. cbn [negb]. rewrite E2.
    now rewrite write_table_metadata_noop. }
  rewrite D. cbn [fst snd].
  assert (X : fst (Utils.table_exists t
                     (Utils.delete_table_file t
                        (Utils.set_cached (PyDict.del (current_metadata st) t)
                           st1))) = false).
  { rewrite table_exists_mem, delete_table_file_metadata, set_cached_metadata.
    unfold PyDict.mem. now rewrite get_del_same. }
  split; [reflexivity|split; [exact X|split]].
  - unfold rows_of, Utils.read_table_data, Utils.delete_table_file. cbn.
    rewrite get_del_same; [reflexivity|].
    destruct S as (_ & -> & _). exact W2.
  - now apply select_rows_missing.
Qed.

Lemma drop_table_removes_witness :
  fst (Core.drop_table "t" "y" demo_store) = OStr "Table dropped successfully" /\
  rows_of (snd (Core.drop_table "t" "y" demo_store)) "t" = [] /\
  fst (Core.select_rows "t" ["*"] None (snd (Core.drop_table "t" "y" demo_store)))
  = OStr "Error: Table does not exist".
Proof.
  destruct (drop_table_removes demo_store "t" demo_schema "y" ["*"] None)
    as (H1 & _ & H3 & H4).
  - split; vm_compute; repeat constructor; intuition discriminate.
  - reflexivity.
  - reflexivity.
  - split; [assumption|split; assumption].
Defined.

Lemma del_set_fresh {V : Type} (d : dict V) k v :
  PyDict.get d k = None -> PyDict.del (PyDict.set d k v) k = d.
Proof.
  induction d as [|[k0 v0] d IH]; cbn.
  - now rewrite String.eqb_refl.
  - destruct (String.eqb k0 k) eqn:E; [discriminate|].
    intros H. cbn. rewrite E. f_equal. now apply IH.
Qed.

(** X5. Creating a table whose name and data file are unused and dropping it
    again (confirmed) gives back the files and the metadata exactly as they
    were. *)
Theorem create_then_drop_restores st t cols a :
  fst (Utils.table_exists t st) = false ->
  PyDict.get (data_files st) (Utils.data_path t) = None ->
  confirmed a = true ->
  fst (Core.drop_table t a (snd (Core.create_table t cols st)))
  = OStr "Table dropped successfully" /\
  same_storage st (snd (Core.drop_table t a (snd (Core.create_table t cols st)))).
Proof.
  intros NE NF C.
  assert (M : PyDict.get (current_metadata st) t = None).
  { rewrite table_exists_mem in NE. unfold PyDict.mem in NE.
    now destruct (PyDict.get (current_metadata st) t). }
  destruct (table_exists_false_lookup t st NE) as (st1 & E & S).
  unfold Core.create_table. rewrite E.
  pose proof (read_table_metadata_same st1) as S2.
  assert (R : fst (Utils.read_table_metadata st1) = current_metadata st)
    by exact (proj2 (proj2 S)).
  destruct (Utils.read_table_metadata st1) as [m st2]; cbn [fst snd] in *.
  subst m. rewrite write_table_metadata_noop.
  set (sch := PyDict.update DEFAULT_COLUMNS cols).
  set (st3 := Utils.write_table_data t []
                (Utils.set_cached (PyDict.set (current_metadata st) t sch) st2)).
  assert (HT : has_table st3 t sch).
  { unfold has_table, st3. rewrite write_table_data_metadata.
    rewrite set_cached_metadata. apply get_set_same. }
  destruct (table_lookup _ _ _ HT) as (st4 & E4 & E5 & S4).
  unfold Core.drop_table. rewrite C, E4. cbn [negb]. rewrite E5.
  rewrite write_table_metadata_noop. cbn [fst snd].
  split; [reflexivity|].
  pose proof (same_storage_trans _ _ _ S S2) as S12.
  destruct S12 as (F1 & F2 & F3). destruct S4 as (G1 & G2 & G3).
  unfold same_storage.
  rewrite delete_table_file_metadata, set_cached_metadata.
  unfold Utils.delete_table_file, Utils.set_cached. cbn [meta_file data_files].
  rewrite G1, G2. unfold st3.
  rewrite write_table_data_files. cbn [meta_file data_files Utils.set_cached].
  unfold st3 in G3. rewrite write_table_data_metadata, set_cached_metadata in G3.
  repeat split.
  - unfold Utils.write_table_data. rewrite makedirs_data_path. cbn. exact F1.
  - rewrite F2. now apply del_set_fresh.
  - unfold st3. rewrite write_table_data_metadata, set_cached_metadata.
    now apply del_set_fresh.
Qed.

Lemma create_then_drop_restores_witness :
  same_storage demo_store
    (snd (Core.drop_table "u" "y"
            (snd (Core.create_table "u" [("n", "int")] demo_store)))).
Proof.
  destruct (create_then_drop_restores demo_store "u" [("n", "int")] "y")
    as (_ & H); [reflexivity..|exact H].
Defined.

(** *** LIST TABLES and the metadata file *)

(** X6. list_tables returns the table names in creation order and changes no
    storage: a name is listed exactly when table_exists answers yes, and a
    newly created table is listed last. *)
Theorem list_tables_lists_existing st :
  fst (Core.list_tables st) = ONames (PyDict.keys (current_metadata st)) /\
  same_storage st (snd (Core.list_tables st)) /\
  (forall t, In t (PyDict.keys (current_metadata st)) <->
             fst (Utils.table_exists t st) = true) /\
  (forall t cols,
     fst (Utils.table_exists t st) = false ->
     fst (Core.list_tables (snd (Core.create_table t cols st)))
     = ONames (PyDict.keys (current_metadata st) ++ [t])).
Proof.
  assert (L : forall s, fst (Core.list_tables s)
                        = ONames (PyDict.keys (current_metadata s))).
  { intros s. unfold Core.list_tables, current_metadata.
    now destruct (Utils.read_table_metadata s). }
  split; [apply L|split; [|split]].
  - unfold Core.list_tables.
    pose proof (read_table_metadata_same st) as H.
    now destruct (Utils.read_table_metadata st).
  - intros t. rewrite table_exists_mem. symmetry. apply mem_keys_iff.
  - intros t cols H. rewrite L, create_table_metadata.
    rewrite table_exists_mem in H. rewrite H.
    rewrite keys_set, H. reflexivity.
Qed.

Lemma write_table_data_meta_file t data st :
  meta_file (Utils.write_table_data t data st) = meta_file st.
Proof. unfold Utils.write_table_data. now rewrite makedirs_data_path. Qed.

Lemma same_storage_meta_file st st' :
  same_storage st st' -> meta_file st' = meta_file st.
Proof. now intros (H & _). Qed.

Lemma create_table_meta_file t cols st :
  meta_file (snd (Core.create_table t cols st)) = meta_file st.
Proof.
  unfold Core.create_table.
  pose proof (table_exists_same t st) as H1.
  destruct (Utils.table_exists t st) as [ex st1]; cbn [fst snd] in *.
  destruct ex; [apply H1|].
  pose proof (read_table_metadata_same st1) as H2.
  destruct (Utils.read_table_metadata st1) as [m st2]; cbn [snd] in *.
  rewrite write_table_data_meta_file, write_table_metadata_noop. cbn.
  destruct H1 as (<- & _). apply H2.
Qed.

Lemma drop_table_meta_file t a st :
  meta_file (snd (Core.drop_table t a st)) = meta_file st.
Proof.
  unfold Core.drop_table.
  destruct (confirmed a); cbn [negb]; [|reflexivity].
  pose proof (table_exists_same t st) as H1.
  destruct (Utils.table_exists t st) as [ex st1]; cbn [fst snd] in *.
  destruct ex; cbn [negb]; [|apply H1].
  pose proof (read_table_metadata_same st1) as H2.
  destruct (Utils.read_table_metadata st1) as [m st2]; cbn [snd] in *.
  rewrite write_table_metadata_noop. cbn.
  destruct H1 as (<- & _). apply H2.
Qed.

Lemma insert_row_meta_file t vs st :
  meta_file (snd (Core.insert_row t vs st)) = meta_file st.
Proof.
  unfold Core.insert_row.
  pose proof (table_exists_same t st) as H1.
  destruct (Utils.table_exists t st) as [ex st1]; cbn [fst snd] in *.
  destruct ex; cbn [negb]; [|apply H1].
  pose proof (read_table_metadata_same st1) as H2.
  destruct (Utils.read_table_metadata st1) as [m st2]; cbn [snd] in *.
  pose proof (same_storage_meta_file _ _ (same_storage_trans _ _ _ H1 H2)) as H.
  destruct (Utils.validate_row_data _ vs); [|exact H].
  destruct (Core.next_id _); cbn [snd]; [|exact H].
  now rewrite write_table_data_meta_file.
Qed.

Lemma update_rows_meta_file t us w st :
  meta_file (snd (Core.update_rows t us w st)) = meta_file st.
Proof.
  unfold Core.update_rows.
  pose proof (table_exists_same t st) as H1.
  destruct (Utils.table_exists t st) as [ex st1]; cbn [fst snd] in *.
  destruct ex; cbn [negb]; [|apply H1].
  pose proof (read_table_metadata_same st1) as H2.
  destruct (Utils.read_table_metadata st1) as [m st2]; cbn [snd] in *.
  pose proof (same_storage_meta_file _ _ (same_storage_trans _ _ _ H1 H2)) as H.
  destruct (Core.coerce_updates _ us us) as [[msg|u]|e]; cbn [snd];
    try exact H.
  destruct (Core.apply_updates w u _) as [[d n]|e]; cbn [snd];
    [now rewrite write_table_data_meta_file|exact H].
Qed.

Lemma delete_rows_meta_file t w a st :
  meta_file (snd (Core.delete_rows t w a st)) = meta_file st.
Proof.
  unfold Core.delete_rows.
  destruct (confirmed a); cbn [negb]; [|reflexivity].
  pose proof (table_exists_same t st) as H1.
  destruct (Utils.table_exists t st) as [ex st1]; cbn [fst snd] in *.
  destruct ex; cbn [negb]; [|apply H1].
  destruct (if Core.truthy w then _ else _); cbn [snd];
    [rewrite write_table_data_meta_file|]; apply H1.
Qed.

Lemma reachable_meta_file st : reachable st -> meta_file st = None.
Proof.
  induction 1.
  - reflexivity.
  - now rewrite create_table_meta_file.
  - now rewrite drop_table_meta_file.
  - now rewrite insert_row_meta_file.
  - now rewrite (same_storage_meta_file _ _ (select_rows_same _ _ _ _)).
  - now rewrite update_rows_meta_file.
  - now rewrite delete_rows_meta_file.
Qed.

(** *** UPDATE, SELECT and DELETE over the rows *)

Lemma apply_updates_total w u data bs :
  Forall2 (fun r b => row_matches w r = Ok b) data bs ->
  Core.apply_updates w u data = Ok (updated_rows u data bs, count_true bs).
Proof.
  induction 1 as [|r b data bs H F IH]; [reflexivity|].
  cbn [Core.apply_updates]. fold (row_matches w r). rewrite H, IH.
  cbn [bind fst snd]. unfold updated_rows, count_true, len.
  destruct b; cbn [combine List.map fst snd filter List.length];
    [rewrite Nat2Z.inj_succ|]; repeat f_equal; lia.
Qed.

Lemma set_middle {V : Type} (pre post : dict V) c v x :
  ~ In c (PyDict.keys pre) ->
  PyDict.set (pre ++ (c, v) :: post)%list c x = (pre ++ (c, x) :: post)%list.
Proof.
  induction pre as [|[k0 v0] pre IH]; cbn; intros N.
  - now rewrite String.eqb_refl.
  - destruct (String.eqb k0 c) eqn:E.
    + apply String.eqb_eq in E. exfalso. auto.
    + f_equal. apply IH. auto.
Qed.

Lemma coerce_updates_ok cols items items' pre :
  NoDup (PyDict.keys (pre ++ items)%list) ->
  set_casts cols items items' ->
  Core.coerce_updates cols items (pre ++ items)%list
  = Ok (inr (pre ++ items')%list).
Proof.
  intros ND F. revert pre ND.
  induction F as [|[c v] [c' x] items items' (E & M & C) F IH]; intros pre ND.
  - reflexivity.
  - cbn [fst snd] in *. subst c'.
    cbn [Core.coerce_updates]. rewrite M. cbn [negb].
    fold (declared_type cols c). rewrite C.
    rewrite set_middle.
    + change (pre ++ (c, x) :: items)%list
        with (pre ++ [(c, x)] ++ items)%list.
      rewrite List.app_assoc. rewrite IH.
      * now rewrite <- List.app_assoc.
      * rewrite <- List.app_assoc. cbn.
        unfold PyDict.keys in *. rewrite List.map_app in *. exact ND.
    + unfold PyDict.keys in ND. rewrite List.map_app in ND. cbn in ND.
      apply NoDup_remove_2 in ND. intros H. apply ND.
      apply in_or_app. now left.
Qed.

Lemma set_casts_keys cols us u :
  set_casts cols us u -> PyDict.keys u = PyDict.keys us.
Proof.
  unfold PyDict.keys.
  induction 1 as [|[c v] [c' x] us u (E & _) F IH]; [reflexivity|].
  cbn [List.map fst] in *. now rewrite E, IH.
Qed.

Lemma handle_is_error e : is_error (handle_db_errors (Raise e)).
Proof. destruct e as [m|m|m]; exists m; cbn; auto. Qed.

(** X8. When every SET value casts to the type of its column and the
    condition evaluates on every row, update_rows reports the number of
    matching rows and replaces exactly the matching rows, in place and in
    order, by the row updated with the cast values: a SET column takes the
    cast value, every other column keeps its value. *)
Theorem update_rows_applies st t cols us u w bs :
  has_table st t cols ->
  NoDup (PyDict.keys us) ->
  set_casts cols us u ->
  Forall2 (fun r b => row_matches w r = Ok b) (rows_of st t) bs ->
  fst (Core.update_rows t us w st)
  = OStr (string_of_Z (count_true bs) ++ " rows updated") /\
  rows_of (snd (Core.update_rows t us w st)) t
  = updated_rows u (rows_of st t) bs /\
  List.length (rows_of (snd (Core.update_rows t us w st)) t)
  = List.length (rows_of st t) /\
  (forall r c,
     PyDict.get (PyDict.update r u) c
     = match PyDict.get u c with
       | Some x => Some x
       | None => PyDict.get r c
       end).
Proof.
  intros HT ND SC F.
  destruct (table_lookup _ _ _ HT) as (st1 & E1 & E2 & S).
  unfold Core.update_rows. rewrite E1. cbn [negb]. rewrite E2.
  unfold Core.columns_of. rewrite HT.
  pose proof (coerce_updates_ok cols us u [] ND SC) as CU.
  cbn [List.app] in CU. rewrite CU.
  fold (rows_of st1 t). rewrite (same_storage_rows _ _ t S).
  rewrite (apply_updates_total _ _ _ _ F). cbn [fst snd].
  rewrite rows_of_write.
  split; [reflexivity|split; [reflexivity|split]].
  - unfold updated_rows. rewrite length_map, length_combine.
    apply Forall2_length in F. lia.
  - intros r c. apply get_update.
    now rewrite (set_casts_keys _ _ _ SC).
Qed.

Lemma update_rows_applies_witness :
  fst (Core.update_rows "t" [("ok", VStr "no")] (Some "name = 'a'") demo_store)
  = OStr "1 rows updated" /\
  rows_of (snd (Core.update_rows "t" [("ok", VStr "no")] (Some "name = 'a'")
                  demo_store)) "t"
  = [[("name", VStr "a"); ("ok", VBool false); ("id", VInt 1)];
     [("name", VStr "5"); ("ok", VBool false); ("id", VInt 2)]].
Proof.
  destruct (update_rows_applies demo_store "t" demo_schema
              [("ok", VStr "no")] [("ok", VBool false)] (Some "name = 'a'")
              [true; false]) as (H1 & H2 & _).
  - reflexivity.
  - repeat constructor. intros [].
  - repeat constructor.
  - repeat constructor.
  - split; [exact H1|exact H2].
Defined.

Lemma filter_rows_total keep data bs :
  Forall2 (fun r b => keep r = Ok b) data bs ->
  Core.filter_rows keep data = Ok (rows_where (fun b => b) data bs).
Proof.
  induction 1 as [|r b data bs H F IH]; [reflexivity|].
  cbn [Core.filter_rows]. rewrite H, IH. cbn [bind].
  unfold rows_where. cbn [combine filter snd]. now destruct b.
Qed.

Lemma filter_rows_total_neg keep data bs :
  Forall2 (fun r b => keep r = Ok b) data bs ->
  Core.filter_rows (fun r => b <- keep r ;; Ok (negb b)) data
  = Ok (rows_where negb data bs).
Proof.
  induction 1 as [|r b data bs H F IH]; [reflexivity|].
  cbn [Core.filter_rows]. rewrite H, IH. cbn [bind].
  unfold rows_where. cbn [combine filter snd]. now destruct b.
Qed.

Lemma rows_where_lengths data bs :
  List.length data = List.length bs ->
  len (rows_where (fun b => b) data bs) = count_true bs /\
  len data - len (rows_where negb data bs) = count_true bs.
Proof.
  unfold rows_where, count_true, len. rewrite !length_map.
  revert bs. induction data as [|r data IH]; intros [|b bs] L;
    try discriminate; [cbn; lia|].
  cbn [combine filter snd List.length]. injection L as L.
  destruct (IH bs L) as [I1 I2].
  destruct b; cbn [negb List.length]; lia.
Qed.

(** X9. For a non-empty condition that evaluates on every row, SELECT *
    returns the matching rows in stored order, and a confirmed DELETE keeps
    exactly the other rows, in order, and reports the number of matching
    rows; the table and its schema remain. *)
Theorem select_and_delete_partition st t cols cond a bs :
  has_table st t cols ->
  cond <> "" ->
  confirmed a = true ->
  Forall2 (fun r b => Parser.evaluate_condition r cond = Ok b)
          (rows_of st t) bs ->
  fst (Core.select_rows t ["*"] (Some cond) st)
  = ORows (rows_where (fun b => b) (rows_of st t) bs) /\
  fst (Core.delete_rows t (Some cond) a st)
  = OStr (string_of_Z (count_true bs) ++ " rows deleted") /\
  rows_of (snd (Core.delete_rows t (Some cond) a st)) t
  = rows_where negb (rows_of st t) bs /\
  len (rows_where (fun b => b) (rows_of st t) bs) = count_true bs /\
  has_table (snd (Core.delete_rows t (Some cond) a st)) t cols.
Proof.
  intros HT N C F.
  destruct (table_lookup _ _ _ HT) as (st1 & E1 & E2 & S).
  assert (T : Core.truthy (Some cond) = true).
  { cbn. apply String.eqb_neq in N. now rewrite N. }
  destruct (rows_where_lengths _ _ (Forall2_length F)) as [L1 L2].
  unfold Core.select_rows, Core.delete_rows.
  rewrite C, E1, T. cbn [negb Core.the_condition].
  fold (rows_of st1 t). rewrite (same_storage_rows _ _ t S).
  rewrite (filter_rows_total _ _ _ F), (filter_rows_total_neg _ _ _ F).
  cbn [fst snd Core.is_star String.eqb Ascii.eqb Bool.eqb negb].
  rewrite rows_of_write, L2.
  repeat split; try reflexivity; try exact L1.
  unfold has_table. rewrite write_table_data_metadata.
  destruct S as (_ & _ & ->). exact HT.
Qed.

Lemma select_and_delete_partition_witness :
  fst (Core.select_rows "t" ["*"] (Some "id = 1") demo_store)
  = ORows [[("name", VStr "a"); ("ok", VBool true); ("id", VInt 1)]] /\
  fst (Core.delete_rows "t" (Some "id = 1") "y" demo_store)
  = OStr "1 rows deleted" /\
  rows_of (snd (Core.delete_rows "t" (Some "id = 1") "y" demo_store)) "t"
  = [[("name", VStr "5"); ("ok", VBool false); ("id", VInt 2)]].
Proof.
  destruct (select_and_delete_partition demo_store "t" demo_schema "id = 1" "y"
              [true; false]) as (H1 & H2 & H3 & _).
  - reflexivity.
  - discriminate.
  - reflexivity.
  - repeat constructor.
  - split; [assumption|split; assumption].
Defined.

Lemma filter_rows_raise keep data r e :
  In r data -> keep r = Raise e ->
  exists e', Core.filter_rows keep data = Raise e'.
Proof.
  induction data as [|r0 data IH]; intros HIn H; [destruct HIn|].
  cbn [Core.filter_rows].
  destruct (keep r0) as [b|e0] eqn:K; [|now exists e0].
  destruct HIn as [->|HIn]; [congruence|].
  destruct (IH HIn H) as [e' ->]. now exists e'.
Qed.

Lemma apply_updates_raise w u data r e :
  In r data -> row_matches w r = Raise e ->
  exists e', Core.apply_updates w u data = Raise e'.
Proof.
  induction data as [|r0 data IH]; intros HIn H; [destruct HIn|].
  cbn [Core.apply_updates]. fold (row_matches w r0).
  destruct (row_matches w r0) as [b|e0] eqn:K; [|now exists e0].
  destruct HIn as [->|HIn]; [congruence|].
  destruct (IH HIn H) as [e' ->]. now exists e'.
Qed.

(** X10. If the condition raises on some stored row, select_rows,
    update_rows and a confirmed delete_rows report an error, and update_rows
    and delete_rows leave the files and the metadata unchanged. *)
Theorem failing_scan_writes_nothing st t cols cond r e :
  has_table st t cols ->
  cond <> "" ->
  In r (rows_of st t) ->
  Parser.evaluate_condition r cond = Raise e ->
  (forall cs,
     is_error (fst (Core.select_rows t cs (Some cond) st))) /\
  (forall us,
     is_error (fst (Core.update_rows t us (Some cond) st)) /\
     same_storage st (snd (Core.update_rows t us (Some cond) st))) /\
  (forall a,
     confirmed a = true ->
     is_error (fst (Core.delete_rows t (Some cond) a st)) /\
     same_storage st (snd (Core.delete_rows t (Some cond) a st))).
Proof.
  intros HT N HIn H.
  destruct (table_lookup _ _ _ HT) as (st1 & E1 & E2 & S).
  assert (T : Core.truthy (Some cond) = true).
  { cbn. apply String.eqb_neq in N. now rewrite N. }
  assert (HIn1 : In r (Utils.read_table_data t st1)).
  { fold (rows_of st1 t). now rewrite (same_storage_rows _ _ t S). }
  split; [|split].
  - intros cs. unfold Core.select_rows. rewrite E1, T. cbn [negb].
    destruct (filter_rows_raise
                (fun r0 => Parser.evaluate_condition r0
                             (Core.the_condition (Some cond)))
                _ r e HIn1 H) as [e' ->].
    apply handle_is_error.
  - intros us. unfold Core.update_rows. rewrite E1. cbn [negb]. rewrite E2.
    destruct (Core.coerce_updates _ us us) as [[msg|u]|e0] eqn:C; cbn [fst snd].
    + split; [|exact S].
      destruct (coerce_updates_inl _ _ _ _ C) as [m ->]. exists m. now left.
    + assert (M : row_matches (Some cond) r = Raise e).
      { unfold row_matches. now rewrite T. }
      destruct (apply_updates_raise (Some cond) u _ r e HIn1 M) as [e' ->].
      split; [apply handle_is_error|exact S].
    + split; [apply handle_is_error|exact S].
  - intros a C. unfold Core.delete_rows. rewrite C, E1, T. cbn [negb].
    assert (K : (b <- Parser.evaluate_condition r cond ;; Ok (negb b))
                = Raise e) by now rewrite H.
    destruct (filter_rows_raise
                (fun r => b <- Parser.evaluate_condition r
                            (Core.the_condition (Some cond)) ;; Ok (negb b))
                _ r e HIn1 K) as [e' ->].
    split; [apply handle_is_error|exact S].
Qed.

Lemma failing_scan_writes_nothing_witness :
  is_error (fst (Core.select_rows "t" ["*"] (Some "name > 3") demo_store)) /\
  same_storage demo_store
    (snd (Core.delete_rows "t" (Some "name > 3") "y" demo_store)).
Proof.
  destruct (failing_scan_writes_nothing demo_store "t" demo_schema "name > 3"
              [("name", VStr "a"); ("ok", VBool true); ("id", VInt 1)]
              (TypeError "'>' not supported between instances of 'str' and 'int'"))
    as (H1 & _ & H3).
  - reflexivity.
  - discriminate.
  - left. reflexivity.
  - reflexivity.
  - split; [apply H1|apply (H3 "y"); reflexivity].
Defined.

(** *** Conditions without an operator, projections, identities *)

Lemma row_matches_every w r : matches_every_row w -> row_matches w r = Ok true.
Proof.
  unfold row_matches. intros [T|F]; [now rewrite T|].
  destruct (Core.truthy w); [|reflexivity]. cbn [negb].
  unfold Parser.evaluate_condition. rewrite evaluate_with_first.
  unfold first_operator in F. now rewrite F.
Qed.

Lemma filter_rows_none keep data :
  (forall r, keep r = Ok false) -> Core.filter_rows keep data = Ok [].
Proof.
  intros K. induction data as [|r data IH]; [reflexivity|].
  cbn [Core.filter_rows]. now rewrite K, IH.
Qed.

Lemma filter_rows_all keep data :
  (forall r, keep r = Ok true) -> Core.filter_rows keep data = Ok data.
Proof.
  intros K. induction data as [|r data IH]; [reflexivity|].
  cbn [Core.filter_rows]. now rewrite K, IH.
Qed.

(** X11. A condition that is absent, empty or holds none of the six
    operators matches every row: SELECT * returns all rows, and a confirmed
    DELETE removes them all, reports their number and keeps the table. *)
Theorem condition_without_operator_matches_all st t cols w a :
  has_table st t cols ->
  matches_every_row w ->
  confirmed a = true ->
  fst (Core.select_rows t ["*"] w st) = ORows (rows_of st t) /\
  fst (Core.delete_rows t w a st)
  = OStr (string_of_Z (len (rows_of st t)) ++ " rows deleted") /\
  rows_of (snd (Core.delete_rows t w a st)) t = [] /\
  has_table (snd (Core.delete_rows t w a st)) t cols.
Proof.
  intros HT M C.
  destruct (table_lookup _ _ _ HT) as (st1 & E1 & E2 & S).
  assert (K : forall r, row_matches w r = Ok true)
    by (intros r; now apply row_matches_every).
  unfold row_matches in K.
  unfold Core.select_rows, Core.delete_rows. rewrite C, E1. cbn [negb].
  fold (rows_of st1 t). rewrite (same_storage_rows _ _ t S).
  destruct (Core.truthy w) eqn:T; cbn [negb] in K.
  - rewrite filter_rows_all by exact K.
    rewrite filter_rows_none by (intros r; now rewrite K).
    cbn [fst snd Core.is_star String.eqb Ascii.eqb Bool.eqb negb].
    rewrite rows_of_write. unfold len at 2. cbn [List.length Z.of_nat].
    rewrite Z.sub_0_r. repeat split.
    unfold has_table. rewrite write_table_data_metadata.
    destruct S as (_ & _ & ->). exact HT.
  - cbn [fst snd Core.is_star String.eqb Ascii.eqb Bool.eqb negb].
    rewrite rows_of_write. unfold len at 2. cbn [List.length Z.of_nat].
    rewrite Z.sub_0_r. repeat split.
    unfold has_table. rewrite write_table_data_metadata.
    destruct S as (_ & _ & ->). exact HT.
Qed.

Lemma condition_without_operator_matches_all_witness :
  fst (Core.select_rows "t" ["*"] (Some "name") demo_store)
  = ORows (rows_of demo_store "t") /\
  rows_of (snd (Core.delete_rows "t" (Some "name") "y" demo_store)) "t" = [].
Proof.
  destruct (condition_without_operator_matches_all demo_store "t" demo_schema
              (Some "name") "y") as (H1 & _ & H3 & _).
  - reflexivity.
  - right. reflexivity.
  - reflexivity.
  - split; assumption.
Defined.

Lemma cast_columns_raise cast cols names vs i c v e acc :
  List.length vs = List.length names ->
  nth_error names i = Some c ->
  nth_error vs i = Some v ->
  cast v (declared_type cols c) = Raise e ->
  exists e', cast_columns cast cols (combine names vs) acc = Raise e'.
Proof.
  revert vs i acc. induction names as [|n names IH]; intros vs i acc L Hn Hv Hc.
  - destruct i; discriminate.
  - destruct vs as [|v0 vs]; [discriminate|]. injection L as L.
    cbn [combine cast_columns]. fold (declared_type cols n).
    destruct i as [|i]; cbn in Hn, Hv.
    + inversion Hn; inversion Hv; subst. rewrite Hc. now exists e.
    + destruct (cast v0 (declared_type cols n)) as [x|e0]; [|now exists e0].
      cbn [bind]. eapply IH; eauto.
Qed.

Lemma data_columns_count cols :
  wf_schema cols -> len (data_column_names cols) = len cols - 1.
Proof.
  intros [ND M].
  pose proof (filter_out_one "id" _ ND (mem_in_keys _ _ M)) as F.
  fold (data_column_names cols) in F.
  unfold len, PyDict.keys in *. rewrite length_map in F. lia.
Qed.

(** X12. insert_row with a wrong number of values, or with a value that
    cannot be cast to the type of its column, reports an error and stores
    nothing; for a wrong number the answer is 'Error: Expected n values, got
    m'. *)
Theorem insert_row_all_or_nothing st t cols vs :
  has_table st t cols ->
  wf_schema cols ->
  List.length vs <> List.length (data_column_names cols) \/
  (exists i c v e,
     nth_error (data_column_names cols) i = Some c /\
     nth_error vs i = Some v /\
     Utils._cast_value v (declared_type cols c) = Raise e) ->
  is_error (fst (Core.insert_row t vs st)) /\
  same_storage st (snd (Core.insert_row t vs st)) /\
  (List.length vs <> List.length (data_column_names cols) ->
   fst (Core.insert_row t vs st)
   = OStr ("Error: Expected " ++ string_of_Z (len (data_column_names cols))
           ++ " values, got " ++ string_of_Z (len vs))).
Proof.
  intros HT W Bad.
  pose proof (data_columns_count cols W) as DC.
  destruct (insert_row_unfold st t cols vs HT) as (st1 & S & ->).
  unfold Utils.validate_row_data. fold (data_column_names cols).
  rewrite <- DC.
  destruct (len vs =? len (data_column_names cols)) eqn:A; cbn [negb].
  - apply Z.eqb_eq in A. unfold len in A. apply Nat2Z.inj in A.
    destruct Bad as [Bad|(i & c & v & e & Hn & Hv & Hc)]; [contradiction|].
    destruct (cast_columns_raise Utils._cast_value cols _ vs i c v e []
                A Hn Hv Hc) as [e' ->].
    cbn [fst snd]. split; [apply handle_is_error|split; [exact S|]].
    intros N. contradiction.
  - cbn [fst snd handle_db_errors].
    split; [eexists; left; reflexivity|split; [exact S|reflexivity]].
Qed.

Lemma insert_row_all_or_nothing_witness :
  fst (Core.insert_row "t" [VStr "a"] demo_store)
  = OStr "Error: Expected 2 values, got 1" /\
  same_storage demo_store (snd (Core.insert_row "t" [VStr "a"] demo_store)).
Proof.
  destruct (insert_row_all_or_nothing demo_store "t" demo_schema [VStr "a"])
    as (_ & H2 & H3).
  - reflexivity.
  - split; [repeat constructor; cbn; intuition discriminate|reflexivity].
  - left. discriminate.
  - split; [apply H3; discriminate|exact H2].
Defined.

Lemma project_get_gen cs (r acc : row) c :
  PyDict.get
    (fold_left
       (fun result_row col =>
          match PyDict.get r col with
          | Some v => PyDict.set result_row col v
          | None => result_row
          end) cs acc) c
  = if in_list c cs
    then match PyDict.get r c with
         | Some v => Some v
         | None => PyDict.get acc c
         end
    else PyDict.get acc c.
Proof.
  revert acc. induction cs as [|c0 cs IH]; intros acc; [reflexivity|].
  cbn [fold_left in_list existsb]. rewrite IH. fold (in_list c cs).
  destruct (String.eqb c c0) eqn:E.
  - apply String.eqb_eq in E. subst c0. cbn [orb].
    destruct (PyDict.get r c) eqn:G.
    + rewrite get_set_same. now destruct (in_list c cs).
    + now destruct (in_list c cs).
  - cbn [orb]. apply String.eqb_neq in E.
    assert (A : PyDict.get
                  match PyDict.get r c0 with
                  | Some v => PyDict.set acc c0 v
                  | None => acc
                  end c = PyDict.get acc c).
    { destruct (PyDict.get r c0); [|reflexivity].
      apply get_set_other. congruence. }
    now rewrite A.
Qed.

Lemma project_get cs r c :
  PyDict.get (Core.project cs r) c
  = if in_list c cs then PyDict.get r c else None.
Proof.
  unfold Core.project. rewrite project_get_gen.
  destruct (in_list c cs); [|reflexivity]. now destruct (PyDict.get r c).
Qed.

Lemma select_filter_total w data bs :
  Forall2 (fun r b => row_matches w r = Ok b) data bs ->
  (if Core.truthy w
   then Core.filter_rows
          (fun r => Parser.evaluate_condition r (Core.the_condition w)) data
   else Ok data)
  = Ok (rows_where (fun b => b) data bs).
Proof.
  unfold row_matches. intros F.
  destruct (Core.truthy w); cbn [negb] in F.
  - now apply filter_rows_total.
  - f_equal. induction F as [|r b data bs H F IH]; [reflexivity|].
    injection H as <-. unfold rows_where in *. cbn. now rewrite <- IH.
Qed.

(** X13. select_rows with a column list other than ['*'] returns, for every
    matching row in order, its projection on the list: a listed column of
    the row keeps its value, every other column is absent, and a listed
    column the row lacks is skipped without an error. *)
Theorem select_rows_projects st t cols cs w bs :
  has_table st t cols ->
  Core.is_star cs = false ->
  Forall2 (fun r b => row_matches w r = Ok b) (rows_of st t) bs ->
  fst (Core.select_rows t cs w st)
  = ORows (List.map (Core.project cs)
             (rows_where (fun b => b) (rows_of st t) bs)) /\
  (forall r c,
     PyDict.get (Core.project cs r) c
     = if in_list c cs then PyDict.get r c else None).
Proof.
  intros HT NS F.
  destruct (table_lookup _ _ _ HT) as (st1 & E1 & E2 & S).
  split; [|intros r c; apply project_get].
  unfold Core.select_rows. rewrite E1. cbn [negb].
  fold (rows_of st1 t). rewrite (same_storage_rows _ _ t S).
  rewrite (select_filter_total _ _ _ F), NS. reflexivity.
Qed.

Lemma select_rows_projects_witness :
  fst (Core.select_rows "t" ["name"] None demo_store)
  = ORows [[("name", VStr "a")]; [("name", VStr "5")]].
Proof.
  destruct (select_rows_projects demo_store "t" demo_schema ["name"] None
              [true; true]) as (H & _).
  - reflexivity.
  - reflexivity.
  - repeat constructor.
  - exact H.
Defined.

Lemma insert_all_metadata t vss st :
  current_metadata (snd (insert_all t vss st)) = current_metadata st.
Proof.
  revert st. induction vss as [|vs vss IH]; intros st; [reflexivity|].
  cbn [insert_all].
  pose proof (insert_row_metadata t vs st) as H.
  destruct (Core.insert_row t vs st) as [o st1]; cbn [snd] in *.
  specialize (IH st1).
  destruct (insert_all t vss st1) as [os st2]; cbn [snd] in *. congruence.
Qed.

Lemma select_star_all st t cols :
  has_table st t cols ->
  fst (Core.select_rows t ["*"] None st) = ORows (rows_of st t).
Proof.
  intros HT.
  destruct (table_lookup _ _ _ HT) as (st1 & E1 & E2 & S).
  unfold Core.select_rows. rewrite E1. cbn.
  fold (rows_of st1 t). now rewrite (same_storage_rows _ _ t S).
Qed.

(** X14. After a run of successful inserts SELECT * without a condition
    returns the rows that were there, followed by the inserted rows in
    insertion order with consecutive identities. *)
Theorem select_star_insertion_order st t cols vss xss ids :
  has_table st t cols ->
  wf_schema cols ->
  List.map Core.row_id (rows_of st t) = List.map VInt ids ->
  Forall2 (coerces cols (data_column_names cols)) vss xss ->
  fst (Core.select_rows t ["*"] None (snd (insert_all t vss st)))
  = ORows (rows_of st t ++ stored_rows cols (max_id ids) xss).
Proof.
  intros HT [ND M] Hids F.
  destruct (insert_all_rows st t cols vss xss ids HT ND M Hids F) as [_ R].
  rewrite (select_star_all _ t cols), R; [reflexivity|].
  unfold has_table. now rewrite insert_all_metadata.
Qed.

Lemma select_star_insertion_order_witness :
  fst (Core.select_rows "t" ["*"] None
         (snd (insert_all "t" [[VStr "a"; VStr "yes"]; [VInt 5; VBool false]]
                 fresh_store)))
  = ORows [[("name", VStr "a"); ("ok", VBool true); ("id", VInt 1)];
           [("name", VStr "5"); ("ok", VBool false); ("id", VInt 2)]].
Proof.
  apply (select_star_insertion_order fresh_store "t" demo_schema
           [[VStr "a"; VStr "yes"]; [VInt 5; VBool false]]
           [[VStr "a"; VBool true]; [VStr "5"; VBool false]] []).
  - reflexivity.
  - split; [repeat constructor; cbn; intuition discriminate|reflexivity].
  - reflexivity.
  - repeat constructor.
Defined.

Lemma fold_max_ge l b : b <= fold_left Z.max l b.
Proof.
  revert b. induction l as [|a l IH]; intros b; cbn; [lia|].
  specialize (IH (Z.max b a)). lia.
Qed.

Lemma fold_max_in l b i : In i l -> i <= fold_left Z.max l b.
Proof.
  revert b. induction l as [|a l IH]; intros b H; [destruct H|].
  cbn. destruct H as [->|H]; [|now apply IH].
  pose proof (fold_max_ge l (Z.max b i)). lia.
Qed.

Lemma max_id_ge ids i : In i ids -> i <= max_id ids.
Proof.
  destruct ids as [|a ids]; [intros []|].
  cbn [max_id]. intros [->|H]; [apply fold_max_ge|now apply fold_max_in].
Qed.

Lemma id_is_row_id rows ids :
  Forall2 id_is rows ids -> List.map Core.row_id rows = List.map VInt ids.
Proof.
  induction 1 as [|r i rows ids H F IH]; [reflexivity|].
  cbn. unfold Core.row_id at 1. unfold id_is in H.
  unfold ID_COLUMN. now rewrite H, IH.
Qed.

Lemma stored_row_id_is cols xs n : id_is (stored_row cols xs n) n.
Proof.
  unfold id_is, stored_row.
  rewrite <- set_fresh.
  - apply get_set_same.
  - intros H. apply keys_combine in H. now apply id_not_data_column in H.
Qed.

Lemma delete_by_id_rows st t cols k :
  has_table st t cols ->
  rows_of (snd (Core.delete_rows t (Some ("id = " ++ string_of_Z k)) "y" st)) t
  = filter (fun r => negb (py_eq (lookup r "id") (VInt k))) (rows_of st t) /\
  has_table (snd (Core.delete_rows t (Some ("id = " ++ string_of_Z k)) "y" st))
            t cols.
Proof.
  intros HT.
  destruct (table_lookup _ _ _ HT) as (st1 & E1 & E2 & S).
  unfold Core.delete_rows.
  change (confirmed "y") with true. cbn [negb]. rewrite E1. cbn [negb].
  change (Core.truthy (Some ("id = " ++ string_of_Z k))) with true.
  cbv iota. unfold Core.the_condition.
  fold (rows_of st1 t). rewrite (same_storage_rows _ _ t S).
  rewrite filter_rows_by_id. cbn [snd].
  rewrite rows_of_write. split; [reflexivity|].
  unfold has_table. rewrite write_table_data_metadata.
  destruct S as (_ & _ & ->). exact HT.
Qed.

Lemma filter_keeps_other_ids k rows ids :
  Forall2 id_is rows ids ->
  (forall i, In i ids -> i <> k) ->
  filter (fun r => negb (py_eq (lookup r "id") (VInt k))) rows = rows.
Proof.
  induction 1 as [|r i rows ids H F IH]; intros N; [reflexivity|].
  cbn [filter]. unfold lookup at 1. rewrite H, py_eq_ints.
  assert (E : (i =? k) = false) by (apply Z.eqb_neq, N; now left).
  rewrite E. cbn [negb]. f_equal. apply IH. intros j Hj. apply N. now right.
Qed.

(** X15. Identities are reused: after a row is inserted, deleted by the
    condition id = n on its identity n, and another row is inserted, the new
    row has identity n again. *)
Theorem identity_reused_after_delete st t cols vs xs vs' xs' ids :
  has_table st t cols ->
  wf_schema cols ->
  Forall2 id_is (rows_of st t) ids ->
  coerces cols (data_column_names cols) vs xs ->
  coerces cols (data_column_names cols) vs' xs' ->
  let n := max_id ids + 1 in
  let st1 := snd (Core.insert_row t vs st) in
  let st2 := snd (Core.delete_rows t (Some ("id = " ++ string_of_Z n)) "y"
                    st1) in
  let st3 := snd (Core.insert_row t vs' st2) in
  rows_of st1 t = (rows_of st t ++ [stored_row cols xs n])%list /\
  rows_of st2 t = rows_of st t /\
  rows_of st3 t = (rows_of st t ++ [stored_row cols xs' n])%list.
Proof.
  intros HT [ND M] F C C' n st1 st2 st3.
  pose proof (id_is_row_id _ _ F) as Hids.
  destruct (insert_row_step st t cols vs xs ids HT ND M Hids C)
    as (_ & HT1 & R1).
  fold st1 in HT1, R1. fold n in R1.
  destruct (delete_by_id_rows st1 t cols n HT1) as (R2 & HT2).
  fold st2 in R2, HT2.
  assert (R2' : rows_of st2 t = rows_of st t).
  { rewrite R2, R1, filter_app.
    rewrite (filter_keeps_other_ids n _ _ F).
    - cbn [filter]. unfold lookup.
      rewrite (stored_row_id_is cols xs n), py_eq_ints, Z.eqb_refl.
      cbn [negb]. apply List.app_nil_r.
    - intros i Hi. apply max_id_ge in Hi. unfold n. lia. }
  split; [exact R1|split; [exact R2'|]].
  assert (Hids2 : List.map Core.row_id (rows_of st2 t) = List.map VInt ids)
    by now rewrite R2'.
  destruct (insert_row_step st2 t cols vs' xs' ids HT2 ND M Hids2 C')
    as (_ & _ & R3).
  fold st3 in R3. now rewrite R3, R2'.
Qed.

Lemma identity_reused_after_delete_witness :
  rows_of
    (snd (Core.insert_row "t" [VStr "c"; VBool true]
            (snd (Core.delete_rows "t" (Some "id = 3") "y"
                    (snd (Core.insert_row "t" [VStr "b"; VBool false]
                            demo_store)))))) "t"
  = (rows_of demo_store "t"
     ++ [[("name", VStr "c"); ("ok", VBool true); ("id", VInt 3)]])%list.
Proof.
  destruct (identity_reused_after_delete demo_store "t" demo_schema
              [VStr "b"; VBool false] [VStr "b"; VBool false]
              [VStr "c"; VBool true] [VStr "c"; VBool true] [1; 2])
    as (_ & _ & H).
  - reflexivity.
  - split; [repeat constructor; cbn; intuition discriminate|reflexivity].
  - repeat constructor.
  - repeat constructor.
  - repeat constructor.
  - exact H.
Defined.

(** *** Literals and the value lexer *)

Lemma str_append_assoc a b c : (a ++ b) ++ c = a ++ (b ++ c).
Proof. induction a as [|x a IH]; cbn; [reflexivity|now rewrite IH]. Qed.

Lemma rev_onto_app s acc : rev_onto s acc = rev s ++ acc.
Proof.
  unfold rev. revert acc. induction s as [|c s IH]; intros acc; [reflexivity|].
  cbn [rev_onto]. rewrite (IH (String c acc)), (IH (String c "")).
  rewrite str_append_assoc. reflexivity.
Qed.

Lemma rev_cons c s : rev (String c s) = rev s ++ String c "".
Proof. unfold rev at 1. cbn [rev_onto]. apply rev_onto_app. Qed.

Lemma rev_app a b : rev (a ++ b) = rev b ++ rev a.
Proof.
  induction a as [|c a IH]; cbn [append].
  - now rewrite append_empty.
  - now rewrite !rev_cons, IH, str_append_assoc.
Qed.

Lemma rev_snoc s c : rev (s ++ String c "") = String c (rev s).
Proof. now rewrite rev_app. Qed.

Lemma prefix_single_same q s : String.prefix (String q "") (String q s) = true.
Proof.
  change (String.prefix (String q "") (String q s))
    with (if ascii_dec q q then String.prefix "" s else false).
  destruct (ascii_dec q q); [now destruct s|congruence].
Qed.

Lemma prefix_single_other q c s :
  q <> c -> String.prefix (String q "") (String c s) = false.
Proof.
  intros N.
  change (String.prefix (String q "") (String c s))
    with (if ascii_dec q c then String.prefix "" s else false).
  destruct (ascii_dec q c); [congruence|reflexivity].
Qed.

Lemma enquote_ends q s :
  startswith (enquote q s) (String q "") = true /\
  endswith (enquote q s) (String q "") = true /\
  slice_1_m1 (enquote q s) = s.
Proof.
  unfold startswith, endswith, slice_1_m1, enquote.
  split; [apply prefix_single_same|split].
  - change (rev (String q "")) with (String q "").
    rewrite rev_cons, rev_snoc. cbn [append].
    apply prefix_single_same.
  - rewrite rev_snoc. cbn [drop]. apply rev_rev.
Qed.

Lemma parse_value_enquote q s :
  is_quote q = true -> Parser._parse_value (enquote q s) = VStr s.
Proof.
  intros Q. destruct (enquote_ends q s) as (S & E & L).
  unfold Parser._parse_value, Parser.q2, Parser.q1.
  unfold is_quote in Q. apply orb_true_iff in Q.
  destruct Q as [Q|Q]; apply Ascii.eqb_eq in Q; subst q.
  - rewrite S, E, L. reflexivity.
  - rewrite S, E, L.
    destruct (startswith (enquote squote s) (String dquote "")
              && endswith (enquote squote s) (String dquote ""))%bool;
      reflexivity.
Qed.

(** X16. _parse_value reads a printed integer back as that integer and a
    text in double or in single quotes as the text between them; _cast_value
    reads a printed integer back under int, prints an integer under str, and
    leaves a string unchanged under str. *)
Theorem literals_round_trip :
  (forall k, Parser._parse_value (string_of_Z k) = VInt k) /\
  (forall k, Utils._cast_value (VStr (string_of_Z k)) "int" = Ok (VInt k)) /\
  (forall k, Utils._cast_value (VInt k) "str" = Ok (VStr (string_of_Z k))) /\
  (forall s, Parser._parse_value (quoted s) = VStr s) /\
  (forall s, Parser._parse_value (enquote squote s) = VStr s) /\
  (forall s, Utils._cast_value (VStr s) "str" = Ok (VStr s)).
Proof.
  repeat split.
  - apply parse_value_string_of_Z.
  - intros k. unfold Utils._cast_value, py_int. cbn [String.eqb Ascii.eqb Bool.eqb].
    now rewrite int_of_str_string_of_Z.
  - intros s. now apply (parse_value_enquote dquote).
  - intros s. now apply (parse_value_enquote squote).
Qed.

Lemma run_split_app st a b :
  run_split st (a ++ b) = run_split (run_split st a) b.
Proof. unfold run_split. now rewrite list_of_append, fold_left_app. Qed.

Lemma run_plain vals cur x :
  all_chars is_plain_char x = true ->
  run_split (idle vals cur) x = idle vals (cur ++ x).
Proof.
  revert cur. unfold run_split, all_chars.
  induction x as [|c x IH]; intros cur H.
  - cbn. now rewrite append_empty.
  - cbn [list_ascii_of_string forallb fold_left] in *.
    apply andb_true_iff in H. destruct H as [Hc Hx].
    unfold is_plain_char in Hc. apply negb_true_iff in Hc.
    apply orb_false_iff in Hc. destruct Hc as [Hc Hb].
    apply orb_false_iff in Hc. destruct Hc as [Hc Hs].
    apply orb_false_iff in Hc. destruct Hc as [Hcomma Hd].
    assert (E : Parser.split_step (idle vals cur) c
                = idle vals (cur ++ String c "")).
    { unfold Parser.split_step, idle. cbn [Parser.escape_char Parser.in_quotes Parser.quote_char Parser.values Parser.current Parser.is_quote_char Parser.push].
      rewrite Hb, Hd, Hs, Hcomma. reflexivity. }
    rewrite E, IH by exact Hx.
    rewrite str_append_assoc. reflexivity.
Qed.

Lemma run_inside vals cur q s :
  all_chars (fun c => negb (Ascii.eqb c q || Ascii.eqb c backslash)) s = true ->
  run_split (inside vals cur q) s = inside vals (cur ++ s) q.
Proof.
  revert cur. unfold run_split, all_chars.
  induction s as [|c s IH]; intros cur H.
  - cbn. now rewrite append_empty.
  - cbn [list_ascii_of_string forallb fold_left] in *.
    apply andb_true_iff in H. destruct H as [Hc Hx].
    apply negb_true_iff in Hc.
    apply orb_false_iff in Hc. destruct Hc as [Hq Hb].
    assert (E : Parser.split_step (inside vals cur q) c
                = inside vals (cur ++ String c "") q).
    { unfold Parser.split_step, inside. cbn [Parser.escape_char Parser.in_quotes Parser.quote_char Parser.values Parser.current Parser.is_quote_char Parser.push].
      rewrite Hb, Hq. cbn [negb andb orb]. rewrite !andb_false_r.
      reflexivity. }
    rewrite E, IH by exact Hx.
    rewrite str_append_assoc. reflexivity.
Qed.

Lemma is_quote_not_backslash q :
  is_quote q = true -> Ascii.eqb q backslash = false.
Proof.
  unfold is_quote. intros H. apply orb_true_iff in H.
  destruct H as [H|H]; apply Ascii.eqb_eq in H; subst q; reflexivity.
Qed.

Lemma run_quoted vals cur q s :
  is_quote q = true ->
  all_chars (fun c => negb (Ascii.eqb c q || Ascii.eqb c backslash)) s = true ->
  run_split (idle vals cur) (enquote q s) = idle vals (cur ++ enquote q s).
Proof.
  intros Q H. unfold enquote.
  change (String q (s ++ String q "")) with (String q "" ++ (s ++ String q "")).
  rewrite !run_split_app.
  assert (O : run_split (idle vals cur) (String q "")
              = inside vals (cur ++ String q "") q).
  { unfold run_split, idle, inside. cbn [list_ascii_of_string fold_left].
    unfold Parser.split_step. cbn [Parser.escape_char Parser.in_quotes Parser.quote_char Parser.values Parser.current Parser.is_quote_char Parser.push].
    rewrite (is_quote_not_backslash q Q).
    unfold is_quote in Q. rewrite Q. reflexivity. }
  rewrite O, (run_inside _ _ _ _ H).
  unfold run_split, inside, idle. cbn [list_ascii_of_string fold_left].
  unfold Parser.split_step. cbn [Parser.escape_char Parser.in_quotes Parser.quote_char Parser.values Parser.current Parser.is_quote_char Parser.push].
  rewrite (is_quote_not_backslash q Q), Ascii.eqb_refl.
  cbn [negb andb orb]. rewrite !andb_false_r. unfold Parser.push.
  now rewrite !str_append_assoc.
Qed.

Lemma run_literal vals cur l :
  literal_ok l = true ->
  run_split (idle vals cur) (render l) = idle vals (cur ++ render l).
Proof.
  destruct l as [x|q s]; cbn [literal_ok render]; intros H.
  - now apply run_plain.
  - apply andb_true_iff in H. destruct H. now apply run_quoted.
Qed.

Lemma run_comma vals cur :
  run_split (idle vals cur) "," = idle (vals ++ [strip cur]) "".
Proof. reflexivity. Qed.

Lemma run_literals vals ls :
  forallb literal_ok ls = true ->
  ls <> [] ->
  run_split (idle vals "") (join_commas (List.map render ls))
  = idle (vals ++ List.map strip (removelast (List.map render ls)))
         (last (List.map render ls) "").
Proof.
  revert vals. induction ls as [|l ls IH]; intros vals H N; [congruence|].
  cbn [forallb] in H. apply andb_true_iff in H. destruct H as [Hl Hls].
  destruct ls as [|l' ls].
  - cbn [List.map join_commas removelast last].
    rewrite (run_literal _ _ _ Hl). cbn [append List.map].
    now rewrite List.app_nil_r.
  - cbn [List.map join_commas].
    change (render l ++ "," ++ join_commas (render l' :: List.map render ls))
      with (render l ++ ("," ++ join_commas (List.map render (l' :: ls)))).
    rewrite run_split_app, (run_literal _ _ _ Hl).
    rewrite run_split_app, run_comma.
    rewrite IH by (auto; discriminate).
    cbn [append removelast last List.map].
    rewrite <- List.app_assoc. reflexivity.
Qed.

Lemma split_values_run x :
  Parser._split_values x
  = (if String.eqb (strip (Parser.current (run_split (idle [] "") x))) ""
     then Parser.values (run_split (idle [] "") x)
     else (Parser.values (run_split (idle [] "") x)
           ++ [strip (Parser.current (run_split (idle [] "") x))])%list).
Proof. reflexivity. Qed.

(** X17. _split_values on literals joined by commas, each either unquoted
    without comma, quote or backslash, or quoted without its own quote
    character or a backslash inside, returns the stripped literals in order
    and drops a blank last one: a comma between quotes does not split. *)
Theorem split_values_literals ls :
  forallb literal_ok ls = true ->
  Parser._split_values (join_commas (List.map render ls))
  = split_expected (List.map render ls).
Proof.
  intros H. destruct ls as [|l ls]; [reflexivity|].
  rewrite split_values_run.
  rewrite run_literals by (auto; discriminate).
  cbn [idle Parser.values Parser.current app].
  unfold split_expected. cbn [List.map].
  destruct (String.eqb (strip (last (render l :: List.map render ls) "")) "");
    [now rewrite List.app_nil_r|reflexivity].
Qed.

Lemma split_values_literals_witness :
  Parser._split_values
    (join_commas [render (Plain "1"); render (Quoted squote "a, b");
                  render (Plain " 3 ")])
  = ["1"; enquote squote "a, b"; "3"].
Proof.
  apply (split_values_literals [Plain "1"; Quoted squote "a, b"; Plain " 3 "]).
  reflexivity.
Defined.

(** *** The statement patterns: DROP TABLE, INSERT, DELETE *)

Lemma lit_ci_app p :
  forall k rest, lower k = lower p -> Regex.lit_ci p (k ++ rest) = Some rest.
Proof.
  unfold lower.
  induction p as [|a p IH]; intros [|b k] rest H; cbn [PyStr.map] in H;
    try discriminate; [reflexivity|].
  injection H as Hc Hk. cbn [append Regex.lit_ci]. unfold Regex.eq_ci.
  rewrite Hc, Ascii.eqb_refl. now apply IH.
Qed.

Lemma str_length_app a b :
  String.length (a ++ b) = (String.length a + String.length b)%nat.
Proof. induction a as [|c a IH]; cbn; [reflexivity|now rewrite IH]. Qed.

Lemma many_greedy_max {A} cls (k : string -> option A) run :
  forall min rest r,
    all_chars cls run = true ->
    (min <= String.length run)%nat ->
    stops cls rest = true ->
    k rest = Some r ->
    Regex.many_greedy cls k min (run ++ rest) = Some r.
Proof.
  unfold all_chars.
  induction run as [|c run IH]; intros min rest r H L S K.
  - cbn [String.length] in L. assert (min = 0%nat) by lia. subst min.
    cbn [append]. destruct rest as [|c rest]; cbn [Regex.many_greedy].
    + exact K.
    + cbn [stops] in S. apply negb_true_iff in S. now rewrite S.
  - cbn [list_ascii_of_string forallb] in H. apply andb_true_iff in H.
    destruct H as [Hc Hr]. cbn [append Regex.many_greedy]. rewrite Hc.
    rewrite (IH (Nat.pred min) rest r Hr); [reflexivity| |exact S|exact K].
    cbn [String.length] in L. lia.
Qed.

Lemma many_greedy_none {A} cls (k : string -> option A) s :
  forall min,
    (forall a b, s = a ++ b -> k b = None) ->
    Regex.many_greedy cls k min s = None.
Proof.
  induction s as [|c s IH]; intros min H.
  - cbn [Regex.many_greedy]. destruct min; [apply (H "" ""); reflexivity|reflexivity].
  - cbn [Regex.many_greedy].
    assert (T : Regex.many_greedy cls k (Nat.pred min) s = None).
    { apply IH. intros a b E. apply (H (String c a) b). now rewrite E. }
    rewrite T.
    assert (K : k (String c s) = None) by (apply (H "" (String c s)); reflexivity).
    rewrite K. destruct (cls c), min; reflexivity.
Qed.

Lemma many_greedy_backtrack {A} cls (k : string -> option A) body :
  forall min tail r,
    all_chars cls body = true ->
    (min <= String.length body)%nat ->
    (forall a b, tail = a ++ b -> b <> tail -> k b = None) ->
    k tail = Some r ->
    Regex.many_greedy cls k min (body ++ tail) = Some r.
Proof.
  unfold all_chars.
  induction body as [|c body IH]; intros min tail r H L N K.
  - cbn [String.length] in L. assert (min = 0%nat) by lia. subst min.
    cbn [append]. destruct tail as [|c tail]; cbn [Regex.many_greedy].
    + exact K.
    + assert (T : Regex.many_greedy cls k (Nat.pred 0) tail = None).
      { apply many_greedy_none. intros a b E. apply (N (String c a) b).
        - now rewrite E.
        - intros E'. apply (f_equal String.length) in E'.
          rewrite E in E'. cbn [String.length] in E'.
          rewrite str_length_app in E'. lia. }
      rewrite T, K. now destruct (cls c).
  - cbn [list_ascii_of_string forallb] in H. apply andb_true_iff in H.
    destruct H as [Hc Hr]. cbn [append Regex.many_greedy]. rewrite Hc.
    rewrite (IH (Nat.pred min) tail r Hr); [reflexivity| |exact N|exact K].
    cbn [String.length] in L. lia.
Qed.

Lemma take_app a b :
  take (String.length (a ++ b) - String.length b) (a ++ b) = a.
Proof.
  rewrite str_length_app.
  replace (String.length a + String.length b - String.length b)%nat
    with (String.length a) by lia.
  induction a as [|c a IH]; cbn [String.length append take].
  - now destruct b.
  - now rewrite IH.
Qed.

(** A group over a greedy class that reads the whole run [t]. *)
Lemma rmatch_group_run n min cls t rest c k r :
  all_chars cls t = true ->
  (min <= String.length t)%nat ->
  stops cls rest = true ->
  k rest ((n, t) :: c) = Some r ->
  Regex.rmatch (Regex.Group n (Regex.Many true min cls)) (t ++ rest) c k
  = Some r.
Proof.
  intros H L S K. cbn [Regex.rmatch].
  apply many_greedy_max; auto. now rewrite take_app.
Qed.

(** A group over a greedy class that has to give [tail] back. *)
Lemma rmatch_group_backtrack n min cls body tail c k r :
  all_chars cls body = true ->
  (min <= String.length body)%nat ->
  (forall a b cp, tail = a ++ b -> b <> tail -> k b cp = None) ->
  k tail ((n, body) :: c) = Some r ->
  Regex.rmatch (Regex.Group n (Regex.Many true min cls)) (body ++ tail) c k
  = Some r.
Proof.
  intros H L N K. cbn [Regex.rmatch].
  apply many_greedy_backtrack; auto.
  - intros a b E D. now apply (N a b).
  - now rewrite take_app.
Qed.

Lemma word_name_facts t :
  word_name t = true ->
  all_chars is_word t = true /\ (1 <= String.length t)%nat.
Proof.
  unfold word_name. intros H. apply andb_true_iff in H.
  destruct H as [H N]. split; [exact H|].
  destruct t; [discriminate|cbn; lia].
Qed.

Lemma one_line_facts t :
  one_line t = true ->
  all_chars Regex.is_any t = true /\ (1 <= String.length t)%nat.
Proof.
  unfold one_line. intros H. apply andb_true_iff in H.
  destruct H as [H N]. split; [exact H|].
  destruct t; [discriminate|cbn; lia].
Qed.

Lemma lower_char_space c :
  lower_char c = " "%char -> is_word c = false.
Proof.
  destruct c as [b0 b1 b2 b3 b4 b5 b6 b7].
  destruct b0, b1, b2, b3, b4, b5, b6, b7; vm_compute;
    intros H; try reflexivity; discriminate H.
Qed.

Lemma eq_ci_paren c : Regex.eq_ci ")" c = Ascii.eqb c ")".
Proof.
  destruct c as [b0 b1 b2 b3 b4 b5 b6 b7].
  destruct b0, b1, b2, b3, b4, b5, b6, b7; reflexivity.
Qed.

(** A keyword that begins with a blank ends the name before it. *)
Lemma keyword_stops k p rest :
  lower k = lower (String " " p) -> stops is_word (k ++ rest) = true.
Proof.
  unfold lower. destruct k as [|c k]; cbn [PyStr.map]; [discriminate|].
  intros H. injection H as Hc _. cbn [append stops].
  change (lower_char " ") with " "%char in Hc.
  now rewrite (lower_char_space c Hc).
Qed.

Lemma begins_ci_false p s : begins_ci p s = false -> Regex.lit_ci p s = None.
Proof. unfold begins_ci. now destruct (Regex.lit_ci p s). Qed.

(** X18. parse_drop_table accepts DROP TABLE in any case followed by a name
    of word characters, returns the name and ignores whatever follows it;
    with no name after the keyword it raises 'Invalid syntax'. *)
Theorem parse_drop_table_reads k rest :
  lower k = lower "DROP TABLE " ->
  stops is_word rest = true ->
  (forall t, word_name t = true ->
             Parser.parse_drop_table (k ++ t ++ rest) = Ok t) /\
  Parser.parse_drop_table (k ++ rest)
  = Raise (ValueError "Invalid syntax").
Proof.
  intros K S. split.
  - intros t W. destruct (word_name_facts t W) as [A L].
    unfold Parser.parse_drop_table, Regex.re_match, Parser.drop_pattern.
    unfold Regex.word.
    cbn [Regex.rmatch]. rewrite (lit_ci_app _ _ _ K).
    pose proof (rmatch_group_run 1 1 is_word t rest []
                  (fun _ c => Some c) [(1%nat, t)] A L S eq_refl) as R.
    settle R. reflexivity.
  - unfold Parser.parse_drop_table, Regex.re_match, Parser.drop_pattern.
    unfold Regex.word.
    cbn [Regex.rmatch]. rewrite (lit_ci_app _ _ _ K).
    destruct rest as [|c rest]; cbn [Regex.many_greedy]; [reflexivity|].
    cbn [stops] in S. apply negb_true_iff in S. rewrite S. reflexivity.
Qed.

Lemma parse_drop_table_reads_witness :
  Parser.parse_drop_table "drop table users; and more" = Ok "users" /\
  Parser.parse_drop_table "DROP TABLE ; users"
  = Raise (ValueError "Invalid syntax").
Proof.
  split.
  - destruct (parse_drop_table_reads "drop table " "; and more") as (H & _);
      [reflexivity..|].
    apply (H "users"). reflexivity.
  - destruct (parse_drop_table_reads "DROP TABLE " "; users") as (_ & H);
      [reflexivity..|exact H].
Defined.

Lemma lit_paren_suffix tail a b cp (k : string -> Regex.captures -> option Regex.captures) :
  no_paren tail = true ->
  String ")" tail = a ++ b -> b <> String ")" tail ->
  Regex.rmatch (Regex.Lit ")") b cp k = None.
Proof.
  intros N E D. cbn [Regex.rmatch].
  destruct a as [|x a]; [cbn [append] in E; congruence|].
  cbn [append] in E. injection E as _ E.
  assert (F : forall tail a,
             all_chars (fun c => negb (Ascii.eqb c ")")) tail = true ->
             tail = a ++ b -> Regex.lit_ci ")" b = None).
  { clear. intros tail a. revert tail. unfold all_chars.
    induction a as [|x a IH]; intros tail H E.
    - cbn [append] in E. subst b. destruct tail as [|c tail]; [reflexivity|].
      cbn [list_ascii_of_string forallb] in H.
      apply andb_true_iff in H. destruct H as [H _].
      apply negb_true_iff in H.
      cbn [Regex.lit_ci]. now rewrite eq_ci_paren, H.
    - destruct tail as [|c tail]; [discriminate|].
      cbn [append] in E. injection E as _ E.
      cbn [list_ascii_of_string forallb] in H.
      apply andb_true_iff in H. destruct H as [_ H].
      now apply (IH tail). }
  now rewrite (F tail a N E).
Qed.

(** X19. parse_insert returns the table name and the values that
    _split_values and _parse_value read from the text between 'VALUES (' and
    the last closing parenthesis of the command; what follows that
    parenthesis is ignored. *)
Theorem parse_insert_reads k1 t k2 body tail :
  lower k1 = lower "INSERT INTO " ->
  lower k2 = lower " VALUES (" ->
  word_name t = true ->
  one_line body = true ->
  no_paren tail = true ->
  Parser.parse_insert (k1 ++ t ++ k2 ++ body ++ ")" ++ tail)
  = Ok (t, List.map (fun v => Parser._parse_value (strip v))
                    (Parser._split_values body)).
Proof.
  intros K1 K2 W B N.
  destruct (word_name_facts t W) as [A L].
  destruct (one_line_facts body B) as [Ab Lb].
  unfold Parser.parse_insert, Regex.re_match, Parser.insert_pattern.
  unfold Regex.word, Regex.any1.
  cbn [Regex.rmatch]. rewrite (lit_ci_app _ _ _ K1).
  set (fin := fun (_ : string) (c : Regex.captures) => Some c).
  assert (G2 : Regex.rmatch (Regex.Group 2 Regex.any1) (body ++ ")" ++ tail)
                 [(1%nat, t)]
                 (fun s' c' => Regex.rmatch (Regex.Lit ")") s' c' fin)
               = Some [(2%nat, body); (1%nat, t)]).
  { apply rmatch_group_backtrack; [exact Ab|exact Lb| |reflexivity].
    intros a b cp E D. now apply (lit_paren_suffix tail a b). }
  assert (G1 : Regex.rmatch (Regex.Group 1 Regex.word)
                 (t ++ k2 ++ body ++ ")" ++ tail) []
                 (fun s' c' =>
                    Regex.rmatch (Regex.Lit " VALUES (") s' c'
                      (fun s' c' =>
                         Regex.rmatch (Regex.Group 2 Regex.any1) s' c'
                           (fun s' c' => Regex.rmatch (Regex.Lit ")") s' c' fin)))
               = Some [(2%nat, body); (1%nat, t)]).
  { apply rmatch_group_run; auto.
    - now apply (keyword_stops k2 "VALUES (").
    - cbn [Regex.rmatch]. rewrite (lit_ci_app _ _ _ K2). exact G2. }
  settle G1. reflexivity.
Qed.

Lemma parse_insert_reads_witness :
  Parser.parse_insert "insert into t values (1, (2)) and more"
  = Ok ("t", [VInt 1; VStr "(2)"]).
Proof.
  apply (parse_insert_reads "insert into " "t" " values (" "1, (2)" " and more");
    reflexivity.
Defined.

(** X20. parse_delete returns the table name and the condition after ' WHERE
    '; when the text after the name does not begin with ' WHERE ' (one blank
    on each side, any case) it is ignored and no condition is returned, so
    the statement addresses every row. *)
Theorem parse_delete_reads k t :
  lower k = lower "DELETE FROM " ->
  word_name t = true ->
  (forall w cond,
      lower w = lower " WHERE " -> one_line cond = true ->
      Parser.parse_delete (k ++ t ++ w ++ cond) = Ok (t, Some cond)) /\
  (forall rest,
      stops is_word rest = true -> begins_ci " WHERE " rest = false ->
      Parser.parse_delete (k ++ t ++ rest) = Ok (t, None)).
Proof.
  intros K W. destruct (word_name_facts t W) as [A L].
  set (fin := fun (_ : string) (c : Regex.captures) => Some c).
  split.
  - intros w cond Kw C. destruct (one_line_facts cond C) as [Ac Lc].
    unfold Parser.parse_delete, Regex.re_match, Parser.delete_pattern.
    unfold Regex.word, Regex.any1.
    cbn [Regex.rmatch]. rewrite (lit_ci_app _ _ _ K).
    assert (G2 : Regex.rmatch (Regex.Group 2 Regex.any1) cond [(1%nat, t)] fin
                 = Some [(2%nat, cond); (1%nat, t)]).
    { rewrite <- (append_empty cond) at 1.
      apply rmatch_group_run; auto. }
    assert (G1 : Regex.rmatch (Regex.Group 1 Regex.word) (t ++ w ++ cond) []
                   (fun s' c' =>
                      Regex.rmatch
                        (Regex.Opt (Regex.Seq (Regex.Lit " WHERE ")
                                              (Regex.Group 2 Regex.any1)))
                        s' c' fin)
                 = Some [(2%nat, cond); (1%nat, t)]).
    { apply rmatch_group_run; auto.
      - now apply (keyword_stops w "WHERE ").
      - cbn [Regex.rmatch]. rewrite (lit_ci_app _ _ _ Kw).
        settle G2. reflexivity. }
    settle G1.
    unfold Parser.grp. cbn [Regex.group Nat.eqb Parser.truthy_str].
    destruct cond; [discriminate|reflexivity].
  - intros rest S B.
    unfold Parser.parse_delete, Regex.re_match, Parser.delete_pattern.
    unfold Regex.word, Regex.any1.
    cbn [Regex.rmatch]. rewrite (lit_ci_app _ _ _ K).
    assert (G1 : Regex.rmatch (Regex.Group 1 Regex.word) (t ++ rest) []
                   (fun s' c' =>
                      Regex.rmatch
                        (Regex.Opt (Regex.Seq (Regex.Lit " WHERE ")
                                              (Regex.Group 2 Regex.any1)))
                        s' c' fin)
                 = Some [(1%nat, t)]).
    { apply rmatch_group_run; auto.
      cbn [Regex.rmatch]. now rewrite (begins_ci_false _ _ B). }
    settle G1. reflexivity.
Qed.

Lemma parse_delete_reads_witness :
  Parser.parse_delete "DELETE FROM t WHERE id = 1" = Ok ("t", Some "id = 1") /\
  Parser.parse_delete "DELETE FROM t  WHERE id = 1" = Ok ("t", None).
Proof.
  destruct (parse_delete_reads "DELETE FROM " "t") as (H1 & H2);
    [reflexivity..|].
  split.
  - apply (H1 " WHERE " "id = 1"); reflexivity.
  - apply (H2 "  WHERE id = 1"); reflexivity.
Defined.

(** *** Conditions with one operator, SET assignments *)

Lemma prefix_cons a r c s :
  String.prefix (String a r) (String c s)
  = if Ascii.eqb a c then String.prefix r s else false.
Proof.
  change (String.prefix (String a r) (String c s))
    with (if ascii_dec a c then String.prefix r s else false).
  destruct (ascii_dec a c) as [->|N].
  - now rewrite Ascii.eqb_refl.
  - apply Ascii.eqb_neq in N. now rewrite N.
Qed.

Lemma prefix_empty s : String.prefix "" s = true.
Proof. now destruct s. Qed.

Lemma prefix_app p b : String.prefix p (p ++ b) = true.
Proof.
  induction p as [|c p IH]; cbn [append]; [apply prefix_empty|].
  now rewrite prefix_cons, Ascii.eqb_refl.
Qed.

Lemma drop_app p b : drop (String.length p) (p ++ b) = b.
Proof. induction p as [|c p IH]; cbn; [reflexivity|exact IH]. Qed.

Lemma contains_cons a s sub :
  contains (String a s) sub
  = if String.prefix sub (String a s) then true else contains s sub.
Proof. reflexivity. Qed.

Lemma prefix_foreign c0 rest s :
  all_chars (fun c => negb (Ascii.eqb c c0)) s = true ->
  String.prefix (String c0 rest) s = false.
Proof.
  destruct s as [|c s]; [reflexivity|].
  unfold all_chars. cbn [list_ascii_of_string forallb]. intros H.
  apply andb_true_iff in H. destruct H as [H _]. apply negb_true_iff in H.
  rewrite prefix_cons. rewrite Ascii.eqb_sym, H. reflexivity.
Qed.

Lemma contains_app_foreign a b c0 rest :
  all_chars (fun c => negb (Ascii.eqb c c0)) a = true ->
  contains (a ++ b) (String c0 rest) = contains b (String c0 rest).
Proof.
  unfold all_chars. induction a as [|c a IH];
    cbn [list_ascii_of_string forallb append]; [reflexivity|].
  intros H. apply andb_true_iff in H. destruct H as [H1 H2].
  apply negb_true_iff in H1.
  rewrite contains_cons, prefix_cons, Ascii.eqb_sym, H1. now apply IH.
Qed.

Lemma split_once_cons a s sep :
  split_once (String a s) sep
  = if String.prefix sep (String a s)
    then Some ("", drop (String.length sep) (String a s))
    else match split_once s sep with
         | Some (l, r) => Some (String a l, r)
         | None => None
         end.
Proof. reflexivity. Qed.

(** The separator is found where it first stands. *)
Lemma split_once_first a c0 rest b :
  all_chars (fun c => negb (Ascii.eqb c c0)) a = true ->
  split_once (a ++ String c0 rest ++ b) (String c0 rest) = Some (a, b).
Proof.
  unfold all_chars. induction a as [|c a IH];
    cbn [list_ascii_of_string forallb]; intros H.
  - cbn [append]. rewrite split_once_cons.
    change (String c0 (rest ++ b)) with (String c0 rest ++ b).
    now rewrite prefix_app, drop_app.
  - apply andb_true_iff in H. destruct H as [H1 H2].
    apply negb_true_iff in H1.
    change (String c a ++ String c0 rest ++ b)
      with (String c (a ++ String c0 rest ++ b)).
    rewrite split_once_cons, prefix_cons, Ascii.eqb_sym, H1.
    now rewrite (IH H2).
Qed.

Lemma split_once_absent s c0 rest :
  all_chars (fun c => negb (Ascii.eqb c c0)) s = true ->
  split_once s (String c0 rest) = None.
Proof.
  unfold all_chars. induction s as [|c s IH];
    cbn [list_ascii_of_string forallb]; intros H; [reflexivity|].
  apply andb_true_iff in H. destruct H as [H1 H2].
  apply negb_true_iff in H1.
  rewrite split_once_cons, prefix_cons, Ascii.eqb_sym, H1.
  now rewrite (IH H2).
Qed.

Lemma split_once_contains s sep l r :
  split_once s sep = Some (l, r) -> contains s sep = true.
Proof.
  revert l r. induction s as [|c s IH]; intros l r.
  - cbn [split_once contains]. destruct (String.prefix sep ""); [auto|discriminate].
  - rewrite split_once_cons, contains_cons.
    destruct (String.prefix sep (String c s)); [auto|].
    destruct (split_once s sep) as [[l' r']|] eqn:E; [|discriminate].
    intros _. now apply (IH l' r').
Qed.

Lemma operator_free_foreign s c0 :
  operator_free s = true -> is_op_char c0 = true ->
  all_chars (fun c => negb (Ascii.eqb c c0)) s = true.
Proof.
  intros H O. apply (all_chars_weaken (fun c => negb (is_op_char c))); [|exact H].
  intros c N. destruct (Ascii.eqb c c0) eqn:E; [|reflexivity].
  apply Ascii.eqb_eq in E. subst c. now rewrite O in N.
Qed.

(** A text of operator characters begins [m ++ rt] only if it begins
    [m]. *)
Lemma prefix_operator p :
  all_chars is_op_char p = true ->
  forall m rt,
    operator_free rt = true -> p <> "" ->
    String.prefix p (m ++ rt) = String.prefix p m.
Proof.
  unfold all_chars. induction p as [|a p IH]; intros P m rt R N; [congruence|].
  cbn [list_ascii_of_string forallb] in P. apply andb_true_iff in P.
  destruct P as [Pa Pp].
  destruct m as [|c m].
  - cbn [append]. rewrite prefix_foreign; [reflexivity|].
    now apply operator_free_foreign.
  - cbn [append]. rewrite !prefix_cons.
    destruct (Ascii.eqb a c); [|reflexivity].
    destruct p as [|b p]; [now rewrite !prefix_empty|].
    apply IH; [exact Pp|exact R|discriminate].
Qed.

(** An operator occurs in [l ++ m ++ rt] only where it occurs in [m]. *)
Lemma contains_operator l m rt p0 p :
  operator_free l = true -> operator_free rt = true ->
  all_chars is_op_char (String p0 p) = true ->
  contains (l ++ m ++ rt) (String p0 p) = contains m (String p0 p).
Proof.
  intros L R P.
  assert (O : is_op_char p0 = true).
  { unfold all_chars in P. cbn [list_ascii_of_string forallb] in P.
    apply andb_true_iff in P. now destruct P. }
  rewrite contains_app_foreign by now apply operator_free_foreign.
  induction m as [|c m IH].
  - cbn [append]. rewrite contains_foreign by now apply operator_free_foreign.
    reflexivity.
  - cbn [append]. rewrite !contains_cons.
    change (String c (m ++ rt)) with (String c m ++ rt).
    rewrite (prefix_operator _ P (String c m) rt R) by discriminate.
    now rewrite IH.
Qed.

Lemma single_operator l op rt :
  In op Parser.operators ->
  operator_free l = true -> operator_free rt = true ->
  first_operator (l ++ op ++ rt) = Some op /\
  split_once (l ++ op ++ rt) op = Some (l, rt).
Proof.
  intros I Hl Hr.
  unfold first_operator, Parser.operators in *. cbn [In] in I.
  destruct I as [<-|[<-|[<-|[<-|[<-|[<-|[]]]]]]]; cbn [find];
    (split;
     [rewrite !contains_operator by first [assumption|reflexivity];
      reflexivity
     |apply split_once_first; apply operator_free_foreign;
      [assumption|reflexivity]]).
Qed.

Lemma evaluate_single r l op rt :
  In op Parser.operators ->
  operator_free l = true -> operator_free rt = true ->
  Parser.evaluate_condition r (l ++ op ++ rt)
  = Parser.apply_op op (lookup r (strip l)) (Parser._parse_value (strip rt)).
Proof.
  intros I Hl Hr. destruct (single_operator l op rt I Hl Hr) as [F S].
  unfold Parser.evaluate_condition. rewrite evaluate_with_first.
  unfold first_operator in F. rewrite F, S. reflexivity.
Qed.

(** X21. For a condition l op r, where op is one of the six operators and
    neither l nor r holds an operator character, evaluate_condition applies
    op to the row's value for the stripped l (None when the row lacks it)
    and to the literal parsed from the stripped r. *)
Theorem evaluate_condition_single_operator r l op rt :
  In op Parser.operators ->
  operator_free l = true -> operator_free rt = true ->
  Parser.evaluate_condition r (l ++ op ++ rt)
  = Parser.apply_op op (lookup r (strip l)) (Parser._parse_value (strip rt)).
Proof. exact (evaluate_single r l op rt). Qed.

Lemma lstrip_blank p s x :
  all_chars p s = true -> lstrip_by p (s ++ x) = lstrip_by p x.
Proof.
  unfold all_chars. induction s as [|c s IH];
    cbn [list_ascii_of_string forallb append]; intros H; [reflexivity|].
  apply andb_true_iff in H. destruct H as [H1 H2].
  cbn [lstrip_by]. rewrite H1. now apply IH.
Qed.

Lemma evaluate_condition_single_operator_witness :
  Parser.evaluate_condition [("age", VInt 5)] "age >= 3" = Ok true.
Proof.
  apply (evaluate_condition_single_operator [("age", VInt 5)] "age " ">=" " 3").
  - left. reflexivity.
  - reflexivity.
  - reflexivity.
Defined.

Lemma all_chars_rev p s : all_chars p (rev s) = all_chars p s.
Proof.
  unfold rev. rewrite all_chars_rev_onto.
  change (all_chars p "") with true. now rewrite andb_true_r.
Qed.

Lemma lstrip_keep p x y :
  all_chars (fun c => negb (p c)) x = true -> x <> "" ->
  lstrip_by p (x ++ y) = x ++ y.
Proof.
  destruct x as [|c x]; [congruence|]. unfold all_chars.
  cbn [list_ascii_of_string forallb append lstrip_by]. intros H _.
  apply andb_true_iff in H. destruct H as [H _].
  apply negb_true_iff in H. now rewrite H.
Qed.

(** Blanks around a text without blanks are stripped. *)
Lemma strip_padded s1 x s2 :
  blank s1 = true -> blank s2 = true ->
  all_chars (fun c => negb (is_space c)) x = true ->
  strip (s1 ++ x ++ s2) = x.
Proof.
  unfold blank. intros B1 B2 X. unfold strip, strip_by, rstrip_by.
  rewrite (lstrip_blank _ _ _ B1).
  destruct x as [|c x].
  - cbn [append]. rewrite <- (append_empty s2) at 1.
    rewrite (lstrip_blank _ _ _ B2). reflexivity.
  - rewrite lstrip_keep by (auto; discriminate).
    rewrite rev_app. rewrite lstrip_blank by now rewrite all_chars_rev.
    rewrite lstrip_by_none by now rewrite all_chars_rev.
    apply rev_rev.
Qed.

Lemma word_char_facts c :
  is_word c = true -> is_space c = false /\ is_op_char c = false.
Proof.
  destruct c as [b0 b1 b2 b3 b4 b5 b6 b7].
  destruct b0, b1, b2, b3, b4, b5, b6, b7; intros H; try discriminate H;
    split; reflexivity.
Qed.

Lemma space_char_facts c : is_space c = true -> is_op_char c = false.
Proof.
  destruct c as [b0 b1 b2 b3 b4 b5 b6 b7].
  destruct b0, b1, b2, b3, b4, b5, b6, b7; intros H; try discriminate H;
    reflexivity.
Qed.

Lemma num_char_plain c :
  is_num_char c = true -> is_space c = false /\ is_op_char c = false.
Proof.
  destruct c as [b0 b1 b2 b3 b4 b5 b6 b7].
  destruct b0, b1, b2, b3, b4, b5, b6, b7; intros H; try discriminate H;
    split; reflexivity.
Qed.

Lemma apply_op_ints a k :
  Parser.apply_op "=" (VInt a) (VInt k) = Ok (a =? k) /\
  Parser.apply_op "!=" (VInt a) (VInt k) = Ok (negb (a =? k)) /\
  Parser.apply_op ">" (VInt a) (VInt k) = Ok (k <? a) /\
  Parser.apply_op "<" (VInt a) (VInt k) = Ok (a <? k) /\
  Parser.apply_op ">=" (VInt a) (VInt k) = Ok (k <=? a) /\
  Parser.apply_op "<=" (VInt a) (VInt k) = Ok (a <=? k).
Proof.
  unfold Parser.apply_op. cbn [String.eqb Ascii.eqb Bool.eqb andb].
  unfold py_ne. rewrite py_eq_ints.
  unfold py_gt, py_lt, py_ge, py_le, py_order. cbn [as_num num_cmp].
  unfold is_ge, is_le, is_gt, is_lt.
  rewrite (Z.ltb_compare k a), (Z.ltb_compare a k),
          (Z.leb_compare k a), (Z.leb_compare a k).
  rewrite (Z.compare_antisym a k).
  repeat split; destruct (a ?= k); reflexivity.
Qed.

Lemma evaluate_int r col a k s1 s2 op :
  In op Parser.operators ->
  PyDict.get r col = Some (VInt a) ->
  all_chars is_word col = true ->
  blank s1 = true -> blank s2 = true ->
  Parser.evaluate_condition r ((col ++ s1) ++ op ++ (s2 ++ string_of_Z k))
  = Parser.apply_op op (VInt a) (VInt k).
Proof.
  intros I G W B1 B2.
  rewrite evaluate_single; [|exact I| |].
  - replace (strip (col ++ s1)) with col.
    + replace (strip (s2 ++ string_of_Z k)) with (string_of_Z k).
      * rewrite parse_value_string_of_Z. unfold lookup. now rewrite G.
      * symmetry. rewrite <- (append_empty (string_of_Z k)) at 1.
        apply strip_padded; [exact B2|reflexivity|].
        apply (all_chars_weaken is_num_char); [|apply all_num_string_of_Z].
        intros c H. destruct (num_char_plain c H) as [-> _]. reflexivity.
    + symmetry. apply (strip_padded "" col s1); [reflexivity|exact B1|].
      apply (all_chars_weaken is_word); [|exact W].
      intros c H. destruct (word_char_facts c H) as [-> _]. reflexivity.
  - unfold operator_free. rewrite all_chars_app. apply andb_true_iff. split.
    + apply (all_chars_weaken is_word); [|exact W].
      intros c H. destruct (word_char_facts c H) as [_ ->]. reflexivity.
    + apply (all_chars_weaken is_space); [|exact B1].
      intros c H. now rewrite (space_char_facts c H).
  - unfold operator_free. rewrite all_chars_app. apply andb_true_iff. split.
    + apply (all_chars_weaken is_space); [|exact B2].
      intros c H. now rewrite (space_char_facts c H).
    + apply (all_chars_weaken is_num_char); [|apply all_num_string_of_Z].
      intros c H. destruct (num_char_plain c H) as [_ ->]. reflexivity.
Qed.

(** X22. On a row whose column, a name of word characters, holds the integer
    a, the conditions col op k with blanks around op and an integer literal
    k evaluate to a = k, a <> k, a > k, a < k, a >= k and a <= k for the six
    operators. *)
Theorem evaluate_int_comparison r col a k s1 s2 :
  PyDict.get r col = Some (VInt a) ->
  all_chars is_word col = true ->
  blank s1 = true -> blank s2 = true ->
  let cond op := (col ++ s1) ++ op ++ (s2 ++ string_of_Z k) in
  Parser.evaluate_condition r (cond "=") = Ok (a =? k) /\
  Parser.evaluate_condition r (cond "!=") = Ok (negb (a =? k)) /\
  Parser.evaluate_condition r (cond ">") = Ok (k <? a) /\
  Parser.evaluate_condition r (cond "<") = Ok (a <? k) /\
  Parser.evaluate_condition r (cond ">=") = Ok (k <=? a) /\
  Parser.evaluate_condition r (cond "<=") = Ok (a <=? k).
Proof.
  intros G W B1 B2 cond. unfold cond.
  destruct (apply_op_ints a k) as (E1 & E2 & E3 & E4 & E5 & E6).
  rewrite <- E1, <- E2, <- E3, <- E4, <- E5, <- E6.
  repeat split; apply evaluate_int; auto;
    unfold Parser.operators; cbn [In]; auto 10.
Qed.

Lemma evaluate_int_comparison_witness :
  Parser.evaluate_condition [("age", VInt 5)] "age < -3" = Ok false.
Proof.
  destruct (evaluate_int_comparison [("age", VInt 5)] "age" 5 (-3) " " " ")
    as (_ & _ & _ & H & _); [reflexivity..|exact H].
Defined.

Lemma parse_assignments_ok asg :
  forall u,
    forallb (fun a => no_equals (fst a)) asg = true ->
    Parser.parse_assignments (List.map assignment_text asg) u
    = Ok (fold_left assign asg u).
Proof.
  induction asg as [|[l r] asg IH]; intros u H; [reflexivity|].
  cbn [forallb fst] in H. apply andb_true_iff in H. destruct H as [H1 H2].
  cbn [List.map Parser.parse_assignments fold_left].
  unfold assignment_text at 1. cbn [fst snd].
  rewrite (split_once_first l "=" "" r H1).
  now rewrite IH.
Qed.

(** X23. The assignment loop of parse_update splits every assignment at its
    first '=' (the value may hold further ones), strips both sides and
    parses the value, a later assignment to a column replacing an earlier
    one; the first assignment without '=' raises 'Invalid assignment: '
    followed by its text. *)
Theorem parse_assignments_reads asg u :
  forallb (fun a => no_equals (fst a)) asg = true ->
  Parser.parse_assignments (List.map assignment_text asg) u
  = Ok (fold_left assign asg u) /\
  (forall x rest,
      no_equals x = true ->
      Parser.parse_assignments (List.map assignment_text asg ++ x :: rest) u
      = Raise (ValueError ("Invalid assignment: " ++ x))).
Proof.
  intros H. split; [now apply parse_assignments_ok|].
  intros x rest X. revert u H.
  induction asg as [|[l r] asg IH]; intros u H.
  - cbn [List.map List.app Parser.parse_assignments].
    now rewrite (split_once_absent x "=" "" X).
  - cbn [forallb fst] in H. apply andb_true_iff in H. destruct H as [H1 H2].
    cbn [List.map List.app Parser.parse_assignments].
    unfold assignment_text at 1. cbn [fst snd].
    rewrite (split_once_first l "=" "" r H1).
    now apply IH.
Qed.

Lemma parse_assignments_reads_witness :
  Parser.parse_assignments ["name=a=b"; "age = 3"] []
  = Ok [("name", VStr "a=b"); ("age", VInt 3)] /\
  Parser.parse_assignments ["name=a"; "b"; "c=1"] []
  = Raise (ValueError "Invalid assignment: b").
Proof.
  split.
  - destruct (parse_assignments_reads [("name", "a=b"); ("age ", " 3")] [])
      as (H & _); [reflexivity|exact H].
  - destruct (parse_assignments_reads [("name", "a")] []) as (_ & H);
      [reflexivity|].
    apply (H "b" ["c=1"]). reflexivity.
Defined.

(** *** Errors and sessions at the command boundary *)

Lemma not_error_text c s :
  c <> "E"%char -> c <> "U"%char -> ~ is_error (OStr (String c s)).
Proof.
  intros NE NU [m [H|H]]; cbn [append] in H; inversion H; congruence.
Qed.

Lemma not_error_count n s : ~ is_error (OStr (string_of_Z n ++ s)).
Proof.
  destruct (string_of_Z_head n) as (c & r & -> & H).
  cbn [append]. apply not_error_text; intros ->; discriminate H.
Qed.

Lemma create_table_failure t cols st :
  same_storage st (snd (Core.create_table t cols st)) \/
  ~ is_error (fst (Core.create_table t cols st)).
Proof.
  unfold Core.create_table.
  pose proof (table_exists_same t st) as H.
  destruct (Utils.table_exists t st) as [ex st1]; cbn [snd] in H.
  destruct ex; [left; exact H|right].
  destruct (Utils.read_table_metadata st1). cbn [fst].
  apply not_error_text; discriminate.
Qed.

Lemma drop_table_failure t a st :
  same_storage st (snd (Core.drop_table t a st)) \/
  ~ is_error (fst (Core.drop_table t a st)).
Proof.
  unfold Core.drop_table.
  destruct (confirmed a); cbn [negb]; [|left; apply same_storage_refl].
  pose proof (table_exists_same t st) as H.
  destruct (Utils.table_exists t st) as [ex st1]; cbn [snd] in H.
  destruct ex; cbn [negb]; [right|left; exact H].
  destruct (Utils.read_table_metadata st1). cbn [fst].
  apply not_error_text; discriminate.
Qed.

Lemma insert_row_failure t vs st :
  same_storage st (snd (Core.insert_row t vs st)) \/
  ~ is_error (fst (Core.insert_row t vs st)).
Proof.
  unfold Core.insert_row.
  pose proof (table_exists_same t st) as H.
  destruct (Utils.table_exists t st) as [ex st1]; cbn [snd] in H.
  destruct ex; cbn [negb]; [|left; exact H].
  pose proof (read_table_metadata_same st1) as H1.
  destruct (Utils.read_table_metadata st1) as [m st2]. cbn [snd] in H1.
  pose proof (same_storage_trans _ _ _ H H1) as H2.
  destruct (Utils.validate_row_data _ _); [|left; exact H2].
  destruct (Core.next_id _); [|left; exact H2].
  right. cbn [fst]. apply not_error_text; discriminate.
Qed.

Lemma update_rows_failure t us w st :
  same_storage st (snd (Core.update_rows t us w st)) \/
  ~ is_error (fst (Core.update_rows t us w st)).
Proof.
  unfold Core.update_rows.
  pose proof (table_exists_same t st) as H.
  destruct (Utils.table_exists t st) as [ex st1]; cbn [snd] in H.
  destruct ex; cbn [negb]; [|left; exact H].
  pose proof (read_table_metadata_same st1) as H1.
  destruct (Utils.read_table_metadata st1) as [m st2]. cbn [snd] in H1.
  pose proof (same_storage_trans _ _ _ H H1) as H2.
  destruct (Core.coerce_updates _ _ _) as [[msg|u]|e]; [left; exact H2| |left; exact H2].
  destruct (Core.apply_updates _ _ _) as [[data n]|e]; [|left; exact H2].
  right. cbn [fst]. apply not_error_count.
Qed.

Lemma delete_rows_failure t w a st :
  same_storage st (snd (Core.delete_rows t w a st)) \/
  ~ is_error (fst (Core.delete_rows t w a st)).
Proof.
  unfold Core.delete_rows.
  destruct (confirmed a); cbn [negb]; [|left; apply same_storage_refl].
  pose proof (table_exists_same t st) as H.
  destruct (Utils.table_exists t st) as [ex st1]; cbn [snd] in H.
  destruct ex; cbn [negb]; [|left; exact H].
  destruct (if Core.truthy w then _ else _); [|left; exact H].
  right. cbn [fst]. apply not_error_count.
Qed.

Lemma list_tables_store st :
  snd (Core.list_tables st) = snd (Utils.read_table_metadata st).
Proof.
  unfold Core.list_tables. now destruct (Utils.read_table_metadata st).
Qed.

Lemma select_rows_store t cs w st :
  snd (Core.select_rows t cs w st) = snd (Utils.read_table_metadata st).
Proof.
  unfold Core.select_rows, Utils.table_exists.
  destruct (Utils.read_table_metadata st) as [m st1].
  destruct (PyDict.mem m t); cbn [negb snd]; [|reflexivity].
  destruct (if Core.truthy w then _ else _); [|reflexivity].
  now destruct (negb (Core.is_star cs)).
Qed.

(** The store after LIST TABLES, whatever is reported. *)
Lemma list_command_store st :
  snd (match Core.list_tables st with
       | (ONames [], st') => (OStr "No tables exist", st')
       | r => r
       end) = snd (Utils.read_table_metadata st).
Proof.
  rewrite <- list_tables_store.
  destruct (Core.list_tables st) as [[s|rs|[|n ns]] st']; reflexivity.
Qed.

Lemma list_command_output st :
  ~ is_error (fst (match Core.list_tables st with
                   | (ONames [], st') => (OStr "No tables exist", st')
                   | r => r
                   end)).
Proof.
  unfold Core.list_tables. destruct (Utils.read_table_metadata st) as [m st'].
  destruct (PyDict.keys m); cbn [fst].
  - apply not_error_text; discriminate.
  - intros [x [H|H]]; discriminate H.
Qed.

Lemma execute_command_failure command answer st :
  same_storage st (snd (Session.execute_command command answer st)) \/
  ~ is_error (fst (Session.execute_command command answer st)).
Proof.
  unfold Session.execute_command, Session.parsed.
  repeat match goal with
         | |- context [if ?b then _ else _] => destruct b
         end.
  - destruct (Parser.parse_create_table _) as [[t cols]|e];
      [apply create_table_failure|left; apply same_storage_refl].
  - destruct (Parser.parse_drop_table _) as [t|e];
      [apply drop_table_failure|left; apply same_storage_refl].
  - left. rewrite list_command_store. apply read_table_metadata_same.
  - destruct (Parser.parse_insert _) as [[t vs]|e];
      [apply insert_row_failure|left; apply same_storage_refl].
  - destruct (Parser.parse_select _) as [[[t cs] w]|e];
      [left; apply select_rows_same|left; apply same_storage_refl].
  - destruct (Parser.parse_update _) as [[[t us] w]|e];
      [apply update_rows_failure|left; apply same_storage_refl].
  - destruct (Parser.parse_delete _) as [[t w]|e];
      [apply delete_rows_failure|left; apply same_storage_refl].
  - left. apply same_storage_refl.
Qed.

(** X24. Whenever execute_command answers 'Error: ...' or 'Unexpected error:
    ...', the files and the metadata are what they were before the command. *)
Theorem failed_command_changes_nothing command answer st :
  is_error (fst (Session.execute_command command answer st)) ->
  same_storage st (snd (Session.execute_command command answer st)).
Proof.
  intros E. destruct (execute_command_failure command answer st) as [H|H];
    [exact H|contradiction].
Qed.

Lemma failed_command_changes_nothing_witness :
  same_storage demo_store
    (snd (Session.execute_command "INSERT INTO t VALUES (1, 2)" "" demo_store)).
Proof.
  apply (failed_command_changes_nothing "INSERT INTO t VALUES (1, 2)" ""
           demo_store).
  exists "Table does not exist". left. reflexivity.
Defined.

Lemma execute_command_reachable command answer st :
  reachable st -> reachable (snd (Session.execute_command command answer st)).
Proof.
  intros R. unfold Session.execute_command, Session.parsed.
  repeat match goal with
         | |- context [if ?b then _ else _] => destruct b
         end.
  - destruct (Parser.parse_create_table _) as [[t cols]|e];
      [now apply reach_create|exact R].
  - destruct (Parser.parse_drop_table _) as [t|e];
      [now apply reach_drop|exact R].
  - rewrite list_command_store, <- (select_rows_store "" [] None).
    now apply reach_select.
  - destruct (Parser.parse_insert _) as [[t vs]|e];
      [now apply reach_insert|exact R].
  - destruct (Parser.parse_select _) as [[[t cs] w]|e];
      [now apply reach_select|exact R].
  - destruct (Parser.parse_update _) as [[[t us] w]|e];
      [now apply reach_update|exact R].
  - destruct (Parser.parse_delete _) as [[t w]|e];
      [now apply reach_delete|exact R].
  - exact R.
Qed.

Lemma run_session_reachable cmds st :
  reachable st -> reachable (run_session cmds st).
Proof.
  revert st. induction cmds as [|[c a] cmds IH]; intros st R; [exact R|].
  cbn [run_session fold_left]. apply IH.
  now apply execute_command_reachable.
Qed.

(** X25. After any sequence of commands run from the empty store, table
    names and data file paths are distinct, every schema has distinct column
    names and a column id, and the metadata file has not been written. *)
Theorem sessions_keep_invariants cmds :
  store_wf (run_session cmds empty_store) /\
  schemas_wf (run_session cmds empty_store) /\
  meta_file (run_session cmds empty_store) = None /\
  (forall t cols,
     has_table (run_session cmds empty_store) t cols ->
     PyDict.get cols "id" <> None /\ NoDup (PyDict.keys cols)).
Proof.
  pose proof (run_session_reachable cmds empty_store reach_empty) as R.
  split; [now apply reachable_store_wf|].
  split; [now apply reachable_schemas_wf|].
  split; [now apply reachable_meta_file|].
  intros t cols H. destruct (reachable_table_wf _ _ _ R H) as [N M].
  split; [|exact N].
  unfold PyDict.mem in M. destruct (PyDict.get cols "id"); [discriminate|discriminate].
Qed.

(** *** The statement patterns: SELECT *)

Lemma occurs_ci_cons p c s :
  occurs_ci p (String c s)
  = if begins_ci p (String c s) then true else occurs_ci p s.
Proof. reflexivity. Qed.

Lemma occurs_ci_suffix p s :
  occurs_ci p s = false ->
  forall a b, s = a ++ b -> Regex.lit_ci p b = None.
Proof.
  intros H a. revert s H. induction a as [|x a IH]; intros s H b E.
  - cbn [append] in E. subst b. apply begins_ci_false.
    destruct s; cbn [occurs_ci] in H;
      destruct (begins_ci p _); [discriminate|reflexivity
                                |discriminate|reflexivity].
  - cbn [append] in E. subst s. rewrite occurs_ci_cons in H.
    destruct (begins_ci p (String x (a ++ b))); [discriminate|].
    now apply (IH (a ++ b)).
Qed.

Lemma lit_ci_suffix p :
  forall s r, Regex.lit_ci p s = Some r -> exists k, s = k ++ r.
Proof.
  induction p as [|c p IH]; intros s r H.
  - cbn [Regex.lit_ci] in H. injection H as ->. now exists "".
  - destruct s as [|x s]; cbn [Regex.lit_ci] in H; [discriminate|].
    destruct (Regex.eq_ci c x); [|discriminate].
    destruct (IH s r H) as [k ->]. now exists (String x k).
Qed.

Lemma suffix_trans a b k s r : s = a ++ b -> b = k ++ r -> s = (a ++ k) ++ r.
Proof. intros -> ->. now rewrite str_append_assoc. Qed.

Lemma word_not_blank x : is_word x = true -> Regex.eq_ci " " x = false.
Proof.
  destruct x as [b0 b1 b2 b3 b4 b5 b6 b7].
  destruct b0, b1, b2, b3, b4, b5, b6, b7; intros H; try discriminate H;
    reflexivity.
Qed.

(** A keyword with a blank in it does not begin a name. *)
Lemma lit_ci_word p q :
  forall t, all_chars is_word t = true ->
            Regex.lit_ci (p ++ String " " q) t = None.
Proof.
  unfold all_chars. induction p as [|c p IH]; intros [|x t] H;
    cbn [append Regex.lit_ci]; try reflexivity;
    cbn [list_ascii_of_string forallb] in H;
    apply andb_true_iff in H; destruct H as [Hx Ht].
  - now rewrite (word_not_blank x Hx).
  - destruct (Regex.eq_ci c x); [now apply IH|reflexivity].
Qed.

(** After its first character, [ FROM name] holds no further [ FROM ]. *)
Lemma from_once k2 t a b :
  lower k2 = lower " FROM " ->
  all_chars is_word t = true ->
  k2 ++ t = a ++ b -> b <> k2 ++ t ->
  Regex.lit_ci " FROM " b = None.
Proof.
  intros K W E D.
  destruct k2 as [|c0 [|c1 [|c2 [|c3 [|c4 [|c5 [|c6 k2]]]]]]];
    try discriminate K.
  unfold lower in K. cbn [PyStr.map] in K.
  injection K as K0 K1 K2 K3 K4 K5.
  change (lower_char " ") with " "%char in *.
  change (lower_char "F") with "f"%char in *.
  change (lower_char "R") with "r"%char in *.
  change (lower_char "O") with "o"%char in *.
  change (lower_char "M") with "m"%char in *.
  cbn [append] in E, D.
  destruct a as [|a0 a]; [cbn [append] in E; congruence|].
  destruct a as [|a1 a]; cbn [append] in E.
  { injection E as _ <-. cbn [Regex.lit_ci]. unfold Regex.eq_ci.
    change (lower_char " ") with " "%char. now rewrite K1. }
  destruct a as [|a2 a]; cbn [append] in E.
  { injection E as _ _ <-. cbn [Regex.lit_ci]. unfold Regex.eq_ci.
    change (lower_char " ") with " "%char. now rewrite K2. }
  destruct a as [|a3 a]; cbn [append] in E.
  { injection E as _ _ _ <-. cbn [Regex.lit_ci]. unfold Regex.eq_ci.
    change (lower_char " ") with " "%char. now rewrite K3. }
  destruct a as [|a4 a]; cbn [append] in E.
  { injection E as _ _ _ _ <-. cbn [Regex.lit_ci]. unfold Regex.eq_ci.
    change (lower_char " ") with " "%char. now rewrite K4. }
  destruct a as [|a5 a]; cbn [append] in E.
  { injection E as _ _ _ _ _ <-.
    change (Regex.lit_ci " FROM " (String c5 t))
      with (if Regex.eq_ci " " c5 then Regex.lit_ci "FROM " t else None).
    pose proof (lit_ci_word "FROM" "" t W) as L. cbn [append] in L.
    rewrite L. now destruct (Regex.eq_ci " " c5). }
  injection E as _ _ _ _ _ _ E.
  rewrite E, all_chars_app in W. apply andb_true_iff in W.
  destruct W as [_ W]. destruct b as [|x b]; [reflexivity|].
  unfold all_chars in W. cbn [list_ascii_of_string forallb] in W.
  apply andb_true_iff in W. destruct W as [W _].
  cbn [Regex.lit_ci]. now rewrite (word_not_blank x W).
Qed.

Lemma select_where_absent k1 s :
  lower k1 = lower "SELECT " ->
  occurs_ci " WHERE " s = false ->
  Regex.re_match Parser.select_where_pattern (k1 ++ s) = None.
Proof.
  intros K1 N.
  unfold Regex.re_match, Parser.select_where_pattern.
  unfold Regex.word, Regex.any1. cbn [Regex.rmatch].
  rewrite (lit_ci_app _ _ _ K1).
  apply many_greedy_none. intros a b E.
  destruct (Regex.lit_ci " FROM " b) as [b1|] eqn:L1; [|reflexivity].
  destruct (lit_ci_suffix _ _ _ L1) as [k E1].
  apply many_greedy_none. intros a' b' E'.
  rewrite (occurs_ci_suffix _ _ N ((a ++ k) ++ a') b'); [reflexivity|].
  rewrite str_append_assoc. rewrite <- E'.
  now apply suffix_trans with (b := b).
Qed.

(** X26. parse_select on SELECT columns FROM name, with no ' WHERE '
    anywhere, returns the name, the columns and no condition; when ' WHERE '
    and a condition follow the name, and no further ' FROM ' comes after the
    first, it returns the condition as well. *)
Theorem parse_select_reads k1 cols k2 t :
  lower k1 = lower "SELECT " ->
  lower k2 = lower " FROM " ->
  one_line cols = true ->
  word_name t = true ->
  (occurs_ci " WHERE " (cols ++ k2 ++ t) = false ->
   Parser.parse_select (k1 ++ cols ++ k2 ++ t)
   = Ok (t, Parser.parse_select_columns cols, None)) /\
  (forall k3 cond,
      lower k3 = lower " WHERE " ->
      one_line cond = true ->
      occurs_ci " FROM " (drop 1 (k2 ++ t ++ k3 ++ cond)) = false ->
      Parser.parse_select (k1 ++ cols ++ k2 ++ t ++ k3 ++ cond)
      = Ok (t, Parser.parse_select_columns cols, Some cond)).
Proof.
  intros K1 K2 C W.
  destruct (one_line_facts cols C) as [Ac Lc].
  destruct (word_name_facts t W) as [At Lt].
  set (fin := fun (_ : string) (c : Regex.captures) => Some c).
  split.
  - intros N. unfold Parser.parse_select.
    rewrite (select_where_absent k1 _ K1 N).
    unfold Regex.re_match, Parser.select_simple_pattern.
    unfold Regex.word, Regex.any1. cbn [Regex.rmatch].
    rewrite (lit_ci_app _ _ _ K1).
    assert (G2 : Regex.rmatch (Regex.Group 2 Regex.word) t
                   [(1%nat, cols)] fin
                 = Some [(2%nat, t); (1%nat, cols)]).
    { rewrite <- (append_empty t) at 1.
      apply rmatch_group_run; auto. }
    assert (G1 : Regex.rmatch (Regex.Group 1 Regex.any1) (cols ++ k2 ++ t) []
                   (fun s' c' =>
                      Regex.rmatch (Regex.Lit " FROM ") s' c'
                        (fun s' c' =>
                           Regex.rmatch (Regex.Group 2 Regex.word) s' c' fin))
                 = Some [(2%nat, t); (1%nat, cols)]).
    { apply rmatch_group_backtrack; [exact Ac|exact Lc| |].
      - intros a b cp E D. cbn [Regex.rmatch].
        now rewrite (from_once k2 t a b K2 At E D).
      - cbn [Regex.rmatch]. rewrite (lit_ci_app _ _ _ K2).
        settle G2. reflexivity. }
    settle G1. reflexivity.
  - intros k3 cond K3 Cd F.
    destruct (one_line_facts cond Cd) as [Ad Ld].
    unfold Parser.parse_select.
    unfold Regex.re_match, Parser.select_where_pattern.
    unfold Regex.word, Regex.any1. cbn [Regex.rmatch].
    rewrite (lit_ci_app _ _ _ K1).
    assert (G3 : Regex.rmatch (Regex.Group 3 Regex.any1) cond
                   [(2%nat, t); (1%nat, cols)] fin
                 = Some [(3%nat, cond); (2%nat, t); (1%nat, cols)]).
    { rewrite <- (append_empty cond) at 1.
      apply rmatch_group_run; auto. }
    assert (G2 : Regex.rmatch (Regex.Group 2 Regex.word) (t ++ k3 ++ cond)
                   [(1%nat, cols)]
                   (fun s' c' =>
                      Regex.rmatch (Regex.Lit " WHERE ") s' c'
                        (fun s' c' =>
                           Regex.rmatch (Regex.Group 3 Regex.any1) s' c' fin))
                 = Some [(3%nat, cond); (2%nat, t); (1%nat, cols)]).
    { apply rmatch_group_run; [exact At|exact Lt| |].
      - now apply (keyword_stops k3 "WHERE ").
      - cbn [Regex.rmatch]. rewrite (lit_ci_app _ _ _ K3).
        settle G3. reflexivity. }
    assert (G1 : Regex.rmatch (Regex.Group 1 Regex.any1)
                   (cols ++ k2 ++ t ++ k3 ++ cond) []
                   (fun s' c' =>
                      Regex.rmatch (Regex.Lit " FROM ") s' c'
                        (fun s' c' =>
                           Regex.rmatch (Regex.Group 2 Regex.word) s' c'
                             (fun s' c' =>
                                Regex.rmatch (Regex.Lit " WHERE ") s' c'
                                  (fun s' c' =>
                                     Regex.rmatch (Regex.Group 3 Regex.any1)
                                       s' c' fin))))
                 = Some [(3%nat, cond); (2%nat, t); (1%nat, cols)]).
    { apply rmatch_group_backtrack; [exact Ac|exact Lc| |].
      - intros a b cp E D. cbn [Regex.rmatch].
        destruct a as [|x a]; [cbn [append] in E; congruence|].
        rewrite (occurs_ci_suffix _ _ F a b); [reflexivity|].
        rewrite E. reflexivity.
      - cbn [Regex.rmatch]. rewrite (lit_ci_app _ _ _ K2).
        settle G2. reflexivity. }
    settle G1. reflexivity.
Qed.

Lemma parse_select_reads_witness :
  Parser.parse_select "select name, ok from t"
  = Ok ("t", ["name"; "ok"], None) /\
  Parser.parse_select "SELECT * FROM t WHERE id = 1"
  = Ok ("t", ["*"], Some "id = 1").
Proof.
  split.
  - destruct (parse_select_reads "select " "name, ok" " from " "t")
      as (H & _); [reflexivity..|].
    apply H. reflexivity.
  - destruct (parse_select_reads "SELECT " "*" " FROM " "t")
      as (_ & H); [reflexivity..|].
    apply (H " WHERE " "id = 1"); reflexivity.
Defined.

(** *** The statement patterns: CREATE TABLE *)

Lemma token_facts s :
  token s = true ->
  all_chars (fun c => negb (is_space c)) s = true /\ s <> "".
Proof.
  unfold token. intros H. apply andb_true_iff in H. destruct H as [H N].
  split; [exact H|]. now destruct s.
Qed.

Lemma strip_blank s : blank s = true -> strip s = "".
Proof.
  intros B. rewrite <- (append_empty s).
  change (s ++ "") with (s ++ "" ++ "").
  now apply (strip_padded s "" "").
Qed.

(** Blanks around a text that neither begins nor ends with one are
    stripped. *)
Lemma strip_trim s1 x s2 :
  blank s1 = true -> blank s2 = true ->
  stops is_space x = true -> stops is_space (rev x) = true ->
  strip (s1 ++ x ++ s2) = x.
Proof.
  unfold blank. intros B1 B2 H T. unfold strip, strip_by, rstrip_by.
  rewrite (lstrip_blank _ _ _ B1).
  destruct x as [|c x].
  - cbn [append]. rewrite <- (append_empty s2) at 1.
    rewrite (lstrip_blank _ _ _ B2). reflexivity.
  - cbn [stops] in H. apply negb_true_iff in H.
    cbn [append lstrip_by]. rewrite H.
    change (String c (x ++ s2)) with (String c x ++ s2).
    rewrite rev_app. rewrite lstrip_blank by now rewrite all_chars_rev.
    destruct (rev (String c x)) as [|y r] eqn:E.
    + apply (f_equal rev) in E. rewrite rev_rev in E. discriminate E.
    + cbn [stops] in T. apply negb_true_iff in T.
      cbn [lstrip_by]. rewrite T. rewrite <- E. apply rev_rev.
Qed.

Lemma split_ws_token x :
  forall rest cur,
    all_chars (fun c => negb (is_space c)) x = true ->
    split_ws_from (x ++ rest) cur = split_ws_from rest (rev_onto x cur).
Proof.
  unfold all_chars. induction x as [|c x IH]; intros rest cur H;
    [reflexivity|].
  cbn [list_ascii_of_string forallb] in H. apply andb_true_iff in H.
  destruct H as [Hc Hx]. apply negb_true_iff in Hc.
  cbn [append split_ws_from rev_onto]. rewrite Hc. now apply IH.
Qed.

Lemma split_ws_blank s :
  forall rest,
    all_chars is_space s = true ->
    split_ws_from (s ++ rest) "" = split_ws_from rest "".
Proof.
  unfold all_chars. induction s as [|c s IH]; intros rest H; [reflexivity|].
  cbn [list_ascii_of_string forallb] in H. apply andb_true_iff in H.
  destruct H as [Hc Hs].
  cbn [append split_ws_from]. rewrite Hc. cbn [List.app]. now apply IH.
Qed.

Lemma rev_onto_nonempty x cur : x <> "" -> rev_onto x cur <> "".
Proof.
  intros N E. destruct x as [|c x]; [congruence|].
  pose proof (rev_onto_app (String c x) cur) as R. rewrite E in R.
  rewrite rev_cons in R. rewrite str_append_assoc in R.
  destruct (rev x); discriminate R.
Qed.

(** [name gap type] splits into the name and the type. *)
Lemma split_ws_pair name gap ty :
  token name = true -> blank gap = true -> gap <> "" -> token ty = true ->
  split_ws (name ++ gap ++ ty) = [name; ty].
Proof.
  intros N G GN T.
  destruct (token_facts name N) as [An Nn].
  destruct (token_facts ty T) as [At Nt].
  unfold split_ws. rewrite (split_ws_token name _ _ An).
  destruct gap as [|g gap]; [congruence|].
  unfold blank, all_chars in G. cbn [list_ascii_of_string forallb] in G.
  apply andb_true_iff in G. destruct G as [Hg G].
  cbn [append split_ws_from]. rewrite Hg.
  pose proof (rev_onto_nonempty name "" Nn) as NE.
  destruct (rev_onto name "") as [|y r] eqn:E; [congruence|].
  rewrite <- E. fold (rev name). fold (rev (rev name)). rewrite rev_rev.
  cbn [List.app]. f_equal.
  rewrite (split_ws_blank gap _ G).
  rewrite <- (append_empty ty) at 1.
  rewrite (split_ws_token ty "" "" At). cbn [split_ws_from].
  pose proof (rev_onto_nonempty ty "" Nt) as NE'.
  destruct (rev_onto ty "") as [|y' r'] eqn:E'; [congruence|].
  rewrite <- E'. fold (rev ty). fold (rev (rev ty)). now rewrite rev_rev.
Qed.

Lemma token_stops x :
  token x = true -> stops is_space x = true /\ stops is_space (rev x) = true.
Proof.
  intros T. destruct (token_facts x T) as [A N].
  assert (S : forall y, all_chars (fun c => negb (is_space c)) y = true ->
                        stops is_space y = true).
  { intros [|c y] H; [reflexivity|]. unfold all_chars in H.
    cbn [list_ascii_of_string forallb] in H. apply andb_true_iff in H.
    now destruct H. }
  split; apply S; [exact A|now rewrite all_chars_rev].
Qed.

Lemma stops_app_l cls x y : x <> "" -> stops cls (x ++ y) = stops cls x.
Proof. destruct x; [congruence|reflexivity]. Qed.

Lemma strip_token x : token x = true -> strip x = x.
Proof.
  intros T. destruct (token_facts x T) as [A _]. now apply strip_by_none.
Qed.

Lemma token_not_empty x : token x = true -> String.eqb x "" = false.
Proof. intros T. destruct (token_facts x T) as [_ N]. now destruct x. Qed.

(** The text of a definition, stripped and split. *)
Lemma column_parts d :
  column_shape d = true ->
  strip (column_text d) = cd_name d ++ cd_gap d ++ cd_type d /\
  String.eqb (strip (column_text d)) "" = false /\
  List.map strip
    (filter (fun part => negb (String.eqb (strip part) ""))
            (split_ws (strip (column_text d))))
  = [cd_name d; cd_type d].
Proof.
  unfold column_shape, column_text. intros H.
  repeat (apply andb_true_iff in H; destruct H as [H ?]).
  rename H into BL, H0 into BT, H1 into TT, H2 into GN, H3 into BG, H4 into TN.
  apply negb_true_iff in GN.
  assert (GN' : cd_gap d <> "") by (intros E; now rewrite E in GN).
  destruct (token_facts _ TN) as [An Nn].
  destruct (token_facts _ TT) as [At Nt].
  destruct (token_stops _ TN) as [Sn _].
  destruct (token_stops _ TT) as [_ St].
  assert (E : strip (cd_lead d ++ cd_name d ++ cd_gap d ++ cd_type d ++ cd_trail d)
              = cd_name d ++ cd_gap d ++ cd_type d).
  { replace (cd_lead d ++ cd_name d ++ cd_gap d ++ cd_type d ++ cd_trail d)
      with (cd_lead d ++ (cd_name d ++ cd_gap d ++ cd_type d) ++ cd_trail d)
      by now rewrite !str_append_assoc.
    apply strip_trim; auto.
    - now rewrite stops_app_l.
    - rewrite !rev_app, str_append_assoc. rewrite stops_app_l; [exact St|].
      intros R. apply (f_equal rev) in R. rewrite rev_rev in R.
      now apply Nt. }
  rewrite E. split; [reflexivity|split].
  - destruct (cd_name d); [congruence|reflexivity].
  - rewrite split_ws_pair by auto.
    cbn [filter]. rewrite !strip_token by auto.
    rewrite !token_not_empty by auto.
    cbn [negb List.map]. now rewrite !strip_token by auto.
Qed.

Lemma parse_columns_ok ds :
  forall acc,
    forallb column_ok ds = true ->
    Parser.parse_columns (List.map column_text ds) acc
    = Ok (fold_left declare ds acc).
Proof.
  induction ds as [|d ds IH]; intros acc H; [reflexivity|].
  cbn [forallb] in H. apply andb_true_iff in H. destruct H as [Hd Hds].
  unfold column_ok in Hd. apply andb_true_iff in Hd. destruct Hd as [Sh Ty].
  destruct (column_parts d Sh) as (_ & NE & P).
  cbn [List.map Parser.parse_columns fold_left].
  rewrite NE, P, Ty. cbn [negb]. now apply IH.
Qed.

Lemma split_char_plain x sep :
  all_chars (fun c => negb (Ascii.eqb c sep)) x = true ->
  forall rest,
    split_char (x ++ String sep rest) sep = x :: split_char rest sep.
Proof.
  unfold all_chars. induction x as [|c x IH]; intros H rest.
  - cbn [append split_char]. now rewrite Ascii.eqb_refl.
  - cbn [list_ascii_of_string forallb] in H. apply andb_true_iff in H.
    destruct H as [Hc Hx]. apply negb_true_iff in Hc.
    cbn [append split_char]. rewrite Hc, (IH Hx). reflexivity.
Qed.

Lemma split_char_last x sep :
  all_chars (fun c => negb (Ascii.eqb c sep)) x = true ->
  split_char x sep = [x].
Proof.
  unfold all_chars. induction x as [|c x IH]; intros H; [reflexivity|].
  cbn [list_ascii_of_string forallb] in H. apply andb_true_iff in H.
  destruct H as [Hc Hx]. apply negb_true_iff in Hc.
  cbn [split_char]. rewrite Hc, (IH Hx). reflexivity.
Qed.

(** Texts without a comma, joined by commas, split into themselves. *)
Lemma split_char_join xs :
  xs <> [] ->
  forallb no_comma xs = true ->
  split_char (join_commas xs) "," = xs.
Proof.
  induction xs as [|x xs IH]; intros N H; [congruence|].
  cbn [forallb] in H. apply andb_true_iff in H. destruct H as [Hx Hxs].
  destruct xs as [|y xs].
  - cbn [join_commas]. now apply split_char_last.
  - change (join_commas (x :: y :: xs))
      with (x ++ String "," (join_commas (y :: xs))).
    rewrite (split_char_plain x "," Hx). f_equal.
    apply IH; [discriminate|exact Hxs].
Qed.

(** X27. The column loop of parse_create_table adds each definition name
    type (blanks around, type supported in any case) to the schema in order
    with the type in lower case; an unsupported type raises 'Invalid data
    type: ' with the type, a definition of one word raises 'Invalid syntax',
    and a blank definition is skipped. *)
Theorem parse_columns_reads ds acc :
  forallb column_ok ds = true ->
  Parser.parse_columns (List.map column_text ds) acc
  = Ok (fold_left declare ds acc) /\
  (ds <> [] ->
   forallb (fun d => no_comma (column_text d)) ds = true ->
   split_char (join_commas (List.map column_text ds)) ","
   = List.map column_text ds) /\
  (forall d rest,
      column_shape d = true ->
      in_list (lower (cd_type d)) SUPPORTED_TYPES = false ->
      Parser.parse_columns (List.map column_text ds ++ column_text d :: rest)
                           acc
      = Raise (ValueError ("Invalid data type: " ++ lower (cd_type d)))) /\
  (forall pad name pad' rest,
      blank pad = true -> token name = true -> blank pad' = true ->
      Parser.parse_columns
        (List.map column_text ds ++ (pad ++ name ++ pad') :: rest) acc
      = Raise (ValueError "Invalid syntax")) /\
  (forall pad rest,
      blank pad = true ->
      Parser.parse_columns (List.map column_text ds ++ pad :: rest) acc
      = Parser.parse_columns rest (fold_left declare ds acc)).
Proof.
  intros H.
  assert (P : forall rest acc,
             Parser.parse_columns (List.map column_text ds ++ rest) acc
             = Parser.parse_columns rest (fold_left declare ds acc)).
  { clear acc. induction ds as [|d ds IH]; intros rest acc; [reflexivity|].
    cbn [forallb] in H. apply andb_true_iff in H. destruct H as [Hd Hds].
    unfold column_ok in Hd. apply andb_true_iff in Hd. destruct Hd as [Sh Ty].
    destruct (column_parts d Sh) as (_ & NE & Q).
    cbn [List.map List.app Parser.parse_columns fold_left].
    rewrite NE, Q, Ty. cbn [negb]. now apply IH. }
  split; [now apply parse_columns_ok|].
  split.
  { intros N C. apply split_char_join.
    - destruct ds; [congruence|discriminate].
    - rewrite forallb_forall in *. intros x I.
      apply in_map_iff in I. destruct I as (d & <- & I). now apply C. }
  split; [|split].
  - intros d rest Sh Ty. rewrite P.
    destruct (column_parts d Sh) as (_ & NE & Q).
    cbn [Parser.parse_columns]. rewrite NE, Q, Ty. reflexivity.
  - intros pad name pad' rest B1 T B2. rewrite P.
    destruct (token_stops name T) as [S1 S2].
    cbn [Parser.parse_columns].
    rewrite (strip_trim pad name pad' B1 B2 S1 S2).
    rewrite (token_not_empty name T).
    destruct (token_facts name T) as [A N].
    unfold split_ws. rewrite <- (append_empty name) at 1.
    rewrite (split_ws_token name "" "" A). cbn [split_ws_from].
    pose proof (rev_onto_nonempty name "" N) as NE.
    destruct (rev_onto name "") as [|y r] eqn:E; [congruence|].
    rewrite <- E. fold (rev name). fold (rev (rev name)). rewrite rev_rev.
    cbn [filter]. rewrite (strip_token name T), (token_not_empty name T).
    reflexivity.
  - intros pad rest B. rewrite P. cbn [Parser.parse_columns].
    now rewrite (strip_blank pad B).
Qed.

Lemma parse_columns_reads_witness :
  Parser.parse_columns
    (split_char "name str, age INT" ",") []
  = Ok [("name", "str"); ("age", "int")] /\
  Parser.parse_columns ["name str"; " age text"] []
  = Raise (ValueError "Invalid data type: text") /\
  Parser.parse_columns ["name str"; " age "] []
  = Raise (ValueError "Invalid syntax").
Proof.
  split; [|split].
  - destruct (parse_columns_reads
                [{| cd_lead := ""; cd_name := "name"; cd_gap := " ";
                    cd_type := "str"; cd_trail := "" |};
                 {| cd_lead := " "; cd_name := "age"; cd_gap := " ";
                    cd_type := "INT"; cd_trail := "" |}] [])
      as (H1 & H2 & _); [reflexivity|].
    cbn [List.map column_text cd_lead cd_name cd_gap cd_type cd_trail] in H2.
    change (split_char "name str, age INT" ",")
      with (split_char
              (join_commas
                 [column_text {| cd_lead := ""; cd_name := "name";
                                 cd_gap := " "; cd_type := "str";
                                 cd_trail := "" |};
                  column_text {| cd_lead := " "; cd_name := "age";
                                 cd_gap := " "; cd_type := "INT";
                                 cd_trail := "" |}]) ",").
    rewrite H2; [exact H1|discriminate|reflexivity].
  - destruct (parse_columns_reads
                [{| cd_lead := ""; cd_name := "name"; cd_gap := " ";
                    cd_type := "str"; cd_trail := "" |}] [])
      as (_ & _ & H & _); [reflexivity|].
    apply (H {| cd_lead := " "; cd_name := "age"; cd_gap := " ";
                cd_type := "text"; cd_trail := "" |} []); reflexivity.
  - destruct (parse_columns_reads
                [{| cd_lead := ""; cd_name := "name"; cd_gap := " ";
                    cd_type := "str"; cd_trail := "" |}] [])
      as (_ & _ & _ & H & _); [reflexivity|].
    apply (H " " "age" " " []); reflexivity.
Defined.

Lemma space_lower c : is_space c = true -> lower_char c = c.
Proof.
  destruct c as [b0 b1 b2 b3 b4 b5 b6 b7].
  destruct b0, b1, b2, b3, b4, b5, b6, b7; intros H; try discriminate H;
    reflexivity.
Qed.

(** A keyword that begins with a letter ends the blanks before it. *)
Lemma letter_stops k c p rest :
  lower k = lower (String c p) -> is_space (lower_char c) = false ->
  stops is_space (k ++ rest) = true.
Proof.
  unfold lower. destruct k as [|x k]; cbn [PyStr.map]; [discriminate|].
  intros H N. injection H as Hc _. cbn [append stops].
  destruct (is_space x) eqn:S; [|reflexivity].
  rewrite (space_lower x S) in Hc. subst x. vm_compute in N |- *.
  rewrite <- N. exact S.
Qed.

Lemma word_stops_blank t rest :
  word_name t = true -> stops is_space (t ++ rest) = true.
Proof.
  intros W. destruct (word_name_facts t W) as [A L].
  destruct t as [|c t]; [cbn in L; lia|].
  unfold all_chars in A. cbn [list_ascii_of_string forallb] in A.
  apply andb_true_iff in A. destruct A as [A _].
  cbn [append stops]. destruct (word_char_facts c A) as [-> _]. reflexivity.
Qed.

Lemma blank_stops_word s rest :
  blank s = true -> stops is_word rest = true ->
  stops is_word (s ++ rest) = true.
Proof.
  destruct s as [|c s]; [auto|]. unfold blank, all_chars.
  cbn [list_ascii_of_string forallb append stops]. intros B _.
  apply andb_true_iff in B. destruct B as [B _].
  destruct (is_word c) eqn:W; [|reflexivity].
  destruct (word_char_facts c W) as [N _]. congruence.
Qed.

(** A greedy class that reads the whole run [t]. *)
Lemma rmatch_run min cls t rest c k r :
  all_chars cls t = true ->
  (min <= String.length t)%nat ->
  stops cls rest = true ->
  k rest c = Some r ->
  Regex.rmatch (Regex.Many true min cls) (t ++ rest) c k = Some r.
Proof.
  intros H L S K. cbn [Regex.rmatch]. now apply many_greedy_max.
Qed.

Lemma blank_length s : s <> "" -> (1 <= String.length s)%nat.
Proof. destruct s; [congruence|cbn; lia]. Qed.

(** X28. parse_create_table accepts CREATE TABLE in any case with any blanks
    between the words, reads the name and the text between the opening
    parenthesis and the last closing one, and returns the name with the
    columns parsed from that text split at commas; what follows the last
    parenthesis is ignored. *)
Theorem parse_create_table_reads kc s1 kt s2 t s3 body tail :
  lower kc = lower "CREATE" -> lower kt = lower "TABLE" ->
  blank s1 = true -> s1 <> "" ->
  blank s2 = true -> s2 <> "" ->
  blank s3 = true ->
  word_name t = true ->
  one_line body = true ->
  no_paren tail = true ->
  Parser.parse_create_table
    (kc ++ s1 ++ kt ++ s2 ++ t ++ s3 ++ "(" ++ body ++ ")" ++ tail)
  = (columns <- Parser.parse_columns (split_char body ",") [] ;;
     Ok (t, columns)).
Proof.
  intros Kc Kt B1 N1 B2 N2 B3 W B N.
  destruct (word_name_facts t W) as [A L].
  destruct (one_line_facts body B) as [Ab Lb].
  set (fin := fun (_ : string) (c : Regex.captures) => Some c).
  set (res := Some [(2%nat, body); (1%nat, t)]).
  assert (G2 : Regex.rmatch (Regex.Group 2 Regex.any1) (body ++ ")" ++ tail)
                 [(1%nat, t)]
                 (fun s' c' => Regex.rmatch (Regex.Lit ")") s' c' fin)
               = res).
  { apply rmatch_group_backtrack; [exact Ab|exact Lb| |reflexivity].
    intros a b cp E D. now apply (lit_paren_suffix tail a b). }
  assert (P : Regex.rmatch (Regex.Lit "(") ("(" ++ body ++ ")" ++ tail)
                [(1%nat, t)]
                (fun s' c' =>
                   Regex.rmatch (Regex.Group 2 Regex.any1) s' c'
                     (fun s' c' => Regex.rmatch (Regex.Lit ")") s' c' fin))
              = res).
  { cbn [Regex.rmatch]. rewrite (lit_ci_app "(" "(" _ eq_refl). exact G2. }
  assert (W0 : Regex.rmatch Regex.ws0 (s3 ++ "(" ++ body ++ ")" ++ tail)
                 [(1%nat, t)]
                 (fun s' c' =>
                    Regex.rmatch (Regex.Lit "(") s' c'
                      (fun s' c' =>
                         Regex.rmatch (Regex.Group 2 Regex.any1) s' c'
                           (fun s' c' =>
                              Regex.rmatch (Regex.Lit ")") s' c' fin)))
               = res).
  { apply rmatch_run; [exact B3|lia|reflexivity|exact P]. }
  assert (G1 : Regex.rmatch (Regex.Group 1 Regex.word)
                 (t ++ s3 ++ "(" ++ body ++ ")" ++ tail) []
                 (fun s' c' =>
                    Regex.rmatch Regex.ws0 s' c'
                      (fun s' c' =>
                         Regex.rmatch (Regex.Lit "(") s' c'
                           (fun s' c' =>
                              Regex.rmatch (Regex.Group 2 Regex.any1) s' c'
                                (fun s' c' =>
                                   Regex.rmatch (Regex.Lit ")") s' c' fin))))
               = res).
  { apply rmatch_group_run; [exact A|exact L| |exact W0].
    now apply blank_stops_word. }
  set (k1 := fun s' c' =>
               Regex.rmatch (Regex.Group 1 Regex.word) s' c'
                 (fun s' c' =>
                    Regex.rmatch Regex.ws0 s' c'
                      (fun s' c' =>
                         Regex.rmatch (Regex.Lit "(") s' c'
                           (fun s' c' =>
                              Regex.rmatch (Regex.Group 2 Regex.any1) s' c'
                                (fun s' c' =>
                                   Regex.rmatch (Regex.Lit ")") s' c' fin))))).
  assert (W2 : Regex.rmatch Regex.ws1
                 (s2 ++ t ++ s3 ++ "(" ++ body ++ ")" ++ tail) [] k1 = res).
  { apply rmatch_run; [exact B2|now apply blank_length| |exact G1].
    now apply word_stops_blank. }
  assert (T : Regex.rmatch (Regex.Lit "TABLE")
                (kt ++ s2 ++ t ++ s3 ++ "(" ++ body ++ ")" ++ tail) []
                (fun s' c' => Regex.rmatch Regex.ws1 s' c' k1) = res).
  { cbn [Regex.rmatch]. rewrite (lit_ci_app _ _ _ Kt). exact W2. }
  assert (W1 : Regex.rmatch Regex.ws1
                 (s1 ++ kt ++ s2 ++ t ++ s3 ++ "(" ++ body ++ ")" ++ tail) []
                 (fun s' c' =>
                    Regex.rmatch (Regex.Lit "TABLE") s' c'
                      (fun s' c' => Regex.rmatch Regex.ws1 s' c' k1)) = res).
  { apply rmatch_run; [exact B1|now apply blank_length| |exact T].
    now apply (letter_stops kt "T" "ABLE"). }
  assert (M : Regex.re_match Parser.create_pattern
                (kc ++ s1 ++ kt ++ s2 ++ t ++ s3 ++ "(" ++ body ++ ")" ++ tail)
              = res).
  { unfold Regex.re_match, Parser.create_pattern. cbn [Regex.rmatch].
    rewrite (lit_ci_app _ _ _ Kc). exact W1. }
  unfold Parser.parse_create_table. rewrite M. reflexivity.
Qed.

Lemma parse_create_table_reads_witness :
  Parser.parse_create_table "create  table users(name str, age int);"
  = Ok ("users", [("name", "str"); ("age", "int")]).
Proof.
  apply (parse_create_table_reads "create" "  " "table" " " "users" ""
           "name str, age int" ";");
    solve [reflexivity | discriminate].
Defined.

(** *** The statement patterns: UPDATE *)

Lemma many_lazy_first {A} cls (k : string -> option A) body :
  forall min tail r,
    all_chars cls body = true ->
    (min <= String.length body)%nat ->
    (forall a b, body = a ++ b -> b <> "" ->
                 (min <= String.length a)%nat -> k (b ++ tail) = None) ->
    k tail = Some r ->
    Regex.many_lazy cls k min (body ++ tail) = Some r.
Proof.
  unfold all_chars.
  induction body as [|c body IH]; intros min tail r H L N K.
  - cbn [String.length] in L. assert (min = 0%nat) by lia. subst min.
    cbn [append]. destruct tail; cbn [Regex.many_lazy]; now rewrite K.
  - cbn [list_ascii_of_string forallb] in H. apply andb_true_iff in H.
    destruct H as [Hc Hr]. cbn [append Regex.many_lazy]. rewrite Hc.
    assert (R : Regex.many_lazy cls k (Nat.pred min) (body ++ tail) = Some r).
    { apply IH; [exact Hr|cbn [String.length] in L; lia| |exact K].
      intros a b E D La. apply (N (String c a) b); [now rewrite E|exact D|].
      cbn [String.length]. lia. }
    rewrite R. destruct min as [|m]; [|reflexivity].
    assert (K0 : k (String c body ++ tail) = None).
    { apply (N "" (String c body) eq_refl); [discriminate|cbn; lia]. }
    cbn [append] in K0. now rewrite K0.
Qed.

(** A group over a lazy class that stops at the first place from which the
    rest of the pattern matches. *)
Lemma rmatch_group_lazy n min cls body tail c k r :
  all_chars cls body = true ->
  (min <= String.length body)%nat ->
  (forall a b cp, body = a ++ b -> b <> "" -> k (b ++ tail) cp = None) ->
  k tail ((n, body) :: c) = Some r ->
  Regex.rmatch (Regex.Group n (Regex.Many false min cls)) (body ++ tail) c k
  = Some r.
Proof.
  intros H L N K. cbn [Regex.rmatch].
  apply many_lazy_first; auto.
  - intros a b E D _. now apply (N a b).
  - now rewrite take_app.
Qed.

(** A greedy class that finds no way on from any place of its run. *)
Lemma many_greedy_run_none {A} cls (k : string -> option A) sp :
  forall min rest,
    all_chars cls sp = true ->
    stops cls rest = true ->
    (forall a b, sp = a ++ b -> k (b ++ rest) = None) ->
    Regex.many_greedy cls k min (sp ++ rest) = None.
Proof.
  unfold all_chars.
  induction sp as [|c sp IH]; intros min rest H S N.
  - cbn [append]. pose proof (N "" "" eq_refl) as K. cbn [append] in K.
    destruct rest as [|x rest]; cbn [Regex.many_greedy].
    + rewrite K. now destruct min.
    + cbn [stops] in S. apply negb_true_iff in S. rewrite S, K.
      now destruct min.
  - cbn [list_ascii_of_string forallb] in H. apply andb_true_iff in H.
    destruct H as [Hc Hr]. cbn [append Regex.many_greedy]. rewrite Hc.
    rewrite (IH (Nat.pred min) rest Hr S).
    + pose proof (N "" (String c sp) eq_refl) as K. cbn [append] in K.
      rewrite K. now destruct min.
    + intros a b E. apply (N (String c a) b). now rewrite E.
Qed.

Lemma lower_char_word c : is_word (lower_char c) = is_word c.
Proof.
  destruct c as [b0 b1 b2 b3 b4 b5 b6 b7].
  destruct b0, b1, b2, b3, b4, b5, b6, b7; reflexivity.
Qed.

Lemma eq_ci_word c y : Regex.eq_ci c y = true -> is_word c = is_word y.
Proof.
  unfold Regex.eq_ci. intros H. apply Ascii.eqb_eq in H.
  rewrite <- (lower_char_word c), <- (lower_char_word y). now rewrite H.
Qed.

(** A keyword of letters that does not begin [x] does not begin [x]
    followed by a blank either. *)
Lemma lit_ci_straddle p :
  all_chars is_word p = true ->
  forall x tail,
    Regex.lit_ci p x = None -> stops is_word tail = true ->
    Regex.lit_ci p (x ++ tail) = None.
Proof.
  unfold all_chars. induction p as [|c p IH]; intros W x tail H S.
  - discriminate H.
  - cbn [list_ascii_of_string forallb] in W. apply andb_true_iff in W.
    destruct W as [Wc Wp].
    destruct x as [|y x]; cbn [append].
    + destruct tail as [|y tail]; [reflexivity|].
      cbn [stops] in S. apply negb_true_iff in S. cbn [Regex.lit_ci].
      destruct (Regex.eq_ci c y) eqn:E; [|reflexivity].
      apply eq_ci_word in E. congruence.
    + cbn [Regex.lit_ci] in *.
      destruct (Regex.eq_ci c y); [now apply IH|reflexivity].
Qed.

(** The blanks a text begins with. *)
Lemma blank_prefix b :
  exists sp b', b = sp ++ b' /\ all_chars is_space sp = true /\
                stops is_space b' = true.
Proof.
  induction b as [|c b (sp & b' & E & B & S)].
  - now exists "", "".
  - destruct (is_space c) eqn:C.
    + exists (String c sp), b'. repeat split.
      * now rewrite E.
      * unfold all_chars in *. cbn [list_ascii_of_string forallb].
        now rewrite C, B.
      * exact S.
    + exists "", (String c b). repeat split. cbn [stops]. now rewrite C.
Qed.

Lemma blank_nonempty_stops_word s rest :
  blank s = true -> s <> "" -> stops is_word (s ++ rest) = true.
Proof.
  destruct s as [|c s]; [congruence|]. unfold blank, all_chars.
  cbn [list_ascii_of_string forallb append stops]. intros B _.
  apply andb_true_iff in B. destruct B as [B _].
  destruct (is_word c) eqn:W; [|reflexivity].
  destruct (word_char_facts c W) as [N _]. congruence.
Qed.

Lemma eos_nonempty b tail cp k :
  one_line b = true ->
  Regex.rmatch Regex.Eos (b ++ tail) cp k = None.
Proof.
  intros B. destruct (one_line_facts b B) as [A L].
  destruct b as [|c b]; [cbn in L; lia|].
  unfold all_chars in A. cbn [list_ascii_of_string forallb] in A.
  apply andb_true_iff in A. destruct A as [A _].
  unfold Regex.is_any in A. apply negb_true_iff in A.
  cbn [append Regex.rmatch String.eqb orb]. now rewrite A.
Qed.

Lemma one_line_suffix s a b :
  one_line s = true -> s = a ++ b -> b <> "" -> one_line b = true.
Proof.
  intros H -> N. unfold one_line in *.
  apply andb_true_iff in H. destruct H as [H _].
  rewrite all_chars_app in H. apply andb_true_iff in H. destruct H as [_ H].
  rewrite H. now destruct b.
Qed.

Lemma update_rest_end c : update_rest "" c = Some c.
Proof. reflexivity. Qed.

Lemma update_rest_where s4 kw s5 cond c :
  blank s4 = true -> s4 <> "" ->
  lower kw = lower "WHERE" ->
  blank s5 = true -> s5 <> "" ->
  one_line cond = true -> stops is_space cond = true ->
  update_rest (s4 ++ kw ++ s5 ++ cond) c = Some ((3%nat, cond) :: c).
Proof.
  intros B4 N4 K B5 N5 C S.
  destruct (one_line_facts cond C) as [Ac Lc].
  set (fin := fun (_ : string) (c : Regex.captures) => Some c).
  assert (G3 : Regex.rmatch (Regex.Group 3 Regex.any1) cond c
                 (fun s' c' => Regex.rmatch Regex.Eos s' c' fin)
               = Some ((3%nat, cond) :: c)).
  { rewrite <- (append_empty cond) at 1.
    apply rmatch_group_run; auto. }
  assert (W5 : Regex.rmatch Regex.ws1 (s5 ++ cond) c
                 (fun s' c' =>
                    Regex.rmatch (Regex.Group 3 Regex.any1) s' c'
                      (fun s' c' => Regex.rmatch Regex.Eos s' c' fin))
               = Some ((3%nat, cond) :: c)).
  { apply rmatch_run; [exact B5|now apply blank_length|exact S|exact G3]. }
  assert (W4 : Regex.rmatch Regex.ws1 (s4 ++ kw ++ s5 ++ cond) c
                 (fun s' c' =>
                    Regex.rmatch (Regex.Lit "WHERE") s' c'
                      (fun s' c' =>
                         Regex.rmatch Regex.ws1 s' c'
                           (fun s' c' =>
                              Regex.rmatch (Regex.Group 3 Regex.any1) s' c'
                                (fun s' c' =>
                                   Regex.rmatch Regex.Eos s' c' fin))))
               = Some ((3%nat, cond) :: c)).
  { apply rmatch_run; [exact B4|now apply blank_length| |].
    - now apply (letter_stops kw "W" "HERE").
    - cbn [Regex.rmatch]. rewrite (lit_ci_app _ _ _ K). exact W5. }
  unfold update_rest. cbn [Regex.rmatch].
  match goal with
  | |- match ?m with Some x => Some x | None => _ end = _ =>
      replace m with (Some ((3%nat, cond) :: c)) by (symmetry; exact W4)
  end.
  reflexivity.
Qed.

(** From inside the SET clause the rest of the pattern does not match. *)
Lemma update_rest_inside sets a b tail cp :
  set_clause_ok sets = true ->
  sets = a ++ b -> b <> "" ->
  stops is_word tail = true ->
  update_rest (b ++ tail) cp = None.
Proof.
  unfold set_clause_ok. intros H E N S.
  apply andb_true_iff in H. destruct H as [H O].
  apply andb_true_iff in H. destruct H as [H T].
  apply andb_true_iff in H. destruct H as [L Hd].
  apply negb_true_iff in O.
  pose proof (one_line_suffix sets a b L E N) as Lb.
  destruct (blank_prefix b) as (sp & b' & Eb & Bs & Sb).
  assert (Nb : b' <> "").
  { intros ->. rewrite append_empty in Eb. subst b.
    rewrite E, rev_app in T. destruct (rev sp) as [|y r] eqn:R.
    - apply (f_equal rev) in R. rewrite rev_rev in R. now apply N.
    - cbn [append stops] in T. apply negb_true_iff in T.
      assert (A : all_chars is_space (String y r) = true)
        by now rewrite <- R, all_chars_rev.
      unfold all_chars in A. cbn [list_ascii_of_string forallb] in A.
      apply andb_true_iff in A. destruct A as [A _]. congruence. }
  unfold update_rest. cbn [Regex.rmatch].
  assert (W : Regex.many_greedy is_space
                (fun s' =>
                   match Regex.lit_ci "WHERE" s' with
                   | Some s'0 =>
                       Regex.rmatch Regex.ws1 s'0 cp
                         (fun s'1 c' =>
                            Regex.rmatch (Regex.Group 3 Regex.any1) s'1 c'
                              (fun s'2 c'0 =>
                                 Regex.rmatch Regex.Eos s'2 c'0
                                   (fun _ c'' => Some c'')))
                   | None => None
                   end) 1 (b ++ tail) = None).
  { rewrite Eb, str_append_assoc.
    apply many_greedy_run_none; [exact Bs| |].
    - rewrite stops_app_l; [exact Sb|exact Nb].
    - intros a' b'' E'.
      rewrite <- str_append_assoc.
      rewrite lit_ci_straddle; [reflexivity|reflexivity| |exact S].
      apply (occurs_ci_suffix _ _ O (a ++ a') (b'' ++ b')).
      rewrite E, Eb, E'. now rewrite !str_append_assoc. }
  unfold Regex.ws1 at 1. cbn [Regex.rmatch]. cbn [Regex.rmatch] in W.
  match goal with
  | |- match ?m with Some x => Some x | None => _ end = None =>
      replace m with (@None Regex.captures) by (symmetry; exact W)
  end.
  pose proof (eos_nonempty b tail cp (fun _ c'' => Some c'') Lb) as Z.
  cbn [Regex.rmatch] in Z. exact Z.
Qed.

Lemma parse_update_match ku s1 t s2 ks s3 sets tail res :
  lower ku = lower "UPDATE" -> lower ks = lower "SET" ->
  blank s1 = true -> s1 <> "" ->
  blank s2 = true -> s2 <> "" ->
  blank s3 = true -> s3 <> "" ->
  word_name t = true ->
  set_clause_ok sets = true ->
  stops is_word tail = true ->
  update_rest tail [(2%nat, sets); (1%nat, t)] = Some res ->
  Regex.re_match Parser.update_pattern
    (ku ++ s1 ++ t ++ s2 ++ ks ++ s3 ++ sets ++ tail) = Some res.
Proof.
  intros Ku Ks B1 N1 B2 N2 B3 N3 W C St R.
  destruct (word_name_facts t W) as [A L].
  pose proof C as C'. unfold set_clause_ok in C'.
  apply andb_true_iff in C'. destruct C' as [C' _].
  apply andb_true_iff in C'. destruct C' as [C' _].
  apply andb_true_iff in C'. destruct C' as [Ln Hd].
  destruct (one_line_facts sets Ln) as [As Ls].
  assert (G2 : Regex.rmatch (Regex.Group 2 Regex.any1_lazy) (sets ++ tail)
                 [(1%nat, t)] update_rest = Some res).
  { apply rmatch_group_lazy; [exact As|exact Ls| |exact R].
    intros a b cp E D. now apply (update_rest_inside sets a b). }
  set (k3 := fun s' c' =>
               Regex.rmatch (Regex.Group 2 Regex.any1_lazy) s' c' update_rest).
  assert (W3 : Regex.rmatch Regex.ws1 (s3 ++ sets ++ tail) [(1%nat, t)] k3
               = Some res).
  { apply rmatch_run; [exact B3|now apply blank_length| |exact G2].
    rewrite stops_app_l; [exact Hd|].
    intros ->. cbn in Ls. lia. }
  assert (S : Regex.rmatch (Regex.Lit "SET") (ks ++ s3 ++ sets ++ tail)
                [(1%nat, t)]
                (fun s' c' => Regex.rmatch Regex.ws1 s' c' k3) = Some res).
  { cbn [Regex.rmatch]. rewrite (lit_ci_app _ _ _ Ks). exact W3. }
  set (k2 := fun s' c' =>
               Regex.rmatch (Regex.Lit "SET") s' c'
                 (fun s' c' => Regex.rmatch Regex.ws1 s' c' k3)).
  assert (W2 : Regex.rmatch Regex.ws1 (s2 ++ ks ++ s3 ++ sets ++ tail)
                 [(1%nat, t)] k2 = Some res).
  { apply rmatch_run; [exact B2|now apply blank_length| |exact S].
    now apply (letter_stops ks "S" "ET"). }
  assert (G1 : Regex.rmatch (Regex.Group 1 Regex.word)
                 (t ++ s2 ++ ks ++ s3 ++ sets ++ tail) []
                 (fun s' c' => Regex.rmatch Regex.ws1 s' c' k2) = Some res).
  { apply rmatch_group_run; [exact A|exact L| |exact W2].
    now apply blank_nonempty_stops_word. }
  assert (W1 : Regex.rmatch Regex.ws1
                 (s1 ++ t ++ s2 ++ ks ++ s3 ++ sets ++ tail) []
                 (fun s' c' =>
                    Regex.rmatch (Regex.Group 1 Regex.word) s' c'
                      (fun s' c' => Regex.rmatch Regex.ws1 s' c' k2))
               = Some res).
  { apply rmatch_run; [exact B1|now apply blank_length| |exact G1].
    now apply word_stops_blank. }
  unfold Regex.re_match, Parser.update_pattern. cbn [Regex.rmatch].
  rewrite (lit_ci_app _ _ _ Ku). exact W1.
Qed.

(** X29. parse_update reads the table name and the SET clause, which runs to
    the end of the command or to the first WHERE between blanks, and returns
    the assignments parsed from the clause split at commas, together with
    the stripped condition when one follows. *)
Theorem parse_update_reads ku s1 t s2 ks s3 sets :
  lower ku = lower "UPDATE" -> lower ks = lower "SET" ->
  blank s1 = true -> s1 <> "" ->
  blank s2 = true -> s2 <> "" ->
  blank s3 = true -> s3 <> "" ->
  word_name t = true ->
  set_clause_ok sets = true ->
  Parser.parse_update (ku ++ s1 ++ t ++ s2 ++ ks ++ s3 ++ sets)
  = update_parts t sets None /\
  (forall s4 kw s5 cond,
      blank s4 = true -> s4 <> "" ->
      lower kw = lower "WHERE" ->
      blank s5 = true -> s5 <> "" ->
      one_line cond = true -> stops is_space cond = true ->
      Parser.parse_update
        (ku ++ s1 ++ t ++ s2 ++ ks ++ s3 ++ sets ++ s4 ++ kw ++ s5 ++ cond)
      = update_parts t sets (Some (strip cond))).
Proof.
  intros Ku Ks B1 N1 B2 N2 B3 N3 W C. split.
  - pose proof (parse_update_match ku s1 t s2 ks s3 sets "" _
                  Ku Ks B1 N1 B2 N2 B3 N3 W C eq_refl
                  (update_rest_end _)) as M.
    rewrite append_empty in M.
    unfold Parser.parse_update. rewrite M. reflexivity.
  - intros s4 kw s5 cond B4 N4 Kw B5 N5 Cd Sd.
    pose proof (parse_update_match ku s1 t s2 ks s3 sets
                  (s4 ++ kw ++ s5 ++ cond) _
                  Ku Ks B1 N1 B2 N2 B3 N3 W C
                  (blank_nonempty_stops_word s4 _ B4 N4)
                  (update_rest_where s4 kw s5 cond _ B4 N4 Kw B5 N5 Cd Sd))
      as M.
    unfold Parser.parse_update. rewrite M.
    unfold update_parts, Parser.grp.
    cbn [Regex.group Nat.eqb Parser.truthy_str].
    destruct (one_line_facts cond Cd) as [_ Lc].
    destruct cond as [|x cond]; [cbn in Lc; lia|]. reflexivity.
Qed.

Lemma parse_update_reads_witness :
  Parser.parse_update "UPDATE t SET ok = no, name = b"
  = Ok ("t", [("ok", VStr "no"); ("name", VStr "b")], None) /\
  Parser.parse_update "update t set ok = no  where id = 1"
  = Ok ("t", [("ok", VStr "no")], Some "id = 1").
Proof.
  split.
  - destruct (parse_update_reads "UPDATE" " " "t" " " "SET" " "
                "ok = no, name = b") as (H & _);
      [reflexivity|reflexivity|reflexivity|discriminate|reflexivity
      |discriminate|reflexivity|discriminate|reflexivity|reflexivity
      |exact H].
  - destruct (parse_update_reads "update" " " "t" " " "set" " " "ok = no")
      as (_ & H);
      [reflexivity|reflexivity|reflexivity|discriminate|reflexivity
      |discriminate|reflexivity|discriminate|reflexivity|reflexivity|].
    apply (H "  " "where" " " "id = 1"); solve [reflexivity | discriminate].
Defined.

(** *** Coercion to an [int] column *)

(** [int] of a float that is a number succeeds. *)
Lemma int_of_float_number f :
  is_number f = true -> exists z, int_of_float f = Ok z.
Proof. destruct f; try discriminate; intros _; eexists; reflexivity. Qed.

(** The cast to [int], by kind of value. *)
Lemma cast_int_kinds :
  (forall s, int_of_str s = None ->
     Utils._cast_value (VStr s) "int"
     = Raise (ValueError ("Value " ++ s ++ " cannot be cast to int"))) /\
  Utils._cast_value VNone "int"
  = Raise (ValueError "Value None cannot be cast to int") /\
  Utils._cast_value (VFloat S754_nan) "int"
  = Raise (ValueError "Value nan cannot be cast to int") /\
  (forall s,
     Utils._cast_value (VFloat (S754_infinity s)) "int"
     = Raise (OverflowError "cannot convert float infinity to integer")) /\
  (forall f, is_number f = true ->
     exists z, Utils._cast_value (VFloat f) "int" = Ok (VInt z) /\
               truncation_of f z) /\
  (forall b, Utils._cast_value (VBool b) "int" = Ok (VInt (Z.b2z b))) /\
  (forall s z, int_of_str s = Some z ->
     Utils._cast_value (VStr s) "int" = Ok (VInt z)) /\
  (forall z, Utils._cast_value (VInt z) "int" = Ok (VInt z)).
Proof.
  unfold Utils._cast_value, py_int. cbn [String.eqb Ascii.eqb Bool.eqb].
  split; [intros s H; now rewrite H|].
  split; [reflexivity|]. split; [reflexivity|]. split; [reflexivity|].
  split.
  { intros f N. destruct (int_of_float_number f N) as [z E].
    exists z. rewrite E. split; [reflexivity|].
    now apply int_of_float_truncation. }
  split; [reflexivity|]. split; [intros s z H; now rewrite H|reflexivity].
Qed.

(** C4, as the code has it.  The cast to [int] is the builtin [int].  Of
    the values that are not integers, a string that is not an integer
    literal, [None], the float [nan] and the infinities fail, and an INSERT
    with such a value in an [int] column reports an error and stores
    nothing; but a float that is a number is truncated toward zero and a
    boolean becomes 1 or 0, and an INSERT whose values all cast stores the
    result in the [int] column.  The literal [3.9] is read as a float and
    cast to 3; the literals [nan] and [inf] are read as the floats that
    fail. *)
Theorem int_column_coercion st t cols vs i c v :
  has_table st t cols ->
  wf_schema cols ->
  nth_error (data_column_names cols) i = Some c ->
  declared_type cols c = "int" ->
  nth_error vs i = Some v ->
  List.length vs = List.length (data_column_names cols) ->
  ((forall s, int_of_str s = None ->
      Utils._cast_value (VStr s) "int"
      = Raise (ValueError ("Value " ++ s ++ " cannot be cast to int"))) /\
   Utils._cast_value VNone "int"
   = Raise (ValueError "Value None cannot be cast to int") /\
   Utils._cast_value (VFloat S754_nan) "int"
   = Raise (ValueError "Value nan cannot be cast to int") /\
   (forall s,
      Utils._cast_value (VFloat (S754_infinity s)) "int"
      = Raise (OverflowError "cannot convert float infinity to integer")) /\
   (forall f, is_number f = true ->
      exists z, Utils._cast_value (VFloat f) "int" = Ok (VInt z) /\
                truncation_of f z) /\
   (forall b, Utils._cast_value (VBool b) "int" = Ok (VInt (Z.b2z b))) /\
   (forall s z, int_of_str s = Some z ->
      Utils._cast_value (VStr s) "int" = Ok (VInt z)) /\
   (forall z, Utils._cast_value (VInt z) "int" = Ok (VInt z))) /\
  (forall e,
     Utils._cast_value v "int" = Raise e ->
     is_error (fst (Core.insert_row t vs st)) /\
     same_storage st (snd (Core.insert_row t vs st)) /\
     rows_of (snd (Core.insert_row t vs st)) t = rows_of st t) /\
  (forall xs ids,
     coerces cols (data_column_names cols) vs xs ->
     List.map Core.row_id (rows_of st t) = List.map VInt ids ->
     exists x,
       Utils._cast_value v "int" = Ok x /\
       fst (Core.insert_row t vs st) = OStr "Row inserted successfully" /\
       rows_of (snd (Core.insert_row t vs st)) t
       = (rows_of st t ++ [stored_row cols xs (max_id ids + 1)])%list /\
       PyDict.get (stored_row cols xs (max_id ids + 1)) c = Some x) /\
  (Parser._parse_value "3.9" = VFloat f3_9 /\
   Utils._cast_value (VFloat f3_9) "int" = Ok (VInt 3) /\
   Parser._parse_value "nan" = VFloat S754_nan /\
   Parser._parse_value "inf" = VFloat (S754_infinity false) /\
   Parser._parse_value "true" = VBool true /\
   Parser._parse_value "null" = VNone).
Proof.
  intros HT WF Hc Ty Hv L.
  split; [exact cast_int_kinds|].
  split; [|split].
  - intros e E.
    destruct (insert_row_unfold st t cols vs HT) as (st1 & S & ->).
    unfold Utils.validate_row_data. fold (data_column_names cols).
    rewrite <- (data_columns_count cols WF).
    assert (A : (len vs =? len (data_column_names cols)) = true).
    { apply Z.eqb_eq. unfold len. now rewrite L. }
    rewrite A. cbn [negb].
    rewrite <- Ty in E.
    destruct (cast_columns_raise Utils._cast_value cols _ vs i c v e []
                L Hc Hv E) as [e' ->].
    cbn [fst snd].
    split; [apply handle_is_error|split; [exact S|]].
    now apply same_storage_rows.
  - intros xs ids C Hids. destruct WF as [ND M].
    destruct (coerces_nth _ _ _ _ i c C Hc) as (v' & x & Hv' & Hx & E).
    assert (v' = v) by congruence. subst v'. rewrite Ty in E.
    exists x. split; [exact E|].
    destruct (insert_row_step st t cols vs xs ids HT ND M Hids C)
      as (O & _ & R).
    split; [exact O|split; [exact R|]].
    unfold stored_row. apply get_combine_nth with (i := i); auto.
    unfold data_column_names. now apply NoDup_filter.
  - repeat split; vm_compute; reflexivity.
Qed.

Lemma int_column_coercion_witness :
  (is_error (fst (Core.insert_row "T" [VStr "3.9"] int_store)) /\
   rows_of (snd (Core.insert_row "T" [VStr "3.9"] int_store)) "T" = []) /\
  (is_error (fst (Core.insert_row "T" [VFloat S754_nan] int_store)) /\
   rows_of (snd (Core.insert_row "T" [VFloat S754_nan] int_store)) "T" = []) /\
  rows_of (snd (Core.insert_row "T" [VFloat f3_9] int_store)) "T"
  = [[("N", VInt 3); ("id", VInt 1)]].
Proof.
  split; [|split].
  - destruct (int_column_coercion int_store "T"
                [("id", "int"); ("N", "int")] [VStr "3.9"] 0 "N"
                (VStr "3.9")) as (K & F & _); [reflexivity| |reflexivity..|].
    + split; [repeat constructor; cbn; intuition discriminate|reflexivity].
    + destruct K as (K & _).
      destruct (F _ (K "3.9" eq_refl)) as (H1 & _ & H3).
      split; [exact H1|exact H3].
  - destruct (int_column_coercion int_store "T"
                [("id", "int"); ("N", "int")] [VFloat S754_nan] 0 "N"
                (VFloat S754_nan)) as (K & F & _); [reflexivity| |reflexivity..|].
    + split; [repeat constructor; cbn; intuition discriminate|reflexivity].
    + destruct K as (_ & _ & K & _).
      destruct (F _ K) as (H1 & _ & H3).
      split; [exact H1|exact H3].
  - destruct (int_column_coercion int_store "T"
                [("id", "int"); ("N", "int")] [VFloat f3_9] 0 "N"
                (VFloat f3_9)) as (_ & _ & S & _); [reflexivity| |reflexivity..|].
    + split; [repeat constructor; cbn; intuition discriminate|reflexivity].
    + destruct (S [VInt 3] []) as (x & _ & _ & R & _).
      * repeat constructor.
      * reflexivity.
      * exact R.
Defined.

(** *** The texts the parsers cut out of a statement *)



Section Substrings.
Variable p : ascii -> bool.















End Substrings.

Lemma keys_chars_set {V} (q : string -> bool) (d : dict V) k v :
  Forall (fun kv => q (fst kv) = true) d -> q k = true ->
  Forall (fun kv => q (fst kv) = true) (PyDict.set d k v).
Proof. intros F H. now apply Forall_set. Qed.






(** *** Identities through a session *)





















(** *** UPDATE on the identity column *)




Lemma count_true_nonneg bs : 0 <= count_true bs.
Proof. unfold count_true, len. lia. Qed.








(** *** CREATE TABLE at the command boundary *)

(** C6, at a statement with two columns.  The parser reads the names as
    they are typed, and [create_table], given what it reads, stores the
    schema [id], [name], [age] under [users].  But [execute_command]
    upper-cases the statement before parsing it: the table is stored as
    [USERS] with the columns [NAME] and [AGE], the schema has neither
    [name] nor [age], and [table_exists] answers no for [users]. *)
Theorem execute_create_table_loses_case :
  Parser.parse_create_table create_users
  = Ok ("users", [("name", "str"); ("age", "int")]) /\
  current_metadata
    (snd (Core.create_table "users" [("name", "str"); ("age", "int")]
            empty_store))
  = [("users", [("id", "int"); ("name", "str"); ("age", "int")])] /\
  fst (Session.execute_command create_users "" empty_store)
  = OStr "Table created successfully" /\
  current_metadata (snd (Session.execute_command create_users "" empty_store))
  = [("USERS", [("id", "int"); ("NAME", "str"); ("AGE", "int")])] /\
  fst (Utils.table_exists "users"
         (snd (Session.execute_command create_users "" empty_store)))
  = false /\
  fst (Utils.table_exists "USERS"
         (snd (Session.execute_command create_users "" empty_store)))
  = true /\
  (forall command answer st,
     Session.execute_command command answer st
     = Session.execute_command (upper command) answer st).
Proof.
  do 6 (split; [vm_compute; reflexivity|]).
  apply execute_command_case_blind.
Qed.

(** *** Names, files and the metadata file *)

Lemma upper_differs t t' : upper t' <> upper t -> t' <> t.
Proof. intros N E. apply N. now rewrite E. Qed.

(** X1. create_table, drop_table, insert_row, update_rows and delete_rows
    on one table leave the rows and the schema of every other table as they
    were, whatever they report, for tables whose names are made of word
    characters, as the statement patterns read them, and differ by more
    than the case of their letters: such names are different files. *)
Theorem writes_touch_one_table t t' st :
  word_name t = true ->
  word_name t' = true ->
  upper t' <> upper t ->
  (forall cols,
     rows_of (snd (Core.create_table t cols st)) t' = rows_of st t' /\
     PyDict.get (current_metadata (snd (Core.create_table t cols st))) t'
     = PyDict.get (current_metadata st) t') /\
  (forall a,
     rows_of (snd (Core.drop_table t a st)) t' = rows_of st t' /\
     PyDict.get (current_metadata (snd (Core.drop_table t a st))) t'
     = PyDict.get (current_metadata st) t') /\
  (forall vs,
     rows_of (snd (Core.insert_row t vs st)) t' = rows_of st t' /\
     PyDict.get (current_metadata (snd (Core.insert_row t vs st))) t'
     = PyDict.get (current_metadata st) t') /\
  (forall us w,
     rows_of (snd (Core.update_rows t us w st)) t' = rows_of st t' /\
     PyDict.get (current_metadata (snd (Core.update_rows t us w st))) t'
     = PyDict.get (current_metadata st) t') /\
  (forall w a,
     rows_of (snd (Core.delete_rows t w a st)) t' = rows_of st t' /\
     PyDict.get (current_metadata (snd (Core.delete_rows t w a st))) t'
     = PyDict.get (current_metadata st) t').
Proof.
  intros _ _ U. pose proof (upper_differs t t' U) as N. repeat split.
  all: first [ now apply create_table_elsewhere
             | now apply drop_table_elsewhere
             | now apply insert_row_elsewhere
             | now apply update_rows_elsewhere
             | now apply delete_rows_elsewhere ].
Qed.

Lemma writes_touch_one_table_witness :
  rows_of (snd (Core.insert_row "u" [VInt 7] two_tables_store)) "t"
  = rows_of two_tables_store "t" /\
  PyDict.get (current_metadata (snd (Core.drop_table "u" "y" two_tables_store)))
             "t"
  = PyDict.get (current_metadata two_tables_store) "t".
Proof.
  destruct (writes_touch_one_table "u" "t" two_tables_store)
    as (_ & D & I & _).
  - reflexivity.
  - reflexivity.
  - discriminate.
  - split; [apply (I [VInt 7])|apply (D "y")].
Defined.

(** X7. After any sequence of commands the metadata file has not been
    written: write_table_metadata fails silently, the schemas live only in
    the memo of read_table_metadata. When the process starts again no
    table exists, although the data files are unchanged: LIST TABLES
    answers that no tables exist and insert_row reports the table as
    missing. *)
Theorem metadata_is_never_persisted cmds :
  meta_file (run_session cmds empty_store) = None /\
  (forall t,
     fst (Utils.table_exists t (restart (run_session cmds empty_store)))
     = false) /\
  (forall t,
     rows_of (restart (run_session cmds empty_store)) t
     = rows_of (run_session cmds empty_store) t) /\
  fst (Session.execute_command "LIST TABLES" ""
         (restart (run_session cmds empty_store)))
  = OStr "No tables exist" /\
  (forall t vs,
     fst (Core.insert_row t vs (restart (run_session cmds empty_store)))
     = OStr "Error: Table does not exist").
Proof.
  set (st := run_session cmds empty_store).
  pose proof (reachable_meta_file st
                (run_session_reachable cmds empty_store reach_empty)) as M.
  assert (E : forall t, Utils.table_exists t (restart st)
                        = (false, Utils.set_cached [] (restart st))).
  { intros t. unfold Utils.table_exists, Utils.read_table_metadata, restart.
    cbn. now rewrite M. }
  split; [exact M|split; [|split; [|split]]].
  - intros t. now rewrite E.
  - reflexivity.
  - unfold Session.execute_command.
    change (upper (strip "LIST TABLES")) with "LIST TABLES".
    change (startswith "LIST TABLES" "CREATE TABLE") with false.
    change (startswith "LIST TABLES" "DROP TABLE") with false.
    change (String.eqb "LIST TABLES" "LIST TABLES") with true.
    cbv iota. unfold Core.list_tables, Utils.read_table_metadata, restart.
    cbn. now rewrite M.
  - intros t vs. unfold Core.insert_row. now rewrite E.
Qed.
